(** * seyramlabs/valid: the validation engine, embedded and checked

    A shallow embedding of the Go package [valid] (rule.go, validation.go and
    its helpers): the predicate library, the type-directed dispatchers, the
    per-field evaluator [validateStruct] and the aggregator
    [structValidator], followed by the properties the specification states
    about them.

    Conventions.
    - A Go [string] is a Rocq [string], read as its sequence of bytes;
      [len(s)] is [String.length s].
    - Fixed-width integers are [Z]; the wrap-around of [int64] arithmetic is
      written out ([wrap64]).
    - A [reflect.Value] is a [value]: a tagged union over the kinds the
      package switches on.
    - Sending on the message channel is modelled by a writer monad [M]: a
      computation yields the messages it sent, in order, and either a result
      or a panic carrying the rendering of the panic value.
    - Functions of the Go standard library that the package calls are
      modelled in modules named after their packages ([GoStrings],
      [GoStrconv], [GoRegexp], [GoFmt]); functions of other libraries and of
      the absent [locale] package are fields of the class [Env]. *)

From Stdlib Require Import ZArith Floats String Ascii Lia Permutation.
From stdpp Require Import base option list gmap strings.

Local Open Scope string_scope.
Local Open Scope list_scope.
Local Open Scope Z_scope.

(** ** Bytes *)

Definition byte_code (c : ascii) : Z := Z.of_N (N_of_ascii c).

Definition in_range (lo hi : ascii) (c : ascii) : bool :=
  (byte_code lo <=? byte_code c) && (byte_code c <=? byte_code hi).

Definition is_digit : ascii -> bool := in_range "0" "9".
Definition is_digit19 : ascii -> bool := in_range "1" "9".
Definition is_lower : ascii -> bool := in_range "a" "z".
Definition is_upper : ascii -> bool := in_range "A" "Z".
Definition is_alpha (c : ascii) : bool := is_lower c || is_upper c.
Definition is_alnum (c : ascii) : bool := is_alpha c || is_digit c.
(** [utf8.RuneSelf] is 0x80: a byte below it is a one-byte (ASCII) rune. *)
Definition is_ascii_byte (c : ascii) : bool := byte_code c <? 128.
Definition byte_eqb (a b : ascii) : bool := Ascii.eqb a b.

(** ** Package [strings] *)

Module GoStrings.

Definition HasPrefix (s p : string) : bool := String.prefix p s.

Fixpoint Contains (s substr : string) : bool :=
  String.prefix substr s ||
  match s with
  | EmptyString => false
  | String _ s' => Contains s' substr
  end.

Fixpoint drop (n : nat) (s : string) : string :=
  match n, s with
  | O, _ => s
  | S n', String _ s' => drop n' s'
  | S _, EmptyString => EmptyString
  end.

Fixpoint take (n : nat) (s : string) : string :=
  match n, s with
  | S n', String c s' => String c (take n' s')
  | _, _ => EmptyString
  end.

(** [strings.Cut]: the text before and after the first occurrence of
    [sep], or [None] when [sep] does not occur. *)
Fixpoint Cut (s sep : string) : option (string * string) :=
  if String.prefix sep s then Some (EmptyString, drop (String.length sep) s)
  else match s with
       | EmptyString => None
       | String c s' =>
           match Cut s' sep with
           | Some (a, b) => Some (String c a, b)
           | None => None
           end
       end.

(** [strings.SplitN(s, sep, n)] for a non-empty [sep] and [n >= 0]: at most
    [n] pieces, the last one being the unsplit remainder. Every call site
    of the package passes a one-byte separator. *)
Fixpoint SplitN (s sep : string) (n : nat) : list string :=
  match n with
  | O => []
  | S O => [s]
  | S n' =>
      match Cut s sep with
      | Some (a, b) => a :: SplitN b sep n'
      | None => [s]
      end
  end.

(** [strings.Split(s, sep)] is [SplitN] with no bound on the pieces; a
    string of length [k] has at most [k + 1] of them. *)
Definition Split (s sep : string) : list string :=
  SplitN s sep (S (String.length s)).

(** [strings.LastIndex]: byte offset of the last occurrence, or -1. *)
Fixpoint LastIndex_from (s sep : string) (i last : Z) : Z :=
  let last' := if String.prefix sep s then i else last in
  match s with
  | EmptyString => last'
  | String _ s' => LastIndex_from s' sep (i + 1) last'
  end.

Definition LastIndex (s sep : string) : Z := LastIndex_from s sep 0 (-1).

Definition lower_byte (c : ascii) : ascii :=
  if is_upper c then ascii_of_N (N_of_ascii c + 32) else c.
Definition upper_byte (c : ascii) : ascii :=
  if is_lower c then ascii_of_N (N_of_ascii c - 32) else c.

(** U+FFFD, as [strings.Map] writes it for a byte that is not valid UTF-8. *)
Definition rune_error : string :=
  String (ascii_of_N 239) (String (ascii_of_N 191) (String (ascii_of_N 189) EmptyString)).

(** [strings.ToLower] and [strings.ToUpper] on a string of ASCII bytes.
    The package lowers the size suffix matched by [fileSizeRegex] and the
    locale name, which it compares to "fr"; both are decided by the ASCII
    letters alone. *)
Fixpoint ToLower (s : string) : string :=
  match s with
  | EmptyString => EmptyString
  | String c s' => String (lower_byte c) (ToLower s')
  end.

(** [strings.ToLower] and [strings.ToUpper] of the one-byte string
    [string([]byte{b})]: an ASCII byte is mapped; a byte from 0x80 on is
    not valid UTF-8 by itself and is replaced by U+FFFD. *)
Definition ToLower1 (c : ascii) : string :=
  if is_ascii_byte c then String (lower_byte c) EmptyString else rune_error.
Definition ToUpper1 (c : ascii) : string :=
  if is_ascii_byte c then String (upper_byte c) EmptyString else rune_error.

(** The white space of [unicode.IsSpace], as UTF-8: the six ASCII
    characters, U+0085, U+00A0, U+1680, U+2000..U+200A, U+2028, U+2029,
    U+202F, U+205F and U+3000. [space_len s] is the length in bytes of the
    white-space rune [s] starts with, 0 when it starts with none. *)
Definition is_ascii_space (c : ascii) : bool :=
  let n := byte_code c in
  (n =? 9) || (n =? 10) || (n =? 11) || (n =? 12) || (n =? 13) || (n =? 32).

Definition space_len (s : string) : nat :=
  match s with
  | EmptyString => 0%nat
  | String c0 s0 =>
      if is_ascii_space c0 then 1%nat
      else
        match s0 with
        | EmptyString => 0%nat
        | String c1 s1 =>
            let b0 := byte_code c0 in
            let b1 := byte_code c1 in
            if (b0 =? 194) && ((b1 =? 133) || (b1 =? 160)) then 2%nat
            else
              match s1 with
              | EmptyString => 0%nat
              | String c2 _ =>
                  let b2 := byte_code c2 in
                  if (b0 =? 225) && (b1 =? 154) && (b2 =? 128) then 3%nat
                  else if (b0 =? 226) && (b1 =? 128)
                          && (((128 <=? b2) && (b2 <=? 138))
                              || (b2 =? 168) || (b2 =? 169) || (b2 =? 175))
                  then 3%nat
                  else if (b0 =? 226) && (b1 =? 129) && (b2 =? 159) then 3%nat
                  else if (b0 =? 227) && (b1 =? 128) && (b2 =? 128) then 3%nat
                  else 0%nat
              end
        end
  end.

(** Strip the white-space runes [s] starts with; [fuel] bounds the number
    of runes and [String.length s] is always enough. *)
Fixpoint TrimLeft_fuel (fuel : nat) (s : string) : string :=
  match fuel with
  | O => s
  | S fuel' =>
      match space_len s with
      | O => s
      | k => TrimLeft_fuel fuel' (drop k s)
      end
  end.

Definition TrimLeftSpace (s : string) : string :=
  TrimLeft_fuel (String.length s) s.

(** [space_len_end s]: length of the white-space rune [s] ends with. A
    rune is decoded backwards from its last byte up to its first one, so
    [s] ends with such a rune exactly when one of its last three suffixes
    is one. *)
Definition space_len_end (s : string) : nat :=
  let n := String.length s in
  if (1 <=? n)%nat && (space_len (drop (n - 1) s) =? 1)%nat then 1%nat
  else if (2 <=? n)%nat && (space_len (drop (n - 2) s) =? 2)%nat then 2%nat
  else if (3 <=? n)%nat && (space_len (drop (n - 3) s) =? 3)%nat then 3%nat
  else 0%nat.

Fixpoint TrimRight_fuel (fuel : nat) (s : string) : string :=
  match fuel with
  | O => s
  | S fuel' =>
      match space_len_end s with
      | O => s
      | k => TrimRight_fuel fuel' (take (String.length s - k) s)
      end
  end.

Definition TrimRightSpace (s : string) : string :=
  TrimRight_fuel (String.length s) s.

(** [strings.TrimSpace]. *)
Definition TrimSpace (s : string) : string :=
  TrimRightSpace (TrimLeftSpace s).

End GoStrings.

(** ** Package [strconv] *)

Module GoStrconv.

Definition maxUint64 : Z := 2 ^ 64 - 1.
Definition maxInt64 : Z := 2 ^ 63 - 1.
Definition minInt64 : Z := - 2 ^ 63.

Definition digit_val (c : ascii) : option Z :=
  if is_digit c then Some (byte_code c - 48) else None.

(** The digit loop of [ParseUint(s, 10, 64)], with the value returned
    beside the error the callers drop: 0 on a syntax error, [maxUint64] as
    soon as the number leaves the range. *)
Fixpoint ParseUint_loop (s : string) (n : Z) : Z :=
  match s with
  | EmptyString => n
  | String c s' =>
      match digit_val c with
      | None => 0
      | Some d =>
          if n >=? maxUint64 / 10 + 1 then maxUint64
          else
            let n1 := n * 10 + d in
            if n1 >? maxUint64 then maxUint64
            else ParseUint_loop s' n1
      end
  end.

Definition ParseUint (s : string) : Z :=
  match s with
  | EmptyString => 0
  | _ => ParseUint_loop s 0
  end.

(** [ParseInt(s, 10, 64)]: an optional sign, then [ParseUint]; a value out
    of range is clamped (the range error is dropped by the callers), and a
    syntax error of [ParseUint] leaves 0, which the sign keeps at 0. *)
Definition ParseInt (s : string) : Z :=
  match s with
  | EmptyString => 0
  | String c s' =>
      let neg := byte_eqb c "-" in
      let digits := if byte_eqb c "+" || neg then s' else s in
      match digits with
      | EmptyString => 0
      | _ =>
          let un := ParseUint_loop digits 0 in
          if negb neg && (un >=? 2 ^ 63) then maxInt64
          else if neg && (un >? 2 ^ 63) then minInt64
          else if neg then - un else un
      end
  end.

(** [strconv.Atoi]: [ParseInt(s, 10, 0)] with an [int] of 64 bits; its fast
    path for short strings returns the same values. *)
Definition Atoi (s : string) : Z := ParseInt s.

End GoStrconv.

(** ** Package [fmt]: the verb [%d] *)

Module GoFmt.

Definition digit_char (d : Z) : ascii := ascii_of_N (Z.to_N (48 + d)).

(** The loop of [strconv.formatBits] in base 10: the digits of [u] are
    written from the last one, in front of [acc]. *)
Fixpoint digits_fuel (fuel : nat) (u : Z) (acc : string) : string :=
  match fuel with
  | O => acc
  | S fuel' =>
      let acc' := String (digit_char (u mod 10)) acc in
      if u <? 10 then acc' else digits_fuel fuel' (u / 10) acc'
  end.

(** A number has no more decimal digits than binary ones. *)
Definition FormatUint (u : Z) : string :=
  digits_fuel (S (Z.to_nat (Z.log2 u))) u EmptyString.

(** [fmt.Sprintf("%d", i)] for an integer of any width. *)
Definition FormatInt (i : Z) : string :=
  if i <? 0 then String "-" (FormatUint (- i)) else FormatUint i.

End GoFmt.

(** ** Package [regexp] *)

Module GoRegexp.

(** Regular expressions over bytes. Every class the package writes
    contains ASCII bytes only (or all of them), so matching bytes and
    matching runes agree. *)
Inductive re : Type :=
| Void
| Eps
| Cls (p : ascii -> bool)
| Cat (r1 r2 : re)
| Alt (r1 r2 : re)
| Star (r : re).

Fixpoint nullable (r : re) : bool :=
  match r with
  | Void => false
  | Eps => true
  | Cls _ => false
  | Cat r1 r2 => nullable r1 && nullable r2
  | Alt r1 r2 => nullable r1 || nullable r2
  | Star _ => true
  end.

(** Brzozowski derivative: what is left of [r] after reading [c]. *)
Fixpoint deriv (c : ascii) (r : re) : re :=
  match r with
  | Void => Void
  | Eps => Void
  | Cls p => if p c then Eps else Void
  | Cat r1 r2 =>
      if nullable r1 then Alt (Cat (deriv c r1) r2) (deriv c r2)
      else Cat (deriv c r1) r2
  | Alt r1 r2 => Alt (deriv c r1) (deriv c r2)
  | Star r1 => Cat (deriv c r1) (Star r1)
  end.

(** The whole of [s] is a word of [r]. *)
Fixpoint accepts (r : re) (s : string) : bool :=
  match s with
  | EmptyString => nullable r
  | String c s' => accepts (deriv c r) s'
  end.

Definition Any : re := Cls (fun _ => true).
Definition Byte (c : ascii) : re := Cls (byte_eqb c).
Definition Plus (r : re) : re := Cat r (Star r).
Definition Opt (r : re) : re := Alt Eps r.

Fixpoint Lit (s : string) : re :=
  match s with
  | EmptyString => Eps
  | String c s' => Cat (Byte c) (Lit s')
  end.

Fixpoint AltOf (rs : list re) : re :=
  match rs with
  | [] => Void
  | [r] => r
  | r :: rs' => Alt r (AltOf rs')
  end.

(** [r{n}] and [r{lo,hi}] (with [hi = lo + extra]). *)
Fixpoint Rep (n : nat) (r : re) : re :=
  match n with
  | O => Eps
  | S n' => Cat r (Rep n' r)
  end.

Fixpoint UpTo (n : nat) (r : re) : re :=
  match n with
  | O => Eps
  | S n' => Opt (Cat r (UpTo n' r))
  end.

Definition RepRange (lo extra : nat) (r : re) : re := Cat (Rep lo r) (UpTo extra r).

(** A compiled pattern: its body and whether it is anchored by [^] at the
    start and by [$] at the end. Without the flag [m], [^] and [$] match
    at the two ends of the text only. *)
Record Regexp : Type := Compile { bol : bool; body : re; eol : bool }.

(** [Regexp.MatchString]: some substring of [s] is a word of the body,
    starting at the start of [s] under [^] and ending at its end under
    [$]. *)
Definition search_re (p : Regexp) : re :=
  Cat (if bol p then Eps else Star Any)
      (Cat (body p) (if eol p then Eps else Star Any)).

Definition MatchString (p : Regexp) (s : string) : bool :=
  accepts (search_re p) s.

End GoRegexp.

(** ** Values, records and reports *)

(** [mime/multipart.FileHeader]: the size it declares, whether [Open]
    succeeds, and the bytes [io.ReadAll] then reads. *)
Record FileHeader : Type := {
  Size : Z;
  opens : bool;
  content : string
}.

(** [reflect.Kind], as far as the package tells kinds apart. *)
Inductive Kind : Type :=
| KInvalid | KBool | KInt | KUint | KFloat | KString
| KSlice | KMap | KPointer | KInterface | KOther.

(** A reference is a pointer or an interface. *)
Inductive RefKind : Type := Pointer | Interface.

Definition ref_kind (k : RefKind) : Kind :=
  match k with Pointer => KPointer | Interface => KInterface end.

(** The type of a nil reference: a pointer to a struct type, whose tags
    [ValidateStruct] reads even under a nil pointer ([multipart.FileHeader]
    is such a type, with no tag); a pointer to another type; or none, for a
    nil interface. *)
Inductive pointee : Type :=
| PStruct (tags : list (option string * option string))
| PNonStruct
| PUntyped.

(** A [reflect.Value], with the name of its type ([ty], as [Type.String]
    prints it) where the package can observe it. Signed and unsigned
    integers of every width are [VInt] and [VUint]; slices and arrays are
    [VSlice]. A pointer, or an interface ([k] tells which), is one of the
    following, by what [Value.Interface] returns:
    - [VNilRef]: a nil pointer, or the nil interface under [PUntyped];
    - [VFile]: a non-nil [*multipart.FileHeader];
    - [VFiles]: an interface holding a [[]*multipart.FileHeader];
    - [VStructRef]: a non-nil pointer to a struct, with its fields;
    - [VBadPtr]: a non-nil pointer to something that is not a struct;
    - [VBoxed]: an interface holding a value that is not a pointer.
    An interface that holds a typed nil pointer is not modelled, and every
    tagged field is taken to be exported. A struct is the list of its
    fields: the tags of [reflect.StructField] and the field's value. *)
Inductive value : Type :=
| VInvalid
| VBool (ty : string) (b : bool)
| VInt (ty : string) (i : Z)
| VUint (ty : string) (u : Z)
| VFloat (ty : string) (f : float)
| VString (ty : string) (s : string)
| VSlice (ty : string) (elemKind : Kind) (elems : list value)
| VMap (ty : string) (len : nat)
| VNilRef (ty : string) (to : pointee)
| VFile (ty : string) (k : RefKind) (fh : FileHeader)
| VFiles (ty : string) (fhs : list FileHeader)
| VStructRef (ty : string) (k : RefKind) (fields : list StructField)
| VBadPtr (ty : string) (k : RefKind)
| VBoxed (ty : string)
| VOther (ty : string) (is_zero : bool)
with StructField : Type :=
| Field (json : option string) (validate : option string) (fvalue : value).

Definition json_tag (f : StructField) : option string :=
  match f with Field j _ _ => j end.
Definition validate_tag (f : StructField) : option string :=
  match f with Field _ r _ => r end.
Definition field_value (f : StructField) : value :=
  match f with Field _ _ v => v end.

(** [StructTag.Get]: the empty string when the key is absent. *)
Definition Tag_Get (t : option string) : string := default "" t.

(** The payload of a message, a Go [any]: a string, a nested report or the
    list of element outcomes of a slice. *)
Inductive any : Type :=
| ANil
| AStr (s : string)
| AMap (m : gmap string any)
| AList (l : list any).

Record message : Type := Msg { K : string; V : any }.

(** A [map[string]any] returned by the package: [None] is the nil map. *)
Abbreviation report := (option (gmap string any)).

(** [x != "" && x != nil] on an [any]. *)
Definition shown (x : any) : bool :=
  match x with
  | ANil => false
  | AStr EmptyString => false
  | _ => true
  end.

Module Reflect.

Definition Kind_of (v : value) : Kind :=
  match v with
  | VInvalid => KInvalid
  | VBool _ _ => KBool
  | VInt _ _ => KInt
  | VUint _ _ => KUint
  | VFloat _ _ => KFloat
  | VString _ _ => KString
  | VSlice _ _ _ => KSlice
  | VMap _ _ => KMap
  | VNilRef _ PUntyped => KInterface
  | VNilRef _ _ => KPointer
  | VFile _ k _ | VStructRef _ k _ | VBadPtr _ k => ref_kind k
  | VFiles _ _ | VBoxed _ => KInterface
  | VOther _ _ => KOther
  end.

Definition type_name (v : value) : string :=
  match v with
  | VInvalid => "invalid"
  | VBool ty _ | VInt ty _ | VUint ty _ | VFloat ty _ | VString ty _
  | VSlice ty _ _ | VMap ty _ | VNilRef ty _ | VFile ty _ _
  | VFiles ty _ | VStructRef ty _ _ | VBadPtr ty _ | VBoxed ty | VOther ty _ => ty
  end.

(** [Value.String]: the string itself for a string, and for any other
    kind the type between angle brackets; the zero Value prints as the
    literal below. *)
Definition String_ (v : value) : string :=
  match v with
  | VString _ s => s
  | VInvalid => "<invalid Value>"
  | _ => "<" +:+ type_name v +:+ " Value>"
  end.

(** [Value.Len] for the kinds that have one. *)
Definition Len (v : value) : Z :=
  match v with
  | VString _ s => Z.of_nat (String.length s)
  | VSlice _ _ l => Z.of_nat (length l)
  | VMap _ n => Z.of_nat n
  | _ => 0
  end.

End Reflect.

(** ** Panics and the message channel *)

Inductive res (A : Type) : Type :=
| Ok (a : A)
| Panic (detail : string).
Arguments Ok {A} a.
Arguments Panic {A} detail.

(** A computation that sends messages: the messages sent, oldest first, and
    how it ended. *)
Definition M (A : Type) : Type := (list message * res A)%type.

Definition M_ret {A : Type} (a : A) : M A := ([], Ok a).

Definition M_bind {A B : Type} (m : M A) (f : A -> M B) : M B :=
  match m with
  | (w, Ok a) => let '(w', r) := f a in (w ++ w', r)
  | (w, Panic d) => (w, Panic d)
  end.

Notation "x <- m ;; k" := (M_bind m (fun x => k))
  (at level 100, m at next level, right associativity).

(** [msgChan <- m]. *)
Definition send (m : message) : M unit := ([m], Ok tt).

Definition lift {A : Type} (r : res A) : M A := ([], r).

(** [l[i]] with its bounds check. *)
Definition index (l : list string) (i : nat) : res string :=
  match l !! i with
  | Some x => Ok x
  | None =>
      Panic ("runtime error: index out of range [" +:+ GoFmt.FormatInt (Z.of_nat i)
             +:+ "] with length " +:+ GoFmt.FormatInt (Z.of_nat (length l)))
  end.

(** ** The collaborators outside the package *)

(** Database configuration. *)
Record Database : Type := {
  Host : string;
  Port : Z;
  Name : string;
  Username : string;
  Password : string;
  Driver : string;
  SSLMode : string
}.

(** An entry of a locale table ([map[string]any]): a template, or the
    templates of a category such as "min". *)
Inductive locale_entry : Type :=
| Template (t : string)
| Category (sub : gmap string string).

Inductive Layout : Type := RFC3339 | DateTime | DateOnly | TimeOnly.

Inductive query_result : Type :=
| Row
| ErrNoRows
| QueryError (detail : string).

(** What the package calls and does not define: the tables of package
    [locale], and functions of [fmt], [time], [net/mail], [strconv],
    [mimetype] and [database/sql]. *)
Class Env : Type := {
  (** [locale.EN] and [locale.FR] *)
  locale_EN : gmap string locale_entry;
  locale_FR : gmap string locale_entry;
  (** [fmt.Sprintf(format, operands...)] on string operands *)
  Sprintf : string -> list string -> string;
  (** [fmt.Sprintf(verb, v.Interface())] where the verb does not render an
      integer: "%.2f", and "%d" on an operand that is not an integer *)
  Sprintf_value : string -> value -> string;
  (** [time.Parse(layout, s)] returns no error *)
  time_Parse : Layout -> string -> bool;
  (** [mail.ParseAddress(s)] returns no error *)
  mail_ParseAddress : string -> bool;
  (** [strconv.ParseFloat(s, 64)], the value beside the dropped error *)
  ParseFloat : string -> float;
  (** [mimetype.Detect(buffer).Extension()] *)
  mimetype_Extension : string -> string;
  (** [mimetype.EqualsAny(s, mimes...)] *)
  mimetype_EqualsAny : string -> list string -> bool;
  (** [sql.Open(driver, dsn)]: the error, if any *)
  sql_Open : string -> string -> option string;
  (** [db.QueryRow(query, arg).Scan(..)] on the database of a configuration *)
  sql_QueryRow : Database -> string -> string -> query_result
}.

(** ** rule.go: the predicate library *)

Section Rules.

Context `{E : Env}.

Import GoRegexp.

Definition isEmpty (v : value) : bool :=
  match v with
  | VString _ s => (String.length s =? 0)%nat
  | VSlice _ _ l => (length l =? 0)%nat
  | VMap _ n => (n =? 0)%nat
  | VBool _ b => negb b
  | VInt _ i => i =? 0
  | VUint _ u => u =? 0
  | VFloat _ f => PrimFloat.eqb f 0%float
  | VNilRef _ _ => true
  | VFile _ _ _ | VFiles _ _ | VStructRef _ _ _ | VBadPtr _ _ | VBoxed _ => false
  | VOther _ z => z
  | VInvalid => true
  end.

(** [fmt.Sprintf("%d", v.Interface())]. *)
Definition Sprintf_d (v : value) : string :=
  match v with
  | VInt _ i | VUint _ i => GoFmt.FormatInt i
  | _ => Sprintf_value "%d" v
  end.

Definition digit : re := Cls is_digit.

(** The pattern of [isNotInt]: between "^" and "$", an optional "-" and then
    either "0" or "[1-9]" followed by "[0-9]" any number of times. *)
Definition rgx_int : Regexp :=
  Compile true
    (Cat (Opt (Byte "-")) (Alt (Byte "0") (Cat (Cls is_digit19) (Star digit))))
    true.
Definition isNotInt (v : value) : bool :=
  negb (MatchString rgx_int (Sprintf_d v)).

(** The pattern "^[1-9]\d+$". *)
Definition rgx_uint : Regexp := Compile true (Cat (Cls is_digit19) (Plus digit)) true.
Definition isNotUint (v : value) : bool :=
  negb (MatchString rgx_uint (Sprintf_d v)).

(** The pattern "^[-+]?[0-9]*\.?[0-9]+([eE][-+]?[0-9]+)?$". *)
Definition sign : re := Cls (fun c => byte_eqb c "-" || byte_eqb c "+").
Definition rgx_float : Regexp :=
  Compile true
    (Cat (Opt sign)
       (Cat (Star digit)
          (Cat (Opt (Byte "."))
             (Cat (Plus digit)
                (Opt (Cat (Cls (fun c => byte_eqb c "e" || byte_eqb c "E"))
                        (Cat (Opt sign) (Plus digit))))))))
    true.
Definition isNotFloat (v : value) : bool :=
  negb (MatchString rgx_float (Sprintf_value "%.2f" v)).

(** The pattern "^[a-zA-Z]+$". *)
Definition rgx_alpha : Regexp := Compile true (Plus (Cls is_alpha)) true.
Definition isNotAlpha (v : value) : bool :=
  negb (MatchString rgx_alpha (Reflect.String_ v)).

(** The pattern "^[a-zA-Z0-9]+$". *)
Definition rgx_alphanumeric : Regexp := Compile true (Plus (Cls is_alnum)) true.
Definition isNotAlphanumeric (v : value) : bool :=
  negb (MatchString rgx_alphanumeric (Reflect.String_ v)).

(** The pattern "^[0-9]+$". *)
Definition rgx_numeric : Regexp := Compile true (Plus digit) true.
Definition isNotNumeric (v : value) : bool :=
  negb (MatchString rgx_numeric (Reflect.String_ v)).

(** The pattern "^[0-9a-zA-Z-+ .]+$"; the hyphen after a range is a plain member of the class. *)
Definition rgx_string : Regexp :=
  Compile true
    (Plus (Cls (fun c => is_alnum c || byte_eqb c "-" || byte_eqb c "+"
                         || byte_eqb c " " || byte_eqb c ".")))
    true.
Definition isNotString (v : value) : bool :=
  negb (MatchString rgx_string (Reflect.String_ v)).

Definition isNotSame (v1 v2 : value) : bool :=
  negb (String.eqb (GoStrings.TrimSpace (Reflect.String_ v1))
                   (GoStrings.TrimSpace (Reflect.String_ v2))).

(** The pattern "[\x00-\x7F]+", which has no anchor. *)
Definition rgx_ascii : Regexp := Compile false (Plus (Cls is_ascii_byte)) false.
Definition isNotASCII (v : value) : bool :=
  negb (MatchString rgx_ascii (Reflect.String_ v)).

Definition isNotEmail (v : value) : bool :=
  let s := Reflect.String_ v in
  let len := Z.of_nat (String.length s) in
  if (len <? 6) || (len >? 254) then true
  else
    let at_ := GoStrings.LastIndex s "@" in
    if (at_ <=? 0) || (at_ >? len - 3) then true
    else
      let domain := GoStrings.drop (Z.to_nat (at_ + 1)) s in
      if String.eqb domain "localhost" || String.eqb domain "localhost.com"
         || String.eqb domain "example.com" then true
      else if Z.of_nat (String.length (GoStrings.take (Z.to_nat at_) s)) >? 64 then true
      else if negb (mail_ParseAddress s) then true
      else false.

(** The pattern "^0\d{9}$". *)
Definition rgx_phone : Regexp := Compile true (Cat (Byte "0") (Rep 9 digit)) true.
Definition isNotPhone (v : value) : bool :=
  negb (MatchString rgx_phone (Reflect.String_ v)).

(** The calling codes of the pattern of [isNotPhoneWithCode], in its order. *)
Definition calling_codes : list string :=
  ["999"; "998"; "997"; "996"; "995"; "994"; "993"; "992"; "991"; "990";
   "979"; "978"; "977"; "976"; "975"; "974"; "973"; "972"; "971"; "970";
   "969"; "968"; "967"; "966"; "965"; "964"; "963"; "962"; "961"; "960";
   "899"; "898"; "897"; "896"; "895"; "894"; "893"; "892"; "891"; "890";
   "889"; "888"; "887"; "886"; "885"; "884"; "883"; "882"; "881"; "880";
   "879"; "878"; "877"; "876"; "875"; "874"; "873"; "872"; "871"; "870";
   "859"; "858"; "857"; "856"; "855"; "854"; "853"; "852"; "851"; "850";
   "839"; "838"; "837"; "836"; "835"; "834"; "833"; "832"; "831"; "830";
   "809"; "808"; "807"; "806"; "805"; "804"; "803"; "802"; "801"; "800";
   "699"; "698"; "697"; "696"; "695"; "694"; "693"; "692"; "691"; "690";
   "689"; "688"; "687"; "686"; "685"; "684"; "683"; "682"; "681"; "680";
   "679"; "678"; "677"; "676"; "675"; "674"; "673"; "672"; "671"; "670";
   "599"; "598"; "597"; "596"; "595"; "594"; "593"; "592"; "591"; "590";
   "509"; "508"; "507"; "506"; "505"; "504"; "503"; "502"; "501"; "500";
   "429"; "428"; "427"; "426"; "425"; "424"; "423"; "422"; "421"; "420";
   "389"; "388"; "387"; "386"; "385"; "384"; "383"; "382"; "381"; "380";
   "379"; "378"; "377"; "376"; "375"; "374"; "373"; "372"; "371"; "370";
   "359"; "358"; "357"; "356"; "355"; "354"; "353"; "352"; "351"; "350";
   "299"; "298"; "297"; "296"; "295"; "294"; "293"; "292"; "291"; "290";
   "289"; "288"; "287"; "286"; "285"; "284"; "283"; "282"; "281"; "280";
   "269"; "268"; "267"; "266"; "265"; "264"; "263"; "262"; "261"; "260";
   "259"; "258"; "257"; "256"; "255"; "254"; "253"; "252"; "251"; "250";
   "249"; "248"; "247"; "246"; "245"; "244"; "243"; "242"; "241"; "240";
   "239"; "238"; "237"; "236"; "235"; "234"; "233"; "232"; "231"; "230";
   "229"; "228"; "227"; "226"; "225"; "224"; "223"; "222"; "221"; "220";
   "219"; "218"; "217"; "216"; "215"; "214"; "213"; "212"; "211"; "210";
   "98"; "95"; "94"; "93"; "92"; "91"; "90"; "86"; "84"; "82"; "81"; "66";
   "65"; "64"; "63"; "62"; "61"; "60"; "58"; "57"; "56"; "55"; "54"; "53";
   "52"; "51"; "49"; "48"; "47"; "46"; "45"; "44"; "43"; "41"; "40"; "39";
   "36"; "34"; "33"; "32"; "31"; "30"; "27"; "20"; "7"; "1"].

(** The pattern "^\+(999|998|...|7|1)[0-9]{1,14}$". *)
Definition rgx_phone_with_code : Regexp :=
  Compile true
    (Cat (Byte "+") (Cat (AltOf (map Lit calling_codes)) (RepRange 1 13 digit)))
    true.
Definition isNotPhoneWithCode (v : value) : bool :=
  negb (MatchString rgx_phone_with_code (Reflect.String_ v)).

Definition isNotUsername (v : value) : bool :=
  if GoStrings.Contains (Reflect.String_ v) "@" then isNotEmail v
  else if GoStrings.HasPrefix (Reflect.String_ v) "+" then isNotPhoneWithCode v
  else isNotPhone v.

(** The pattern "^GHA-\d{9}-\d{1}$". *)
Definition rgx_gh_card : Regexp :=
  Compile true (Cat (Lit "GHA-") (Cat (Rep 9 digit) (Cat (Byte "-") (Rep 1 digit)))) true.
Definition isNotGHCard (v : value) : bool :=
  negb (MatchString rgx_gh_card (Reflect.String_ v)).

(** The pattern "[A-Z]{2}-\d{1,4}-\d{4}$", anchored at the end only. *)
Definition rgx_gh_gps : Regexp :=
  Compile false
    (Cat (Rep 2 (Cls is_upper))
       (Cat (Byte "-") (Cat (RepRange 1 3 digit) (Cat (Byte "-") (Rep 4 digit)))))
    true.
Definition isNotGHGPS (v : value) : bool :=
  negb (MatchString rgx_gh_gps (Reflect.String_ v)).

Definition isNotMin (v : value) (comparable : string) : bool :=
  match v with
  | VString _ _ | VSlice _ _ _ | VMap _ _ =>
      Reflect.Len v <? GoStrconv.Atoi comparable
  | VInt _ i => i <? GoStrconv.ParseInt comparable
  | VUint _ u => u <? GoStrconv.ParseUint comparable
  | VFloat _ f => negb (PrimFloat.leb (ParseFloat comparable) f)
  | _ => false
  end.

Definition isNotMax (v : value) (comparable : string) : bool :=
  match v with
  | VString _ _ | VSlice _ _ _ | VMap _ _ =>
      Reflect.Len v >? GoStrconv.Atoi comparable
  | VInt _ i => i >? GoStrconv.ParseInt comparable
  | VUint _ u => u >? GoStrconv.ParseUint comparable
  | VFloat _ f => negb (PrimFloat.leb f (ParseFloat comparable))
  | _ => false
  end.

Definition isNotEqual (v : value) (comparable : string) : bool :=
  match v with
  | VString _ _ | VSlice _ _ _ | VMap _ _ =>
      negb (Reflect.Len v =? GoStrconv.Atoi comparable)
  | VInt _ i => negb (i =? GoStrconv.ParseInt comparable)
  | VUint _ u => negb (u =? GoStrconv.ParseUint comparable)
  | VFloat _ f => negb (PrimFloat.eqb f (ParseFloat comparable))
  | _ => false
  end.

Definition isNotBetween (v : value) (min max : string) : bool :=
  match v with
  | VString _ _ | VSlice _ _ _ | VMap _ _ =>
      (Reflect.Len v <=? GoStrconv.Atoi min) || (Reflect.Len v >=? GoStrconv.Atoi max)
  | VInt _ i =>
      (i <=? GoStrconv.ParseInt min) || (i >=? GoStrconv.ParseInt max)
  | VUint _ u =>
      (u <=? GoStrconv.ParseUint min) || (u >=? GoStrconv.ParseUint max)
  | VFloat _ f =>
      negb (PrimFloat.ltb (ParseFloat min) f && PrimFloat.ltb f (ParseFloat max))
  | _ => false
  end.

(** [v.Interface().(string)]: the assertion holds for the type [string]
    itself, not for a type defined from it, and panics otherwise. *)
Definition assert_string (v : value) : res string :=
  match v with
  | VString "string" s => Ok s
  | _ => Panic ("interface conversion: interface {} is " +:+ Reflect.type_name v
                +:+ ", not string")
  end.

Definition isNotEnum (v : value) (eunms : list string) : res bool :=
  match assert_string v with
  | Ok s => Ok (negb (existsb (String.eqb s) eunms))
  | Panic d => Panic d
  end.

Definition isNotFrom (v : value) (min max : string) : bool :=
  match v with
  | VString _ _ | VSlice _ _ _ | VMap _ _ =>
      (Reflect.Len v <? GoStrconv.Atoi min) || (Reflect.Len v >? GoStrconv.Atoi max)
  | VInt _ i =>
      (i <? GoStrconv.ParseInt min) || (i >? GoStrconv.ParseInt max)
  | VUint _ u =>
      (u <? GoStrconv.ParseUint min) || (u >? GoStrconv.ParseUint max)
  | VFloat _ f =>
      negb (PrimFloat.leb (ParseFloat min) f && PrimFloat.leb f (ParseFloat max))
  | _ => false
  end.

Definition isNotSize (v : value) (comparable : string) : bool :=
  match v with
  | VString _ _ | VSlice _ _ _ | VMap _ _ =>
      negb (Reflect.Len v =? GoStrconv.Atoi comparable)
  | VInt _ i => negb (i =? GoStrconv.ParseInt comparable)
  | VUint _ u => negb (u =? GoStrconv.ParseUint comparable)
  | VFloat _ f => negb (PrimFloat.eqb f (ParseFloat comparable))
  | _ => false
  end.

(** [readFile]: the bytes of the file, unless it does not open. *)
Definition readFile (fh : FileHeader) : option string :=
  if opens fh then Some (content fh) else None.

Definition prepareMimes (mimes : string) : list string :=
  map (fun m => "." +:+ m) (GoStrings.Split mimes ",").

Definition not_file_list (v : value) : string :=
  "interface conversion: interface {} is " +:+ Reflect.type_name v
  +:+ ", not []*multipart.FileHeader".

Definition unreadable (fh : FileHeader) : bool :=
  match readFile fh with Some _ => false | None => true end.

Definition isNotFile (v : value) : res bool :=
  match v with
  | VFile _ _ fh => Ok (unreadable fh)
  | VFiles _ fhs => Ok (existsb unreadable fhs)
  | _ => Panic (not_file_list v)
  end.

Definition wrong_mime (mimes : string) (fh : FileHeader) : bool :=
  match readFile fh with
  | None => true
  | Some buffer => negb (mimetype_EqualsAny (mimetype_Extension buffer) (prepareMimes mimes))
  end.

Definition isNotMimes (v : value) (mimes : string) : res bool :=
  match v with
  | VFile _ _ fh => Ok (wrong_mime mimes fh)
  | VFiles _ fhs => Ok (existsb (wrong_mime mimes) fhs)
  | _ => Panic (not_file_list v)
  end.

(** [snakeCase], byte by byte; on valid UTF-8 the bytes of a rune past
    ASCII are all at least 'a' and are written as they are. A byte below
    'a' is shifted by 32, and [WriteRune] writes the one result that leaves
    ASCII, U+0080, on two bytes. *)
Fixpoint snakeCase_from (prev : option ascii) (first : bool) (s : string) : string :=
  match s with
  | EmptyString => EmptyString
  | String c s' =>
      if 97 <=? byte_code c then String c (snakeCase_from (Some c) false s')
      else
        let last := match s' with EmptyString => true | _ => false end in
        let prev_lower := match prev with Some p => 97 <=? byte_code p | None => false end in
        let next_lower := match s' with String n _ => 97 <=? byte_code n | _ => false end in
        let under :=
          (negb first || last) && ((negb first && prev_lower) || (negb last && next_lower)) in
        let shifted :=
          if byte_code c + 32 <? 128 then String (ascii_of_N (N_of_ascii c + 32)) EmptyString
          else String (ascii_of_N 194) (String (ascii_of_N 128) EmptyString) in
        let out := shifted +:+ snakeCase_from (Some c) false s' in
        if under then String "_" out else out
  end.

Definition snakeCase (camel : string) : string := snakeCase_from None true camel.

Definition DriverPostgres : string := "postgres".
Definition DriverMysql : string := "mysql".

(** [connectDB]: the configuration of the opened database, or the panic. *)
Definition connectDB (config : option Database) : res Database :=
  match config with
  | None => Panic "runtime error: invalid memory address or nil pointer dereference"
  | Some c =>
      if String.eqb (Driver c) DriverPostgres then
        let SSLMode_ := if String.eqb (SSLMode c) "" then "disable" else SSLMode c in
        let dsn := "host=" +:+ Host c +:+ " port=" +:+ GoFmt.FormatInt (Port c)
                   +:+ " user=" +:+ Username c +:+ " password=" +:+ Password c
                   +:+ " dbname=" +:+ Name c +:+ " sslmode=" +:+ SSLMode_ in
        match sql_Open (Driver c) dsn with
        | Some err => Panic ("[db connection error] " +:+ err)
        | None => Ok c
        end
      else if String.eqb (Driver c) DriverMysql then
        let dsn := Username c +:+ ":" +:+ Password c +:+ "@tcp(" +:+ Host c +:+ ":"
                   +:+ GoFmt.FormatInt (Port c) +:+ ")/" +:+ Name c in
        match sql_Open (Driver c) dsn with
        | Some err => Panic ("[db connection error] " +:+ err)
        | None => Ok c
        end
      else
        Panic ("[db connection error]: provide db driver. validata currently support "
               +:+ DriverMysql +:+ " and " +:+ DriverPostgres +:+ " drivers.")
  end.

Definition isNotUnique (dbConfig : option Database) (value_ field table : string) : res bool :=
  match connectDB dbConfig with
  | Panic d => Panic d
  | Ok db =>
      let dbField := snakeCase field in
      let queryStr :=
        if String.eqb (Driver db) DriverPostgres
        then "SELECT 1 FROM " +:+ table +:+ " WHERE " +:+ dbField +:+ "=$1"
        else "SELECT " +:+ dbField +:+ " FROM " +:+ table +:+ " WHERE " +:+ dbField +:+ "=?" in
      match sql_QueryRow db queryStr value_ with
      | ErrNoRows => Ok false
      | QueryError d => Panic d
      | Row => Ok true
      end
  end.

Definition isNotDatetime (v : value) (kind : string) : res bool :=
  if String.eqb kind "rfc3339" then Ok (negb (time_Parse RFC3339 (Reflect.String_ v)))
  else if String.eqb kind "datetime" then Ok (negb (time_Parse DateTime (Reflect.String_ v)))
  else if String.eqb kind "dateonly" then Ok (negb (time_Parse DateOnly (Reflect.String_ v)))
  else if String.eqb kind "timeonly" then Ok (negb (time_Parse TimeOnly (Reflect.String_ v)))
  else Panic ("date format not supported: " +:+ kind).

End Rules.

(** ** validation.go: messages *)

Definition kilobyte : Z := 1024.
Definition megabyte : Z := kilobyte * 1024.
Definition gigabyte : Z := megabyte * 1024.

(** Arithmetic on [int64] wraps around. *)
Definition wrap64 (z : Z) : Z := (z + 2 ^ 63) mod 2 ^ 64 - 2 ^ 63.

(** The receiver [*validation]: the struct under validation (the fields of
    [elemType] with the values of [elemValue]; [elemZero] when [elemValue] is
    the zero Value, as under a nil pointer), the locale and the database. *)
Record validation : Type := {
  elem : list StructField;
  elemZero : bool;
  locale : string;
  dbConfig : option Database
}.

Definition getRuleAndMsg (r : string) : string * string :=
  if GoStrings.Contains r ">" then
    match GoStrings.SplitN r ">" 2 with
    | [rule; customMsg] => (rule, customMsg)
    | _ => (r, "")
    end
  else (r, "").

(** [formatFieldName], with [text] the label built so far. *)
Fixpoint formatFieldName_from (text field : string) : string :=
  match field with
  | EmptyString => text
  | String b field' =>
      let c := String b EmptyString in
      let text' :=
        if String.eqb c (GoStrings.ToUpper1 b) then
          (if (String.length text =? 0)%nat then text else text +:+ " ")
          +:+ GoStrings.ToLower1 b
        else text +:+ GoStrings.ToLower1 b in
      formatFieldName_from text' field'
  end.

Definition formatFieldName (field : string) : string :=
  formatFieldName_from "" field.

Section Messages.

Context `{E : Env}.

Definition getMessage (v : validation) (rule : string) : string :=
  let message :=
    if String.eqb (GoStrings.ToLower (locale v)) "fr" then locale_FR else locale_EN in
  if GoStrings.Contains rule "." then
    match GoStrings.SplitN rule "." 2 with
    | [k0; k1] =>
        match message !! k0 with
        | Some (Category m) =>
            match m !! k1 with
            | Some msg => msg
            | None => rule
            end
        | _ => rule
        end
    | _ => rule
    end
  else
    match message !! rule with
    | Some (Template msg) => msg
    | _ => rule
    end.

(** The text both [setMessage] and [generateMessage] build when the rule
    carries no message of its own: the template of the rule, filled with
    the field label and at most two parameters of the rule. *)
Definition render (v : validation) (ruleKey field : string) (values : list string) : string :=
  let msg := getMessage v ruleKey in
  match values with
  | [] => Sprintf msg [field]
  | [v0] => Sprintf msg [field; v0]
  | v0 :: v1 :: _ => Sprintf msg [field; v0; v1]
  end.

Definition setMessage (v : validation) (ruleKey : string) (customMsg : any)
    (msgKey field : string) (values : list string) : M unit :=
  if String.eqb ruleKey "empty" then send (Msg msgKey customMsg)
  else if shown customMsg then send (Msg msgKey customMsg)
  else send (Msg msgKey (AStr (render v ruleKey field values))).

Definition generateMessage (v : validation) (ruleKey : string) (customMsg : any)
    (field : string) (values : list string) : any :=
  if String.eqb ruleKey "empty" then AStr ""
  else if shown customMsg then customMsg
  else AStr (render v ruleKey field values).

End Messages.

(** ** validation.go: the dispatchers *)

(** [Config] and [New]: the locale defaults to "en". *)
Record Config : Type := { Locale : string; DB : option Database }.

Definition New (config : option Config) : validation :=
  match config with
  | Some c =>
      {| elem := []; elemZero := false;
         locale := if String.eqb (Locale c) "" then "en" else Locale c;
         dbConfig := DB c |}
  | None => {| elem := []; elemZero := false; locale := "en"; dbConfig := None |}
  end.

(** ["^([1-9]|[1-9][0-9]+)(kb|KB|mb|MB|gb|GB|tb|TB)$"], group by group. *)
Definition fileSize_amount : GoRegexp.re :=
  GoRegexp.Alt (GoRegexp.Cls is_digit19)
    (GoRegexp.Cat (GoRegexp.Cls is_digit19) (GoRegexp.Plus (GoRegexp.Cls is_digit))).

Definition fileSize_unit : GoRegexp.re :=
  GoRegexp.AltOf (map GoRegexp.Lit ["kb"; "KB"; "mb"; "MB"; "gb"; "GB"; "tb"; "TB"]).

Definition fileSizeRegex : GoRegexp.Regexp :=
  GoRegexp.Compile true (GoRegexp.Cat fileSize_amount fileSize_unit) true.

(** [fileSizeRegex.FindAllStringSubmatch(s, -1)]: the pattern is anchored at
    both ends, so there is at most one match, the whole of [s]; its second
    group is two bytes long, so the first group is what stands before the
    last two bytes. [None] is the empty list of matches. *)
Definition fileSize_submatch (s : string) : option (string * string) :=
  if GoRegexp.MatchString fileSizeRegex s then
    let n := (String.length s - 2)%nat in
    Some (GoStrings.take n s, GoStrings.drop n s)
  else None.

(** The limit in bytes of a size rule and the key of its message: the
    [switch] on the lowered unit has no case for "tb". *)
Definition size_limit (size symbol : string) : Z * string :=
  let size64 := GoStrconv.ParseInt size in
  let unit := GoStrings.ToLower symbol in
  if String.eqb unit "kb" then (wrap64 (kilobyte * size64), "size.file_kb")
  else if String.eqb unit "mb" then (wrap64 (megabyte * size64), "size.file_mb")
  else if String.eqb unit "gb" then (wrap64 (gigabyte * size64), "size.file_gb")
  else (0, "").

(** The type assertions of [x] to a pointer to [multipart.FileHeader] and to
    a slice of such pointers, in their form with [ok]. *)
Definition as_FileHeader (x : value) : option FileHeader :=
  match x with VFile _ _ fh => Some fh | _ => None end.
Definition as_FileHeaders (x : value) : option (list FileHeader) :=
  match x with VFiles _ fhs => Some fhs | _ => None end.

Definition error_report (text : string) : report :=
  Some {[ "error" := AStr text ]}.

Section Engine.

Context `{E : Env}.

(** The recursive call [New(&Config{..}).ValidateStruct(x)] of
    [validatePointer] and [validateSlice]; [ValidateStruct] below closes
    the recursion. *)
Variable ValidateStruct_rec : validation -> value -> report.

Definition nested (v : validation) (x : value) : report :=
  ValidateStruct_rec (New (Some {| Locale := locale v; DB := dbConfig v |})) x.

(** [if cond { v.setMessage(..); return true }], then [return false]. *)
Definition violation (cond : bool) (set : M unit) : M bool :=
  if cond then (_ <- set ;; M_ret true) else M_ret false.

(** [getTagAndValue]. It runs after [validateStruct] has read its own
    field, so [elemValue] is not the zero Value. *)
Fixpoint getTagAndValue_in (fields : list StructField) (lookupTag : string)
    : string * value :=
  match fields with
  | [] => ("", VInvalid)
  | f :: rest =>
      match json_tag f with
      | Some t =>
          if String.eqb t lookupTag then (t, field_value f)
          else getTagAndValue_in rest lookupTag
      | None => getTagAndValue_in rest lookupTag
      end
  end.

Definition getTagAndValue (v : validation) (lookupTag : string) : string * value :=
  getTagAndValue_in (elem v) lookupTag.

Definition validateStringParams (v : validation) (value_ : value)
    (rule customMsg jsonTag formattedField : string) : M bool :=
  let set key values := setMessage v key (AStr customMsg) jsonTag formattedField values in
  let rSlice := GoStrings.SplitN rule ":" 2 in
  r0 <- lift (index rSlice 0) ;;
  if String.eqb r0 "min" then
    r1 <- lift (index rSlice 1) ;;
    violation (isNotMin value_ r1) (set "min.string" [r1])
  else if String.eqb r0 "max" then
    r1 <- lift (index rSlice 1) ;;
    violation (isNotMax value_ r1) (set "max.string" [r1])
  else if String.eqb r0 "equal" then
    r1 <- lift (index rSlice 1) ;;
    violation (isNotEqual value_ r1) (set "equal.string" [r1])
  else if String.eqb r0 "size" then
    r1 <- lift (index rSlice 1) ;;
    violation (isNotSize value_ r1) (set "size.string" [r1])
  else if String.eqb r0 "from" then
    r1 <- lift (index rSlice 1) ;;
    let minMax := GoStrings.SplitN r1 "," 2 in
    m0 <- lift (index minMax 0) ;;
    m1 <- lift (index minMax 1) ;;
    violation (isNotFrom value_ m0 m1) (set "from.string" [m0; m1])
  else if String.eqb r0 "between" then
    r1 <- lift (index rSlice 1) ;;
    let minMax := GoStrings.SplitN r1 "," 2 in
    m0 <- lift (index minMax 0) ;;
    m1 <- lift (index minMax 1) ;;
    violation (isNotBetween value_ m0 m1) (set "between.string" [m0; m1])
  else if String.eqb r0 "enum" then
    r1 <- lift (index rSlice 1) ;;
    let enums := GoStrings.Split r1 "," in
    b <- lift (isNotEnum value_ enums) ;;
    violation b (set "enum" [r1])
  else if String.eqb r0 "same" then
    r1 <- lift (index rSlice 1) ;;
    let '(tag, val) := getTagAndValue v r1 in
    violation (isNotSame value_ val) (set "same" [tag])
  else if String.eqb r0 "match" then
    r1 <- lift (index rSlice 1) ;;
    let '(_, val) := getTagAndValue v r1 in
    violation (isNotSame value_ val) (set "match" [])
  else if String.eqb r0 "unique" then
    r1 <- lift (index rSlice 1) ;;
    match GoStrings.SplitN r1 "." 2 with
    | [table; column] =>
        b <- lift (isNotUnique (dbConfig v) (Reflect.String_ value_) column table) ;;
        violation b (set "unique" [])
    | _ => M_ret false
    end
  else M_ret false.

Definition validateString (v : validation) (value_ : value)
    (rule customMsg jsonTag formattedField : string) : M bool :=
  let set key := setMessage v key (AStr customMsg) jsonTag formattedField [] in
  if String.eqb rule "string" then violation (isNotString value_) (set "string")
  else if String.eqb rule "ascii" then violation (isNotASCII value_) (set "string")
  else if String.eqb rule "alpha" then violation (isNotAlpha value_) (set "alpha")
  else if String.eqb rule "numeric" then violation (isNotNumeric value_) (set "numeric")
  else if String.eqb rule "alpha_numeric" then
    violation (isNotAlphanumeric value_) (set "alpha_numeric")
  else if String.eqb rule "email" then violation (isNotEmail value_) (set "email")
  else if String.eqb rule "rfc3339" || String.eqb rule "datetime"
          || String.eqb rule "dateonly" then
    b <- lift (isNotDatetime value_ rule) ;;
    violation b (set ("date." +:+ rule))
  else if String.eqb rule "phone" then violation (isNotPhone value_) (set "phone")
  else if String.eqb rule "phone_with_code" then
    violation (isNotPhoneWithCode value_) (set "phone_with_code")
  else if String.eqb rule "username" then violation (isNotUsername value_) (set "username")
  else if String.eqb rule "gh_card" then violation (isNotGHCard value_) (set "gh_card")
  else if String.eqb rule "gh_gps" then violation (isNotGHGPS value_) (set "gh_gps")
  else if GoStrings.Contains rule ":" then
    validateStringParams v value_ rule customMsg jsonTag formattedField
  else M_ret false.

(** One [if rSlice[0] == name && isNot..(value, rSlice[1])] of
    [validateNumericParams]: the parameter is read only under the name. *)
Definition numeric_case (rSlice : list string) (r0 name : string)
    (test : string -> bool) (set : string -> M unit) : M bool :=
  if String.eqb r0 name then
    r1 <- lift (index rSlice 1) ;;
    violation (test r1) (set r1)
  else M_ret false.

Definition validateNumericParams (v : validation) (value_ : value)
    (rule customMsg jsonTag formattedField : string) : M bool :=
  let set key values := setMessage v key (AStr customMsg) jsonTag formattedField values in
  let rSlice := GoStrings.SplitN rule ":" 2 in
  r0 <- lift (index rSlice 0) ;;
  if String.eqb r0 "min" || String.eqb r0 "max" || String.eqb r0 "equal"
     || String.eqb r0 "size" then
    b1 <- numeric_case rSlice r0 "min" (isNotMin value_)
            (fun r1 => set "min.numeric" [r1]) ;;
    if b1 then M_ret true else
    b2 <- numeric_case rSlice r0 "max" (isNotMax value_)
            (fun r1 => set "max.numeric" [r1]) ;;
    if b2 then M_ret true else
    b3 <- numeric_case rSlice r0 "equal" (isNotEqual value_)
            (fun r1 => set "equal.numeric" [r1]) ;;
    if b3 then M_ret true else
    numeric_case rSlice r0 "size" (isNotSize value_)
      (fun r1 => set "size.numeric" [r1])
  else if String.eqb r0 "from" || String.eqb r0 "between" then
    r1 <- lift (index rSlice 1) ;;
    let minMax := GoStrings.SplitN r1 "," 2 in
    b1 <- (if String.eqb r0 "from" then
             m0 <- lift (index minMax 0) ;;
             m1 <- lift (index minMax 1) ;;
             violation (isNotFrom value_ m0 m1) (set "from.numeric" [m0; m1])
           else M_ret false) ;;
    if b1 then M_ret true else
    if String.eqb r0 "between" then
      m0 <- lift (index minMax 0) ;;
      m1 <- lift (index minMax 1) ;;
      violation (isNotBetween value_ m0 m1) (set "between.numeric" [m0; m1])
    else M_ret false
  else if String.eqb r0 "enum" then
    r1 <- lift (index rSlice 1) ;;
    let enums := GoStrings.Split r1 "," in
    b <- lift (isNotEnum value_ enums) ;;
    violation b (set "enum" [r1])
  else if String.eqb r0 "same" then
    r1 <- lift (index rSlice 1) ;;
    let '(tag, val) := getTagAndValue v r1 in
    violation (isNotSame value_ val) (set "same" [tag])
  else if String.eqb r0 "match" then
    r1 <- lift (index rSlice 1) ;;
    let '(_, val) := getTagAndValue v r1 in
    violation (isNotSame value_ val) (set "match" [])
  else M_ret false.

Definition validateNumeric (v : validation) (value_ : value)
    (rule customMsg jsonTag formattedField : string) : M bool :=
  let set key := setMessage v key (AStr customMsg) jsonTag formattedField [] in
  if String.eqb rule "int" then violation (isNotInt value_) (set "int")
  else if String.eqb rule "uint" then violation (isNotUint value_) (set "uint")
  else if GoStrings.Contains rule ":" then
    validateNumericParams v value_ rule customMsg jsonTag formattedField
  else M_ret false.

Definition validateFloat (v : validation) (value_ : value)
    (rule customMsg jsonTag formattedField : string) : M bool :=
  let set key := setMessage v key (AStr customMsg) jsonTag formattedField [] in
  if String.eqb rule "float" then violation (isNotFloat value_) (set "float")
  else if GoStrings.Contains rule ":" then
    validateNumericParams v value_ rule customMsg jsonTag formattedField
  else M_ret false.

End Engine.

(** ** validation.go: slices, references, fields and records *)

Section Fields.

Context `{E : Env}.
Variable ValidateStruct_rec : validation -> value -> report.

(** The size rule on a file: [v.setMessage(msgKey, ..., size)] when the
    limit is positive and the file is larger. *)
Definition size_violated (fh : FileHeader) (size symbol : string) : bool :=
  let '(limit, _) := size_limit size symbol in
  (limit >? 0) && (Size fh >? limit).

(** The body of the loop of [validateSlice] for the element [elemVal] at
    index [i]: what it appends to [errMsgs]. *)
Definition validateElem (v : validation) (elemKind : Kind) (elemVal : value) (i : Z)
    (rule customMsg formattedField : string) : M (list any) :=
  let fieldName := formattedField +:+ " (" +:+ GoFmt.FormatInt (i + 1) +:+ ")" in
  match elemKind with
  | KString =>
      if String.eqb rule "email" && isNotEmail elemVal
      then M_ret [generateMessage v "email" (AStr customMsg) fieldName []]
      else M_ret []
  | KPointer | KInterface =>
      match as_FileHeaders elemVal with
      | Some _ =>
          image <- (if String.eqb rule "image" then
                      b <- lift (isNotMimes elemVal "jpg,jpeg,png,webp") ;;
                      M_ret (if b then [generateMessage v "image" (AStr customMsg) fieldName []]
                             else [])
                    else M_ret []) ;;
          size <- (if GoStrings.HasPrefix rule "size:" then
                     let rSlice := GoStrings.SplitN rule ":" 2 in
                     r1 <- lift (index rSlice 1) ;;
                     match fileSize_submatch r1 with
                     | Some (size, symbol) =>
                         match as_FileHeader elemVal with
                         | Some fh =>
                             M_ret (if size_violated fh size symbol
                                    then [generateMessage v (snd (size_limit size symbol))
                                            (AStr customMsg) fieldName [size]]
                                    else [])
                         | None => M_ret []
                         end
                     | None => M_ret []
                     end
                   else M_ret []) ;;
          M_ret (image ++ size)
      | None =>
          match nested ValidateStruct_rec v elemVal with
          | Some msg => M_ret [AMap msg]
          | None => M_ret []
          end
      end
  | _ => M_ret []
  end.

Fixpoint validateElems (v : validation) (elemKind : Kind) (elems : list value) (i : Z)
    (rule customMsg formattedField : string) : M (list any) :=
  match elems with
  | [] => M_ret []
  | elemVal :: rest =>
      here <- validateElem v elemKind elemVal i rule customMsg formattedField ;;
      later <- validateElems v elemKind rest (i + 1) rule customMsg formattedField ;;
      M_ret (here ++ later)
  end.

Definition validateSlice (v : validation) (value_ : value)
    (rule customMsg jsonTag formattedField : string) : M bool :=
  let set key values := setMessage v key (AStr customMsg) jsonTag formattedField values in
  bound <- (if GoStrings.HasPrefix rule "slice" && GoStrings.Contains rule ":" then
              match tail (GoStrings.SplitN rule ":" 3) with
              | r0 :: r1 :: _ =>
                  if String.eqb r0 "min" && isNotMin value_ r1 then
                    _ <- set "min.slice" [r1] ;; M_ret true
                  else if String.eqb r0 "max" && isNotMax value_ r1 then
                    _ <- set "max.slice" [r1] ;; M_ret true
                  else M_ret false
              | _ => M_ret false
              end
            else M_ret false) ;;
  if bound then M_ret true else
  match value_ with
  | VSlice _ elemKind elems =>
      errMsgs <- validateElems v elemKind elems 0 rule customMsg formattedField ;;
      match errMsgs with
      | [] => M_ret false
      | _ =>
          _ <- setMessage v "" (AList errMsgs) jsonTag formattedField [] ;;
          M_ret true
      end
  | _ => M_ret false
  end.

Definition validatePointer (v : validation) (value_ : value)
    (rule customMsg jsonTag formattedField : string) : M bool :=
  let set key values := setMessage v key (AStr customMsg) jsonTag formattedField values in
  match as_FileHeader value_ with
  | Some fh =>
      if String.eqb rule "image" then
        b <- lift (isNotMimes value_ "jpg,jpeg,png,webp") ;;
        violation b (set "image" [])
      else if String.eqb rule "file" then
        b <- lift (isNotFile value_) ;;
        violation b (set "file" [])
      else if GoStrings.Contains rule ":" then
        let rSlice := GoStrings.SplitN rule ":" 2 in
        r0 <- lift (index rSlice 0) ;;
        if String.eqb r0 "image" then
          r1 <- lift (index rSlice 1) ;;
          b <- lift (isNotMimes value_ r1) ;;
          violation b (set "image_type" [r1])
        else if String.eqb r0 "file" then
          r1 <- lift (index rSlice 1) ;;
          b <- lift (isNotMimes value_ r1) ;;
          violation b (set "file_type" [r1])
        else if String.eqb r0 "mimes" then
          r1 <- lift (index rSlice 1) ;;
          b <- lift (isNotMimes value_ r1) ;;
          violation b (set "mimes" [r1])
        else if String.eqb r0 "size" then
          r1 <- lift (index rSlice 1) ;;
          match fileSize_submatch r1 with
          | Some (size, symbol) =>
              violation (size_violated fh size symbol)
                (set (snd (size_limit size symbol)) [size])
          | None => M_ret false
          end
        else M_ret false
      else M_ret false
  | None =>
      match nested ValidateStruct_rec v value_ with
      | Some msg =>
          _ <- setMessage v "" (AMap msg) jsonTag formattedField [] ;;
          M_ret true
      | None => M_ret false
      end
  end.

(** The [switch value.Kind()] of [validateStruct]. *)
Definition dispatch (v : validation) (value_ : value)
    (rule customMsg jsonTag formattedField : string) : M bool :=
  match Reflect.Kind_of value_ with
  | KString => validateString v value_ rule customMsg jsonTag formattedField
  | KInt | KUint => validateNumeric v value_ rule customMsg jsonTag formattedField
  | KFloat => validateFloat v value_ rule customMsg jsonTag formattedField
  | KSlice => validateSlice v value_ rule customMsg jsonTag formattedField
  | KPointer | KInterface => validatePointer v value_ rule customMsg jsonTag formattedField
  | _ => M_ret false
  end.

(** The loop of [validateStruct] over the rules of the chain; [true] when
    it left the function by a [return]. *)
Fixpoint validateRules (v : validation) (value_ : value) (jsonTag formattedField : string)
    (ruleOrMsgs : list string) : M bool :=
  match ruleOrMsgs with
  | [] => M_ret false
  | ruleOrMsg :: rest =>
      let '(rule, customMsg) := getRuleAndMsg ruleOrMsg in
      if String.eqb rule "required" && isEmpty value_ then
        match Reflect.Kind_of value_ with
        | KBool =>
            _ <- setMessage v "bool" (AStr customMsg) jsonTag formattedField [] ;;
            M_ret true
        | _ =>
            _ <- setMessage v "required" (AStr customMsg) jsonTag formattedField [] ;;
            M_ret true
        end
      else
        returned <- (if negb (isEmpty value_)
                     then dispatch v value_ rule customMsg jsonTag formattedField
                     else M_ret false) ;;
        if returned then M_ret true
        else validateRules v value_ jsonTag formattedField rest
  end.

(** [validateStruct(index, msgChan)], given the field at [index]. *)
Definition validateStruct (v : validation) (f : StructField) : M unit :=
  let ruleOrMsgs := GoStrings.Split (Tag_Get (validate_tag f)) "|" in
  if elemZero v then lift (Panic "reflect: call of reflect.Value.Field on zero Value")
  else
    let value_ := field_value f in
    let jsonTag := Tag_Get (json_tag f) in
    let formattedField := formatFieldName jsonTag in
    returned <- validateRules v value_ jsonTag formattedField ruleOrMsgs ;;
    if returned then M_ret tt
    else setMessage v "empty" (AStr "") jsonTag formattedField [].

(** The goroutine of [structValidator] for one field: what it sends, the
    deferred [recover] turning a panic into a message of the field. *)
Definition task (v : validation) (f : StructField) : list message :=
  match validateStruct v f with
  | (sent, Ok _) => sent
  | (sent, Panic err) =>
      sent ++ [Msg (Tag_Get (json_tag f)) (AStr ("validation panic: " +:+ err))]
  end.

(** A field is validated when it has both tags. *)
Definition eligible (f : StructField) : bool :=
  match json_tag f, validate_tag f with
  | Some _, Some _ => true
  | _, _ => false
  end.

(** What [msgChan] receives. The goroutines run concurrently and the
    order of arrival is theirs; the model takes the order of the fields
    ([collect_Permutation] shows when the order does not matter). *)
Fixpoint received (v : validation) (fields : list StructField) : list message :=
  match fields with
  | [] => []
  | f :: rest =>
      if eligible f then task v f ++ received v rest else received v rest
  end.

(** The loop [for msg := range mChan] building [errMsg]. *)
Definition collect (msgs : list message) : gmap string any :=
  foldl (fun errMsg msg => if shown (V msg) then <[K msg := V msg]> errMsg else errMsg)
        ∅ msgs.

Definition structValidator (v : validation) : report :=
  let errMsg := collect (received v (elem v)) in
  if (0 <? Z.of_nat (size errMsg)) then Some errMsg else None.

End Fields.

(** ** [ValidateStruct] *)

Section Validate.

Context `{E : Env}.

(** [ValidateStruct(elem)], by recursion on the value passed as [elem]:
    the nested calls are on a field of the struct it points to, or on an
    element of a slice held by such a field. A struct type so far as
    [structValidator] reads it is the list of its fields; the fields of
    [multipart.FileHeader] carry no tag. Under a nil pointer to a struct
    every goroutine panics on reading its field, before any nested call
    ([unreached] stands for the call that is never made). *)
Definition unreached : validation -> value -> report := fun _ _ => None.

Fixpoint ValidateStruct (v : validation) (elem_ : value) {struct elem_} : report :=
  match elem_ with
  | VStructRef _ _ fields =>
      structValidator ValidateStruct
        {| elem := fields; elemZero := false; locale := locale v; dbConfig := dbConfig v |}
  | VFile _ _ _ =>
      structValidator ValidateStruct
        {| elem := []; elemZero := false; locale := locale v; dbConfig := dbConfig v |}
  | VNilRef _ (PStruct tags) =>
      structValidator unreached
        {| elem := map (fun t => Field (fst t) (snd t) VInvalid) tags; elemZero := true;
           locale := locale v; dbConfig := dbConfig v |}
  | VNilRef _ PNonStruct | VBadPtr _ _ =>
      error_report "validate: a struct pointer is expected as an argument"
  | _ => error_report "validate: a pointer is expected as an argument"
  end.

End Validate.

(** ** A locale and collaborators to run the engine on examples *)

Definition demo_EN : gmap string locale_entry :=
  {[ "required" := Template "The %s field is required.";
     "bool" := Template "The %s field must be true.";
     "uint" := Template "The %s must be an unsigned integer.";
     "enum" := Template "The %s must be one of: %s.";
     "same" := Template "The %s and %s must match.";
     "size" := Category {[ "file_mb" := "The %s must not be greater than %s megabytes." ]} ]}.

(** A stand-in for [fmt.Sprintf] that keeps the template and its operands
    apart, so that the examples show which message was built from what. *)
Definition demo_Sprintf (format : string) (operands : list string) : string :=
  format +:+ " <- " +:+ String.concat ", " operands.

#[export] Instance demo_env : Env := {|
  locale_EN := demo_EN;
  locale_FR := ∅;
  Sprintf := demo_Sprintf;
  Sprintf_value := fun _ _ => "";
  time_Parse := fun _ _ => false;
  mail_ParseAddress := fun _ => true;
  ParseFloat := fun _ => 0%float;
  mimetype_Extension := fun _ => "";
  mimetype_EqualsAny := fun _ _ => false;
  sql_Open := fun _ _ => None;
  sql_QueryRow := fun _ _ _ => ErrNoRows
|}.

(** ** The vocabulary of the statements *)

(** Every byte of [s] satisfies [p]; some byte of [s] does. *)
Fixpoint all_bytes (p : ascii -> bool) (s : string) : bool :=
  match s with
  | EmptyString => true
  | String c s' => p c && all_bytes p s'
  end.

Fixpoint has_byte (p : ascii -> bool) (s : string) : bool :=
  match s with
  | EmptyString => false
  | String c s' => p c || has_byte p s'
  end.

Definition flat (ss : list string) : string := foldr String.append "" ss.

(** The words of a regular expression. *)
Fixpoint lang (r : GoRegexp.re) (s : string) : Prop :=
  match r with
  | GoRegexp.Void => False
  | GoRegexp.Eps => s = ""
  | GoRegexp.Cls p => exists c, s = String c "" /\ p c = true
  | GoRegexp.Cat r1 r2 => exists s1 s2, s = s1 +:+ s2 /\ lang r1 s1 /\ lang r2 s2
  | GoRegexp.Alt r1 r2 => lang r1 s \/ lang r2 s
  | GoRegexp.Star r1 => exists ss, s = flat ss /\ Forall (lang r1) ss
  end.

(** A text of at least two decimal digits, the first of which is not 0. *)
Definition two_digits (s : string) : bool :=
  match s with
  | String c rest => is_digit19 c && negb (String.eqb rest "") && all_bytes is_digit rest
  | EmptyString => false
  end.

(** An integer field, signed or unsigned. *)
Definition integer (unsigned : bool) (ty : string) (z : Z) : value :=
  if unsigned then VUint ty z else VInt ty z.

(** The text "naive" with U+00EF for its "i": the bytes 0xC3 0xAF. *)
Definition naive_text : string :=
  String "n" (String "a" (String "195" (String "175" (String "v" (String "e" EmptyString))))).

(** The units of the size rule that have a multiplier, as the rule writes
    them (in lower or in upper case) and in bytes. *)
Inductive size_unit : Type := KB | MB | GB.

Definition unit_text (u : size_unit) (upper : bool) : string :=
  match u, upper with
  | KB, false => "kb" | KB, true => "KB"
  | MB, false => "mb" | MB, true => "MB"
  | GB, false => "gb" | GB, true => "GB"
  end.

Definition unit_bytes (u : size_unit) : Z :=
  match u with KB => 1024 | MB => 1024 * 1024 | GB => 1024 * 1024 * 1024 end.

Definition unit_key (u : size_unit) : string :=
  match u with KB => "size.file_kb" | MB => "size.file_mb" | GB => "size.file_gb" end.

Definition tb_text (upper : bool) : string := if upper then "TB" else "tb".


(** The custom message of the first element of a chain whose rule is
    [required], if the chain has one. *)
Fixpoint first_required (ruleOrMsgs : list string) : option string :=
  match ruleOrMsgs with
  | [] => None
  | r :: rest =>
      if String.eqb (getRuleAndMsg r).1 "required" then Some (getRuleAndMsg r).2
      else first_required rest
  end.

(** The key of the required-violation: "bool" for a boolean field. *)
Definition required_key (x : value) : string :=
  match Reflect.Kind_of x with KBool => "bool" | _ => "required" end.

(** An element of a chain does not contain the separator of the chain. *)
Definition no_bar (r : string) : Prop := has_byte (byte_eqb "|") r = false.

(** The field with the json tag [j], the chain [chain] and the value [x]. *)
Definition field_of (j : string) (chain : list string) (x : value) : StructField :=
  Field (Some j) (Some (String.concat "|" chain)) x.

(** One step of the loop of [structValidator] over the channel, and the
    loop from a map built so far. *)
Definition keep (errMsg : gmap string any) (msg : message) : gmap string any :=
  if shown (V msg) then <[K msg := V msg]> errMsg else errMsg.

(** The keys under which a list of messages leaves an entry. *)
Definition shown_keys (msgs : list message) : list string :=
  map K (filter (fun m => shown (V m) = true) msgs).

(** A request whose first field is left empty and whose second field
    holds an integer under an [enum] rule. *)
Definition faulty_request : list StructField :=
  [Field (Some "name") (Some "required") (VString "string" "");
   Field (Some "level") (Some "enum:1,2,3") (VInt "int" 2)].

Definition faulty_context : validation :=
  {| elem := faulty_request; elemZero := false; locale := "en"; dbConfig := None |}.

(** The evaluation of one element of a chain finds nothing to report: the
    value is not empty if the rule is [required], and on a value that is not
    empty the dispatcher of its kind ends without a violation, without a
    message and without a panic (for a reference that is not a file: the
    nested validation returns nil). *)
Definition rule_clean `{E : Env} (rec : validation -> value -> report) (v : validation)
    (x : value) (j : string) (ruleOrMsg : string) : Prop :=
  ((getRuleAndMsg ruleOrMsg).1 = "required" -> isEmpty x = false)
  /\ (isEmpty x = false ->
      dispatch rec v x (getRuleAndMsg ruleOrMsg).1 (getRuleAndMsg ruleOrMsg).2 j
        (formatFieldName j) = M_ret false).

Definition field_clean `{E : Env} (rec : validation -> value -> report) (v : validation)
    (f : StructField) : Prop :=
  Forall (rule_clean rec v (field_value f) (Tag_Get (json_tag f)))
         (GoStrings.Split (Tag_Get (validate_tag f)) "|").

(** The context in which [ValidateStruct] validates the fields of the
    struct it is given. *)
Definition context_of (v : validation) (fields : list StructField) : validation :=
  {| elem := fields; elemZero := false; locale := locale v; dbConfig := dbConfig v |}.

(** A request with an optional integer that is present. *)
Definition optional_age : StructField :=
  Field (Some "age") (Some "required") (VBadPtr "*int" Pointer).

(** A request that passes its rules, with a nested contact. *)
Definition clean_request : list StructField :=
  [Field (Some "name") (Some "required|string|from:1,5") (VString "string" "Ada");
   Field (Some "age") (Some "required|between:17,66") (VInt "int" 30);
   Field None (Some "required") (VString "string" "");
   Field (Some "contact") (Some "required")
     (VStructRef "*Contact" Pointer
        [Field (Some "phone") (Some "required|phone") (VString "string" "0244123456")])].

(** ** The vocabulary of the further properties *)

(** How the evaluation of one rule ends. A dispatcher passes (no message,
    no violation), reports (one message under [key], whose payload satisfies
    [P], and the flag that ends the chain) or panics before it has sent
    anything. *)
Inductive outcome (P : any -> Prop) (key : string) : M bool -> Prop :=
| passes : outcome P key (M_ret false)
| reports (p : any) : P p -> outcome P key ([Msg key p], Ok true)
| panics (d : string) : outcome P key ([], Panic d).

(** The payloads a rule with the custom message [c] can send: [c] itself
    when it is not empty, a text otherwise, or the outcome of a nested
    validation. *)
Definition payload_of (c : string) (p : any) : Prop :=
  match p with
  | AStr s => c = "" \/ s = c
  | AMap _ | AList _ => True
  | ANil => False
  end.

Definition any_payload : any -> Prop := fun _ => True.

(** A computation that sends nothing. *)
Definition quiet {A : Type} (m : M A) : Prop := exists r, m = lift r.

(** The json tag of a field, as [Tag.Get] reads it, and the fields of a
    struct that [structValidator] starts a goroutine for. *)
Definition tag_of (g : StructField) : string := Tag_Get (json_tag g).

Definition validated (fields : list StructField) : list StructField :=
  filter (fun g => eligible g = true) fields.

(** What [structValidator] returns when the channel delivers [msgs]. *)
Definition report_from (msgs : list message) : report :=
  let errMsg := collect msgs in
  if 0 <? Z.of_nat (size errMsg) then Some errMsg else None.

(** A reference that is neither nil nor a file. *)
Definition plain_reference (x : value) : bool :=
  match x with
  | VStructRef _ _ _ | VBadPtr _ _ | VBoxed _ | VFiles _ _ => true
  | _ => false
  end.

(** The message of a field whose goroutine reads a field of the zero Value. *)
Definition zero_Value_fault : string :=
  "validation panic: reflect: call of reflect.Value.Field on zero Value".

(** The elements of a field of type [[]*multipart.FileHeader]. *)
Definition file_values (ty : string) (files : list FileHeader) : list value :=
  map (VFile ty Pointer) files.

(** The label of the element at a 1-based position of a slice field. *)
Definition element_label (f : string) (position : Z) : string :=
  f +:+ " (" +:+ GoFmt.FormatInt position +:+ ")".

(** The 1-based positions, counted from [i], of the elements of a slice
    that are no email address. *)
Fixpoint email_faults `{E : Env} (elems : list value) (i : Z) : list Z :=
  match elems with
  | [] => []
  | e :: rest => (if isNotEmail e then [i + 1] else []) ++ email_faults rest (i + 1)
  end.

(** A text that is not empty; a non-empty run of bytes of a class. *)
Definition nonempty (s : string) : bool := negb (String.eqb s "").

Definition run_of (p : ascii -> bool) (s : string) : bool := nonempty s && all_bytes p s.

(** A letter, a digit, or one of the four bytes "-", "+", " " and ".". *)
Definition plain_byte (c : ascii) : bool := is_alnum c || has_byte (byte_eqb c) "-+ .".

(** [n] decimal digits; between [lo] and [hi] of them. *)
Definition digits_of_length (n : nat) (s : string) : bool :=
  (String.length s =? n)%nat && all_bytes is_digit s.

Definition digits_up_to (lo hi : nat) (s : string) : bool :=
  (lo <=? String.length s)%nat && (String.length s <=? hi)%nat && all_bytes is_digit s.

(** A local phone number: "0" and nine more digits. *)
Definition local_phone (s : string) : bool :=
  match s with
  | String c rest => byte_eqb "0" c && digits_of_length 9 rest
  | EmptyString => false
  end.

(** The domains [isNotEmail] refuses, and what it asks of the two sides of
    the last "@" before it calls [mail.ParseAddress]. *)
Definition reserved_domain (d : string) : bool :=
  String.eqb d "localhost" || String.eqb d "localhost.com" || String.eqb d "example.com".

Definition email_shape (local domain : string) : bool :=
  let l := Z.of_nat (String.length local) in
  let d := Z.of_nat (String.length domain) in
  (6 <=? l + 1 + d) && (l + 1 + d <=? 254) && (1 <=? l) && (l <=? 64) && (2 <=? d)
  && negb (reserved_domain domain).

(** An integer written in decimal: an optional sign and at least one digit. *)
Definition is_decimal (s : string) : bool :=
  match s with
  | String c rest =>
      if byte_eqb c "+" || byte_eqb c "-" then nonempty rest && all_bytes is_digit rest
      else all_bytes is_digit s
  | EmptyString => false
  end.

(** The panic values of an index past the end of a one-element slice, of
    a nil [*Database] and of a driver that [connectDB] does not know. *)
Definition index_fault : string := "runtime error: index out of range [1] with length 1".

Definition nil_config_fault : string :=
  "runtime error: invalid memory address or nil pointer dereference".

Definition driver_fault : string :=
  "[db connection error]: provide db driver. validata currently support mysql and postgres drivers.".

(** The extensions of the rule [image]. *)
Definition image_extensions : list string := [".jpg"; ".jpeg"; ".png"; ".webp"].

(** The locale table [getMessage] reads. *)
Definition table_of `{E : Env} (v : validation) : gmap string locale_entry :=
  if String.eqb (GoStrings.ToLower (locale v)) "fr" then locale_FR else locale_EN.

(** [formatFieldName] starts a new word at a byte [b] for which
    [c == strings.ToUpper(c)] holds: an ASCII byte that is not a lower-case
    letter. [label_tail s] is what the bytes of [s] add to a label that is
    not empty. *)
Definition word_break (b : ascii) : bool := is_ascii_byte b && negb (is_lower b).

Fixpoint label_tail (s : string) : string :=
  match s with
  | EmptyString => EmptyString
  | String b rest =>
      (if word_break b then " " else "") +:+ GoStrings.ToLower1 b +:+ label_tail rest
  end.

(** [s] without the bytes [c]; the byte 32 places after [c]. *)
Fixpoint strip (c : ascii) (s : string) : string :=
  match s with
  | EmptyString => EmptyString
  | String x rest => if byte_eqb c x then strip c rest else String x (strip c rest)
  end.

Definition shift_up (c : ascii) : ascii := ascii_of_N (N_of_ascii c + 32).

(** A name of a list of mimes does not contain the separator of the list. *)
Definition no_comma (m : string) : Prop := has_byte (byte_eqb ",") m = false.

(** A field under a range rule, [name:min,max], and what its goroutine
    sends: the text of the rule's message when the value is rejected, the
    empty message otherwise. *)
Definition range_field (j name min max : string) (x : value) : StructField :=
  Field (Some j) (Some (name +:+ ":" +:+ min +:+ "," +:+ max)) x.

Definition range_message `{E : Env} (v : validation) (key j : string)
    (bounds : list string) (rejected : bool) : list message :=
  [Msg j (AStr (if rejected then render v key (formatFieldName j) bounds else ""))].

(** A bound that holds neither the separator of the rules nor the one of
    the custom message. *)
Definition plain_bound (b : string) : bool :=
  negb (has_byte (byte_eqb "|") b) && negb (has_byte (byte_eqb ">") b).

(** The kinds of value that have a range rule. *)
Definition ranged (x : value) : bool :=
  match x with
  | VInt _ _ | VUint _ _ | VFloat _ _ | VString _ _ => true
  | _ => false
  end.

(** * Properties *)

#[local] Arguments String.append : simpl nomatch.

(** ** Strings *)

Module StringFacts.

Lemma app_empty_r (s : string) : s +:+ "" = s.
Proof. induction s as [|c s IH]; simpl; [reflexivity | now rewrite IH]. Qed.

Lemma app_assoc (a b c : string) : (a +:+ b) +:+ c = a +:+ (b +:+ c).
Proof. induction a as [|x a IH]; simpl; [reflexivity | now rewrite IH]. Qed.

Lemma app_length (a b : string) :
  String.length (a +:+ b) = (String.length a + String.length b)%nat.
Proof. induction a as [|x a IH]; simpl; [reflexivity | now rewrite IH]. Qed.

Lemma app_eq_empty (a b : string) : a +:+ b = "" -> a = "" /\ b = "".
Proof. destruct a; simpl; [auto | discriminate]. Qed.

Lemma all_bytes_app p a b : all_bytes p (a +:+ b) = all_bytes p a && all_bytes p b.
Proof.
  induction a as [|x a IH]; simpl; [reflexivity|].
  rewrite IH. now rewrite andb_assoc.
Qed.

Lemma has_byte_app p a b : has_byte p (a +:+ b) = has_byte p a || has_byte p b.
Proof.
  induction a as [|x a IH]; simpl; [reflexivity|].
  rewrite IH. now rewrite orb_assoc.
Qed.

Lemma has_byte_split p s :
  has_byte p s = true -> exists a c b, s = a +:+ String c b /\ p c = true.
Proof.
  induction s as [|x s IH]; simpl; [discriminate|].
  destruct (p x) eqn:Hx; simpl.
  - intros _. exists "", x, s. auto.
  - intros H. destruct (IH H) as (a & c & b & -> & Hc).
    exists (String x a), c, b. auto.
Qed.

Lemma take_app (a b : string) : GoStrings.take (String.length a) (a +:+ b) = a.
Proof. induction a as [|x a IH]; simpl; [now destruct b | now rewrite IH]. Qed.

Lemma drop_app (a b : string) : GoStrings.drop (String.length a) (a +:+ b) = b.
Proof. induction a as [|x a IH]; simpl; [reflexivity | exact IH]. Qed.

Lemma prefix_one (c : ascii) (s : string) :
  String.prefix (String c "") s =
  match s with String x _ => byte_eqb c x | EmptyString => false end.
Proof.
  destruct s as [|x s]; simpl; [reflexivity|].
  unfold byte_eqb. destruct (ascii_dec c x) as [->|Hne].
  - rewrite Ascii.eqb_refl. now destruct s.
  - apply Ascii.eqb_neq in Hne. now rewrite Hne.
Qed.

(** Cutting at a separator that the first part does not contain. *)
Lemma Cut_app (c : ascii) (a b : string) :
  has_byte (byte_eqb c) a = false ->
  GoStrings.Cut (a +:+ String c b) (String c "") = Some (a, b).
Proof.
  induction a as [|x a IH]; intros Ha.
  - cbn [String.append GoStrings.Cut]. rewrite prefix_one.
    unfold byte_eqb. rewrite Ascii.eqb_refl. reflexivity.
  - cbn [has_byte] in Ha. apply orb_false_iff in Ha as [Hx Ha].
    cbn [String.append GoStrings.Cut]. rewrite prefix_one, Hx, (IH Ha). reflexivity.
Qed.

Lemma Cut_none (c : ascii) (a : string) :
  has_byte (byte_eqb c) a = false -> GoStrings.Cut a (String c "") = None.
Proof.
  induction a as [|x a IH]; intros Ha.
  - reflexivity.
  - cbn [has_byte] in Ha. apply orb_false_iff in Ha as [Hx Ha].
    cbn [GoStrings.Cut]. rewrite prefix_one, Hx, (IH Ha). reflexivity.
Qed.

End StringFacts.

(** ** Regular expressions: the matcher decides the language *)

Module RegexpFacts.

Import GoRegexp StringFacts.

Lemma nullable_spec (r : re) : nullable r = true <-> lang r "".
Proof.
  induction r as [| |p|r1 IH1 r2 IH2|r1 IH1 r2 IH2|r1 IH1]; simpl.
  - split; [discriminate | tauto].
  - tauto.
  - split; [discriminate | intros (c & Hc & _); discriminate].
  - rewrite andb_true_iff, IH1, IH2. split.
    + intros [H1 H2]. exists "", "". auto.
    + intros (s1 & s2 & Hs & H1 & H2). symmetry in Hs.
      apply app_eq_empty in Hs as [-> ->]. auto.
  - rewrite orb_true_iff, IH1, IH2. tauto.
  - split; [intros _ | reflexivity]. exists []. split; [reflexivity | constructor].
Qed.

(** A word of [Star r] that starts with [c] starts with a word of [r]
    that starts with [c]. *)
Lemma star_cons (r : re) (c : ascii) (s : string) :
  lang (Star r) (String c s) ->
  exists s1 s2, s = s1 +:+ s2 /\ lang r (String c s1) /\ lang (Star r) s2.
Proof.
  intros (ss & Hs & Hall). revert Hs. induction Hall as [|w ss Hw Hall IH]; simpl.
  - discriminate.
  - destruct w as [|x w]; simpl.
    + exact IH.
    + intros [= -> ->]. exists w, (flat ss). repeat split; [exact Hw|].
      exists ss. auto.
Qed.

Lemma deriv_spec (r : re) (c : ascii) (s : string) :
  lang (deriv c r) s <-> lang r (String c s).
Proof.
  revert s. induction r as [| |p|r1 IH1 r2 IH2|r1 IH1 r2 IH2|r1 IH1]; intros s; simpl.
  - tauto.
  - split; [tauto | discriminate].
  - destruct (p c) eqn:Hp; simpl.
    + split.
      * intros ->. exists c. auto.
      * intros (x & [= -> ->] & _). reflexivity.
    + split; [tauto|]. intros (x & [= -> ->] & Hx). congruence.
  - assert (Hcat : lang (Cat (deriv c r1) r2) s <->
                   exists s1 s2, s = s1 +:+ s2 /\ lang r1 (String c s1) /\ lang r2 s2).
    { simpl. split; intros (s1 & s2 & Hs & H1 & H2); exists s1, s2;
        (repeat split; [exact Hs | apply IH1; exact H1 | exact H2]). }
    assert (Hsplit : (exists s1 s2, String c s = s1 +:+ s2 /\ lang r1 s1 /\ lang r2 s2) <->
                     (exists s1 s2, s = s1 +:+ s2 /\ lang r1 (String c s1) /\ lang r2 s2)
                     \/ (lang r1 "" /\ lang r2 (String c s))).
    { split.
      - intros (s1 & s2 & Hs & H1 & H2). destruct s1 as [|x s1]; simpl in Hs.
        + right. subst s2. auto.
        + injection Hs as -> ->. left. exists s1, s2. auto.
      - intros [(s1 & s2 & -> & H1 & H2) | [H1 H2]].
        + exists (String c s1), s2. auto.
        + exists "", (String c s). auto. }
    etransitivity; [| symmetry; exact Hsplit].
    destruct (nullable r1) eqn:Hn.
    + split.
      * intros [H | H]; [left; apply Hcat; exact H | right].
        split; [apply nullable_spec; exact Hn | apply IH2; exact H].
      * intros [H | [_ H]]; [left; apply Hcat; exact H | right; apply IH2; exact H].
    + split.
      * intros H. left. apply Hcat. exact H.
      * intros [H | [H _]]; [apply Hcat; exact H|].
        apply nullable_spec in H. congruence.
  - rewrite IH1, IH2. tauto.
  - split.
    + intros (s1 & s2 & -> & H1 & (ss & -> & Hall)).
      exists (String c s1 :: ss). split; [reflexivity|].
      constructor; [apply IH1; exact H1 | exact Hall].
    + intros H. destruct (star_cons _ _ _ H) as (s1 & s2 & -> & H1 & H2).
      exists s1, s2. repeat split; [apply IH1; exact H1 | exact H2].
Qed.

Theorem accepts_spec (r : re) (s : string) : accepts r s = true <-> lang r s.
Proof.
  revert r. induction s as [|c s IH]; intros r; simpl.
  - apply nullable_spec.
  - rewrite IH. apply deriv_spec.
Qed.

Lemma lang_star_cls (p : ascii -> bool) (s : string) :
  lang (Star (Cls p)) s <-> all_bytes p s = true.
Proof.
  split.
  - intros (ss & -> & Hall). induction Hall as [|w ss (c & -> & Hc) _ IH]; simpl.
    + reflexivity.
    + now rewrite Hc, IH.
  - induction s as [|c s IH]; simpl.
    + intros _. exists []. split; [reflexivity | constructor].
    + intros H. apply andb_true_iff in H as [Hc Hs].
      destruct (IH Hs) as (ss & -> & Hall).
      exists (String c "" :: ss). split; [reflexivity|].
      constructor; [exists c; auto | exact Hall].
Qed.

Lemma lang_plus_cls (p : ascii -> bool) (s : string) :
  lang (Plus (Cls p)) s <-> s <> "" /\ all_bytes p s = true.
Proof.
  unfold Plus. change (lang (Cat (Cls p) (Star (Cls p))) s) with
    (exists s1 s2, s = s1 +:+ s2 /\ lang (Cls p) s1 /\ lang (Star (Cls p)) s2).
  split.
  - intros (s1 & s2 & -> & (c & -> & Hc) & H2). apply lang_star_cls in H2.
    simpl. rewrite Hc, H2. split; [discriminate | reflexivity].
  - intros [Hne H]. destruct s as [|c s]; [congruence|].
    simpl in H. apply andb_true_iff in H as [Hc Hs].
    exists (String c ""), s. repeat split.
    + exists c. auto.
    + apply lang_star_cls. exact Hs.
Qed.

Lemma lang_any_star (s : string) : lang (Star Any) s.
Proof. apply lang_star_cls. induction s; simpl; auto. Qed.

(** A pattern anchored at both ends matches the whole text. *)
Lemma MatchString_anchored (r : re) (s : string) :
  MatchString (Compile true r true) s = true <-> lang r s.
Proof.
  unfold MatchString, search_re. rewrite accepts_spec. simpl. split.
  - intros (s1 & s2 & -> & -> & (s3 & s4 & -> & H & ->)).
    simpl. now rewrite app_empty_r.
  - intros H. exists "", s. repeat split. exists s, "".
    rewrite app_empty_r. auto.
Qed.

(** A pattern with no anchor matches some part of the text. *)
Lemma MatchString_floating (r : re) (s : string) :
  MatchString (Compile false r false) s = true <->
  exists a m b, s = a +:+ m +:+ b /\ lang r m.
Proof.
  unfold MatchString, search_re. rewrite accepts_spec.
  cbn [bol eol body].
  change (lang (Cat (Star Any) (Cat r (Star Any))) s) with
    (exists s1 s2, s = s1 +:+ s2 /\ lang (Star Any) s1 /\
       exists s3 s4, s2 = s3 +:+ s4 /\ lang r s3 /\ lang (Star Any) s4).
  split.
  - intros (s1 & s2 & -> & _ & (s3 & s4 & -> & H & _)). exists s1, s3, s4. auto.
  - intros (a & m & b & -> & H). exists a, (m +:+ b). repeat split.
    + apply lang_any_star.
    + exists m, b. repeat split; [exact H | apply lang_any_star].
Qed.

Lemma bool_eq_iff (a b : bool) : (a = true <-> b = true) -> a = b.
Proof. destruct a, b; intuition congruence. Qed.

End RegexpFacts.

(** ** Decimal rendering and parsing *)

Module DecimalFacts.

Import GoFmt GoStrconv StringFacts.

Lemma digit_cases (d : Z) :
  0 <= d <= 9 ->
  d = 0 \/ d = 1 \/ d = 2 \/ d = 3 \/ d = 4 \/ d = 5 \/ d = 6 \/ d = 7 \/ d = 8 \/ d = 9.
Proof. lia. Qed.

Ltac by_digit H :=
  destruct (digit_cases _ H) as [->|[->|[->|[->|[->|[->|[->|[->|[->| ->]]]]]]]]];
  try reflexivity; try lia.

Lemma digit_char_is_digit (d : Z) : 0 <= d <= 9 -> is_digit (digit_char d) = true.
Proof. intros H. by_digit H. Qed.

Lemma digit_char_is_digit19 (d : Z) : 1 <= d <= 9 -> is_digit19 (digit_char d) = true.
Proof. intros H. assert (H' : 0 <= d <= 9) by lia. by_digit H'. Qed.

Lemma digit_val_char (d : Z) : 0 <= d <= 9 -> digit_val (digit_char d) = Some d.
Proof. intros H. by_digit H. Qed.

Lemma digit_char_not (c : ascii) (d : Z) :
  0 <= d <= 9 -> is_digit c = false -> byte_eqb c (digit_char d) = false.
Proof.
  intros H Hc. unfold byte_eqb. destruct (Ascii.eqb_spec c (digit_char d)) as [->|]; [|reflexivity].
  now rewrite digit_char_is_digit in Hc.
Qed.

Lemma digits_fuel_app (fuel : nat) (u : Z) (acc : string) :
  digits_fuel fuel u acc = digits_fuel fuel u "" +:+ acc.
Proof.
  revert u acc. induction fuel as [|fuel IH]; intros u acc; simpl; [reflexivity|].
  destruct (u <? 10); [reflexivity|].
  rewrite IH, (IH _ (String _ "")), app_assoc. reflexivity.
Qed.

Lemma digits_fuel_digits (fuel : nat) (u : Z) (acc : string) :
  0 <= u -> all_bytes is_digit acc = true ->
  all_bytes is_digit (digits_fuel fuel u acc) = true.
Proof.
  revert u acc. induction fuel as [|fuel IH]; intros u acc Hu Hacc; simpl; [exact Hacc|].
  assert (Hd : all_bytes is_digit (String (digit_char (u mod 10)) acc) = true).
  { simpl. rewrite digit_char_is_digit, Hacc; [reflexivity|].
    pose proof (Z.mod_pos_bound u 10). lia. }
  destruct (u <? 10); [exact Hd|].
  apply IH; [apply Z.div_pos; lia | exact Hd].
Qed.

Lemma digits_fuel_longer (fuel : nat) (u : Z) (acc : string) :
  (String.length acc + (if fuel is O then 0 else 1)
   <= String.length (digits_fuel fuel u acc))%nat.
Proof.
  revert u acc. induction fuel as [|fuel IH]; intros u acc; simpl; [lia|].
  destruct (u <? 10); simpl; [lia|].
  specialize (IH (u / 10) (String (digit_char (u mod 10)) acc)). simpl in IH.
  destruct fuel; lia.
Qed.

(** With enough fuel the first digit written is not 0. *)
Lemma digits_fuel_head (fuel : nat) (u : Z) (acc : string) :
  0 < u < 10 ^ Z.of_nat fuel ->
  exists c rest, digits_fuel fuel u acc = String c rest /\ is_digit19 c = true.
Proof.
  revert u acc. induction fuel as [|fuel IH]; intros u acc Hu.
  - simpl in Hu. lia.
  - simpl. destruct (u <? 10) eqn:Hlt.
    + apply Z.ltb_lt in Hlt. eexists _, _. split; [reflexivity|].
      rewrite Z.mod_small by lia. apply digit_char_is_digit19. lia.
    + apply Z.ltb_ge in Hlt. apply IH.
      rewrite Nat2Z.inj_succ, Z.pow_succ_r in Hu by lia.
      split; [apply Z.div_str_pos; lia | apply Z.div_lt_upper_bound; lia].
Qed.

Lemma fuel_enough (u : Z) : 0 < u -> u < 10 ^ Z.of_nat (S (Z.to_nat (Z.log2 u))).
Proof.
  intros Hu. pose proof (Z.log2_nonneg u) as Hl.
  rewrite Nat2Z.inj_succ, Z2Nat.id by lia.
  destruct (Z.log2_spec u Hu) as [_ Hlt].
  eapply Z.lt_le_trans; [exact Hlt|].
  apply Z.pow_le_mono_l. lia.
Qed.

Lemma FormatUint_small (u : Z) :
  0 <= u < 10 -> FormatUint u = String (digit_char u) "".
Proof.
  intros Hu. unfold FormatUint. simpl.
  destruct (Z.ltb_spec u 10); [|lia]. now rewrite Z.mod_small by lia.
Qed.

(** The rendering of a number from 10 on: a digit that is not 0, and at
    least one more digit. *)
Lemma FormatUint_large (u : Z) :
  10 <= u ->
  exists c rest, FormatUint u = String c rest /\ is_digit19 c = true
                 /\ rest <> "" /\ all_bytes is_digit rest = true.
Proof.
  intros Hu. unfold FormatUint.
  destruct (digits_fuel_head (S (Z.to_nat (Z.log2 u))) u "") as (c & rest & Heq & Hc).
  { split; [lia | apply fuel_enough; lia]. }
  exists c, rest. split; [exact Heq|]. split; [exact Hc|].
  pose proof (digits_fuel_digits (S (Z.to_nat (Z.log2 u))) u "" ltac:(lia) eq_refl) as Hall.
  rewrite Heq in Hall. simpl in Hall. apply andb_true_iff in Hall as [_ Hall].
  split; [|exact Hall].
  intros ->. revert Heq. simpl.
  destruct (Z.ltb_spec u 10); [lia|]. intros Heq.
  pose proof (digits_fuel_longer (Z.to_nat (Z.log2 u)) (u / 10)
                (String (digit_char (u mod 10)) "")) as Hlen.
  rewrite Heq in Hlen. simpl in Hlen.
  assert (1 <= Z.log2 u) by (apply Z.log2_le_pow2; lia).
  destruct (Z.to_nat (Z.log2 u)) eqn:Hn; lia.
Qed.

Lemma FormatUint_digits (u : Z) : 0 <= u -> all_bytes is_digit (FormatUint u) = true.
Proof. intros Hu. now apply digits_fuel_digits. Qed.

Lemma FormatUint_nonempty (u : Z) : FormatUint u <> "".
Proof.
  unfold FormatUint. intros Heq.
  pose proof (digits_fuel_longer (S (Z.to_nat (Z.log2 u))) u "") as Hlen.
  rewrite Heq in Hlen. simpl in Hlen. lia.
Qed.

(** Parsing reads back what formatting wrote. *)
Lemma ParseUint_loop_digits (fuel : nat) (u : Z) (acc : string) :
  0 <= u <= maxUint64 -> u < 10 ^ Z.of_nat fuel ->
  ParseUint_loop (digits_fuel fuel u acc) 0 = ParseUint_loop acc u.
Proof.
  revert u acc. induction fuel as [|fuel IH]; intros u acc Hu Hfuel.
  - simpl in Hfuel. assert (u = 0) as -> by lia. reflexivity.
  - simpl. pose proof (Z.mod_pos_bound u 10 ltac:(lia)) as Hmod.
    assert (Hstep : forall n, 0 <= n -> n * 10 + u mod 10 = u ->
              ParseUint_loop (String (digit_char (u mod 10)) acc) n = ParseUint_loop acc u).
    { intros n Hn Heq. simpl. rewrite digit_val_char by lia.
      unfold maxUint64 in *.
      destruct (Z.geb_spec n ((2 ^ 64 - 1) / 10 + 1)) as [Hge|_].
      - exfalso. change ((2 ^ 64 - 1) / 10 + 1) with 1844674407370955162 in Hge. lia.
      - rewrite Heq. destruct (Z.gtb_spec u (2 ^ 64 - 1)); [lia | reflexivity]. }
    destruct (u <? 10) eqn:Hlt.
    + apply Z.ltb_lt in Hlt. apply Hstep; [lia|]. rewrite Z.mod_small; lia.
    + apply Z.ltb_ge in Hlt. rewrite IH.
      * apply Hstep; [apply Z.div_pos; lia|].
        pose proof (Z.div_mod u 10 ltac:(lia)). lia.
      * split; [apply Z.div_pos; lia|].
        apply Z.le_trans with u; [|lia]. apply Z.div_le_upper_bound; lia.
      * rewrite Nat2Z.inj_succ, Z.pow_succ_r in Hfuel by lia.
        apply Z.div_lt_upper_bound; lia.
Qed.

Lemma ParseUint_loop_Format (u : Z) :
  0 <= u <= maxUint64 -> ParseUint_loop (FormatUint u) 0 = u.
Proof.
  intros Hu. unfold FormatUint. rewrite ParseUint_loop_digits; [reflexivity | exact Hu |].
  destruct (Z.eq_dec u 0) as [->|]; [reflexivity | apply fuel_enough; lia].
Qed.

Theorem ParseUint_FormatInt (u : Z) :
  0 <= u <= maxUint64 -> ParseUint (FormatInt u) = u.
Proof.
  intros Hu. unfold FormatInt. destruct (Z.ltb_spec u 0); [lia|].
  unfold ParseUint. pose proof (FormatUint_nonempty u).
  destruct (FormatUint u) eqn:Heq; [congruence|].
  rewrite <- Heq. now apply ParseUint_loop_Format.
Qed.

Lemma FormatUint_head_digit (u : Z) :
  0 <= u -> exists c rest, FormatUint u = String c rest /\ is_digit c = true.
Proof.
  intros Hu. pose proof (FormatUint_nonempty u) as Hne.
  pose proof (FormatUint_digits u Hu) as Hall.
  destruct (FormatUint u) as [|c rest]; [congruence|].
  simpl in Hall. apply andb_true_iff in Hall as [Hc _]. eauto.
Qed.

Theorem ParseInt_FormatInt (z : Z) :
  minInt64 <= z <= maxInt64 -> ParseInt (FormatInt z) = z.
Proof.
  unfold minInt64, maxInt64. intros Hz. unfold FormatInt.
  destruct (Z.ltb_spec z 0) as [Hneg|Hpos].
  - unfold ParseInt. cbn [byte_eqb Ascii.eqb Bool.eqb orb andb negb].
    pose proof (FormatUint_nonempty (- z)) as Hne.
    destruct (FormatUint (- z)) eqn:Heq; [congruence|]. rewrite <- Heq.
    rewrite ParseUint_loop_Format by (unfold maxUint64; lia).
    destruct (Z.gtb_spec (- z) (2 ^ 63)); lia.
  - destruct (FormatUint_head_digit z Hpos) as (c & rest & Heq & Hc).
    unfold ParseInt. rewrite Heq.
    assert (Hplus : byte_eqb c "+" = false).
    { unfold byte_eqb. destruct (Ascii.eqb_spec c "+") as [->|]; [discriminate | reflexivity]. }
    assert (Hminus : byte_eqb c "-" = false).
    { unfold byte_eqb. destruct (Ascii.eqb_spec c "-") as [->|]; [discriminate | reflexivity]. }
    rewrite Hplus, Hminus. cbn [orb andb negb]. rewrite <- Heq.
    rewrite ParseUint_loop_Format by (unfold maxUint64; lia).
    destruct (Z.geb_spec z (2 ^ 63)); lia.
Qed.

(** A rendered integer contains neither a comma nor a colon. *)
Lemma FormatInt_no (c : ascii) (z : Z) :
  is_digit c = false -> byte_eqb c "-" = false ->
  has_byte (byte_eqb c) (FormatInt z) = false.
Proof.
  intros Hc Hm.
  assert (Hall : forall s, all_bytes is_digit s = true -> has_byte (byte_eqb c) s = false).
  { induction s as [|x s IH]; simpl; [reflexivity|].
    intros H. apply andb_true_iff in H as [Hx Hs]. rewrite (IH Hs), orb_false_r.
    unfold byte_eqb. destruct (Ascii.eqb_spec c x) as [->|]; [congruence | reflexivity]. }
  unfold FormatInt. destruct (Z.ltb_spec z 0).
  - simpl. rewrite Hm. apply Hall, FormatUint_digits. lia.
  - apply Hall, FormatUint_digits. lia.
Qed.

End DecimalFacts.

(** ** The rule [uint] *)

Section Uint.

Context `{E : Env}.

Import GoRegexp StringFacts RegexpFacts DecimalFacts.

Lemma MatchString_rgx_uint (s : string) : MatchString rgx_uint s = two_digits s.
Proof.
  apply bool_eq_iff. unfold rgx_uint. rewrite MatchString_anchored.
  change (lang (Cat (Cls is_digit19) (Plus digit)) s) with
    (exists s1 s2, s = s1 +:+ s2 /\ lang (Cls is_digit19) s1 /\ lang (Plus (Cls is_digit)) s2).
  split.
  - intros (s1 & s2 & -> & (c & -> & Hc) & H2). apply lang_plus_cls in H2 as [Hne Hall].
    simpl. rewrite Hc, Hall. destruct s2; [congruence | reflexivity].
  - destruct s as [|c rest]; simpl; [discriminate|].
    intros H. apply andb_true_iff in H as [H Hall]. apply andb_true_iff in H as [Hc Hne].
    exists (String c ""), rest. repeat split.
    + exists c. auto.
    + apply lang_plus_cls. split; [|exact Hall]. intros ->. discriminate.
Qed.

Lemma two_digits_FormatInt (z : Z) : two_digits (GoFmt.FormatInt z) = (10 <=? z).
Proof.
  unfold GoFmt.FormatInt. destruct (Z.ltb_spec z 0) as [Hneg|Hpos].
  - simpl. destruct (Z.leb_spec 10 z); [lia | reflexivity].
  - destruct (Z.leb_spec 10 z) as [Hbig|Hsmall].
    + destruct (FormatUint_large z Hbig) as (c & rest & -> & Hc & Hne & Hall).
      simpl. rewrite Hc, Hall. destruct rest; [congruence | reflexivity].
    + rewrite FormatUint_small by lia. simpl. now rewrite andb_false_r.
Qed.

Lemma isNotUint_integer (unsigned : bool) (ty : string) (z : Z) :
  isNotUint (integer unsigned ty z) = negb (10 <=? z).
Proof.
  unfold isNotUint. rewrite MatchString_rgx_uint.
  destruct unsigned; simpl; now rewrite two_digits_FormatInt.
Qed.

End Uint.

(** C9. For an integer value the rule [uint] classifies the value as
    unsigned exactly when its decimal rendering has at least two digits and
    a first digit that is not 0, that is, exactly from 10 on: the predicate
    [isNotUint] is the negation of that shape; the dispatcher
    [validateNumeric] reports the "uint" violation for every other value, in
    particular for each of 1, ..., 9; and a field whose chain is the rule
    [uint] gets that violation unless its value is 0 (an empty value skips
    the rule) or at least 10. *)
Theorem uint_needs_two_digits `{E : Env}
    (rec : validation -> value -> report) (v : validation)
    (unsigned : bool) (ty : string) (z : Z) (customMsg jsonTag formattedField : string) :
  let x := integer unsigned ty z in
  isNotUint x = negb (two_digits (GoFmt.FormatInt z))
  /\ two_digits (GoFmt.FormatInt z) = (10 <=? z)
  /\ validateNumeric v x "uint" customMsg jsonTag formattedField
     = violation (negb (10 <=? z))
         (setMessage v "uint" (AStr customMsg) jsonTag formattedField [])
  /\ Forall (fun d =>
       validateNumeric v (integer unsigned ty d) "uint" customMsg jsonTag formattedField
       = violation true (setMessage v "uint" (AStr customMsg) jsonTag formattedField []))
       [1; 2; 3; 4; 5; 6; 7; 8; 9]
  /\ validateRules rec v x jsonTag formattedField ["uint"]
     = violation (negb (z =? 0) && negb (10 <=? z))
         (setMessage v "uint" (AStr "") jsonTag formattedField []).
Proof.
  intros x.
  assert (Hdisp : forall d c,
    validateNumeric v (integer unsigned ty d) "uint" c jsonTag formattedField
    = violation (negb (10 <=? d)) (setMessage v "uint" (AStr c) jsonTag formattedField [])).
  { intros d c. unfold validateNumeric. rewrite isNotUint_integer. reflexivity. }
  split; [|split; [|split; [|split]]].
  - subst x. rewrite isNotUint_integer, two_digits_FormatInt. reflexivity.
  - apply two_digits_FormatInt.
  - apply Hdisp.
  - repeat constructor; rewrite Hdisp; reflexivity.
  - cbn [validateRules]. change (getRuleAndMsg "uint") with ("uint", "").
    cbn iota beta. change (String.eqb "uint" "required") with false. cbn [andb].
    assert (Hempty : isEmpty x = (z =? 0)) by (subst x; now destruct unsigned).
    rewrite Hempty. destruct (z =? 0) eqn:Hz; cbn [negb andb].
    + reflexivity.
    + assert (Hd : dispatch rec v x "uint" "" jsonTag formattedField
                   = validateNumeric v x "uint" "" jsonTag formattedField)
        by (subst x; now destruct unsigned).
      rewrite Hd. subst x. rewrite Hdisp.
      destruct (10 <=? z); reflexivity.
Qed.

(** ** The rule [ascii] *)

Section Ascii.

Context `{E : Env}.

Import GoRegexp StringFacts RegexpFacts.

Lemma MatchString_rgx_ascii (s : string) :
  MatchString rgx_ascii s = has_byte is_ascii_byte s.
Proof.
  apply bool_eq_iff. unfold rgx_ascii. rewrite MatchString_floating. split.
  - intros (a & m & b & -> & Hm). apply lang_plus_cls in Hm as [Hne Hall].
    destruct m as [|c m]; [congruence|]. simpl in Hall.
    apply andb_true_iff in Hall as [Hc _].
    rewrite has_byte_app. simpl. rewrite Hc. now rewrite orb_true_r.
  - intros H. destruct (has_byte_split _ _ H) as (a & c & b & -> & Hc).
    exists a, (String c ""), b. split; [reflexivity|].
    apply lang_plus_cls. simpl. rewrite Hc. split; [discriminate | reflexivity].
Qed.

End Ascii.

(** C6 (the code departs from it). [isNotASCII] searches the text for a run
    of ASCII bytes: the pattern has no anchor, so the rule [ascii] reports a
    violation exactly when the text has no ASCII byte at all. The text
    [naive_text] contains a character that is not ASCII and is accepted. *)
Theorem ascii_rule_finds_any_ascii_byte `{E : Env}
    (v : validation) (ty s : string) (customMsg jsonTag formattedField : string) :
  isNotASCII (VString ty s) = negb (has_byte is_ascii_byte s)
  /\ validateString v (VString ty s) "ascii" customMsg jsonTag formattedField
     = violation (negb (has_byte is_ascii_byte s))
         (setMessage v "string" (AStr customMsg) jsonTag formattedField [])
  /\ all_bytes is_ascii_byte naive_text = false
  /\ validateString v (VString "string" naive_text) "ascii" customMsg jsonTag formattedField
     = M_ret false.
Proof.
  assert (H : forall t x, isNotASCII (VString t x) = negb (has_byte is_ascii_byte x)).
  { intros t x. unfold isNotASCII. now rewrite MatchString_rgx_ascii. }
  assert (Hv : forall t x, validateString v (VString t x) "ascii" customMsg jsonTag formattedField
     = violation (negb (has_byte is_ascii_byte x))
         (setMessage v "string" (AStr customMsg) jsonTag formattedField [])).
  { intros t x. unfold validateString. rewrite H. reflexivity. }
  split; [apply H | split; [apply Hv | split; [reflexivity|]]].
  rewrite Hv. reflexivity.
Qed.

(** ** The laws of the message monad *)

Lemma M_bind_ret_l {A B : Type} (a : A) (f : A -> M B) : M_bind (M_ret a) f = f a.
Proof. unfold M_bind, M_ret. now destruct (f a). Qed.

Lemma M_bind_lift_Ok {A B : Type} (a : A) (f : A -> M B) : M_bind (lift (Ok a)) f = f a.
Proof. apply M_bind_ret_l. Qed.

Lemma M_bind_lift_Panic {A B : Type} (d : string) (f : A -> M B) :
  M_bind (lift (Panic d)) f = lift (Panic d).
Proof. reflexivity. Qed.

Lemma M_bind_ret_r {A : Type} (m : M A) : M_bind m M_ret = m.
Proof. destruct m as [w [a|d]]; simpl; [now rewrite app_nil_r | reflexivity]. Qed.

Lemma M_bind_assoc {A B C : Type} (m : M A) (f : A -> M B) (g : B -> M C) :
  M_bind (M_bind m f) g = M_bind m (fun a => M_bind (f a) g).
Proof.
  destruct m as [w [a|d]]; simpl; [|reflexivity].
  destruct (f a) as [w1 [b|d]]; simpl; [|reflexivity].
  destruct (g b) as [w2 r]. now rewrite app_assoc.
Qed.

(** C5 (the code departs from it). The rules [rfc3339], [datetime] and
    [dateonly] report a violation exactly when [time.Parse] fails under the
    layout of the rule. [isNotDatetime] knows the layout of [timeonly] too,
    but the [switch] of [validateString] has no case for that name: the rule
    [timeonly] reports no violation, whatever the text. *)
Theorem timeonly_is_never_checked `{E : Env}
    (v : validation) (ty s : string) (customMsg jsonTag formattedField : string) :
  let x := VString ty s in
  let set key := setMessage v key (AStr customMsg) jsonTag formattedField [] in
  validateString v x "rfc3339" customMsg jsonTag formattedField
  = violation (negb (time_Parse RFC3339 s)) (set "date.rfc3339")
  /\ validateString v x "datetime" customMsg jsonTag formattedField
     = violation (negb (time_Parse DateTime s)) (set "date.datetime")
  /\ validateString v x "dateonly" customMsg jsonTag formattedField
     = violation (negb (time_Parse DateOnly s)) (set "date.dateonly")
  /\ isNotDatetime x "timeonly" = Ok (negb (time_Parse TimeOnly s))
  /\ validateString v x "timeonly" customMsg jsonTag formattedField = M_ret false.
Proof.
  intros x set. repeat split.
  - unfold validateString. cbn [String.eqb Ascii.eqb Bool.eqb orb andb].
    unfold isNotDatetime. cbn [String.eqb Ascii.eqb Bool.eqb]. now rewrite M_bind_lift_Ok.
  - unfold validateString. cbn [String.eqb Ascii.eqb Bool.eqb orb andb].
    unfold isNotDatetime. cbn [String.eqb Ascii.eqb Bool.eqb]. now rewrite M_bind_lift_Ok.
  - unfold validateString. cbn [String.eqb Ascii.eqb Bool.eqb orb andb].
    unfold isNotDatetime. cbn [String.eqb Ascii.eqb Bool.eqb]. now rewrite M_bind_lift_Ok.
Qed.

(** ** Reading a parameterised rule *)

Lemma SplitN2_app (c : ascii) (a b : string) :
  has_byte (byte_eqb c) a = false ->
  GoStrings.SplitN (a +:+ String c b) (String c "") 2 = [a; b].
Proof. intros Ha. cbn [GoStrings.SplitN]. now rewrite StringFacts.Cut_app. Qed.

Lemma SplitN2_none (c : ascii) (a : string) :
  has_byte (byte_eqb c) a = false -> GoStrings.SplitN a (String c "") 2 = [a].
Proof. intros Ha. cbn [GoStrings.SplitN]. now rewrite StringFacts.Cut_none. Qed.

Lemma Contains_app (c : ascii) (a b : string) :
  GoStrings.Contains (a +:+ String c b) (String c "") = true.
Proof.
  induction a as [|x a IH].
  - cbn [String.append GoStrings.Contains]. rewrite StringFacts.prefix_one.
    unfold byte_eqb. now rewrite Ascii.eqb_refl.
  - cbn [String.append GoStrings.Contains]. rewrite IH. apply orb_true_r.
Qed.

(** C7 (the code departs from it). On an integer field the rule
    [enum:t1,...,tn] never compares the decimal rendering with the tokens:
    [isNotEnum] asserts that the value is a [string], which panics for every
    integer, whatever the tokens. The dispatcher neither reports an enum
    violation nor passes; the goroutine of the field turns the panic into
    the message of the field, also when the value is one of the tokens. *)
Theorem enum_on_integer_panics `{E : Env}
    (v : validation) (unsigned : bool) (ty : string) (z : Z)
    (tokens customMsg jsonTag formattedField : string) :
  let x := integer unsigned ty z in
  let fault := "interface conversion: interface {} is " +:+ ty +:+ ", not string" in
  isNotEnum x (GoStrings.Split tokens ",") = Panic fault
  /\ validateNumericParams v x ("enum:" +:+ tokens) customMsg jsonTag formattedField
     = lift (Panic fault)
  /\ validateNumeric v x ("enum:" +:+ tokens) customMsg jsonTag formattedField
     = lift (Panic fault)
  /\ ValidateStruct (New None)
       (VStructRef "*Request" Pointer
          [Field (Some "level") (Some "enum:1,2,3") (VInt "int" 2)])
     = Some {[ "level" :=
               AStr "validation panic: interface conversion: interface {} is int, not string" ]}.
Proof.
  intros x fault.
  assert (Henum : forall l, isNotEnum x l = Panic fault) by (subst x; now destruct unsigned).
  assert (Hparams :
    validateNumericParams v x ("enum:" +:+ tokens) customMsg jsonTag formattedField
    = lift (Panic fault)).
  { unfold validateNumericParams.
    change ("enum:" +:+ tokens) with ("enum" +:+ String ":" tokens).
    rewrite SplitN2_app by reflexivity.
    cbn [index lookup list_lookup]. rewrite M_bind_lift_Ok.
    cbn [String.eqb Ascii.eqb Bool.eqb orb]. rewrite M_bind_lift_Ok.
    rewrite Henum. reflexivity. }
  split; [apply Henum | split; [exact Hparams | split]].
  - unfold validateNumeric.
    change ("enum:" +:+ tokens) with ("enum" +:+ String ":" tokens) at 1 2 3.
    rewrite Contains_app. cbn [String.append String.eqb Ascii.eqb Bool.eqb].
    exact Hparams.
  - vm_compute. reflexivity.
Qed.

(** ** The size rule of a file *)

Section FileSize.

Context `{E : Env}.
Variable rec : validation -> value -> report.

Import GoRegexp StringFacts RegexpFacts DecimalFacts.

Lemma wrap64_small (z : Z) :
  GoStrconv.minInt64 <= z <= GoStrconv.maxInt64 -> wrap64 z = z.
Proof.
  unfold GoStrconv.minInt64, GoStrconv.maxInt64, wrap64. intros Hz.
  rewrite Z.mod_small; lia.
Qed.

Lemma lang_amount (a : Z) : 1 <= a -> lang fileSize_amount (GoFmt.FormatInt a).
Proof.
  intros Ha. unfold GoFmt.FormatInt. destruct (Z.ltb_spec a 0); [lia|].
  destruct (Z.le_gt_cases 10 a) as [Hbig|Hsmall].
  - destruct (FormatUint_large a Hbig) as (c & rest & -> & Hc & Hne & Hall).
    right. exists (String c ""), rest. repeat split.
    + exists c. auto.
    + apply lang_plus_cls. auto.
  - rewrite FormatUint_small by lia. left. eexists. split; [reflexivity|].
    apply digit_char_is_digit19. lia.
Qed.

Lemma submatch_two (a u : string) :
  String.length u = 2%nat ->
  fileSize_submatch (a +:+ u) = None \/ fileSize_submatch (a +:+ u) = Some (a, u).
Proof.
  intros Hu. unfold fileSize_submatch.
  destruct (MatchString fileSizeRegex (a +:+ u)); [right | now left].
  rewrite app_length, Hu, Nat.add_sub, take_app, drop_app. reflexivity.
Qed.

Lemma submatch_amount (a : Z) (u : string) :
  1 <= a -> String.length u = 2%nat -> accepts fileSize_unit u = true ->
  fileSize_submatch (GoFmt.FormatInt a +:+ u) = Some (GoFmt.FormatInt a, u).
Proof.
  intros Ha Hlen Hu.
  destruct (submatch_two (GoFmt.FormatInt a) u Hlen) as [Hnone|Hsome]; [|exact Hsome].
  exfalso. unfold fileSize_submatch in Hnone.
  assert (Hm : MatchString fileSizeRegex (GoFmt.FormatInt a +:+ u) = true).
  { unfold fileSizeRegex. apply MatchString_anchored.
    exists (GoFmt.FormatInt a), u. repeat split.
    - apply lang_amount, Ha.
    - apply accepts_spec, Hu. }
  rewrite Hm in Hnone. discriminate.
Qed.

(** What [validatePointer] does with a size rule on a file. *)
Lemma validatePointer_size (v : validation) (ty : string) (k : RefKind) (fh : FileHeader)
    (r1 customMsg jsonTag formattedField : string) :
  validatePointer rec v (VFile ty k fh) ("size:" +:+ r1) customMsg jsonTag formattedField
  = match fileSize_submatch r1 with
    | Some (size, symbol) =>
        violation (size_violated fh size symbol)
          (setMessage v (snd (size_limit size symbol)) (AStr customMsg) jsonTag
             formattedField [size])
    | None => M_ret false
    end.
Proof.
  unfold validatePointer. cbn [as_FileHeader].
  change ("size:" +:+ r1) with ("size" +:+ String ":" r1).
  rewrite Contains_app, !SplitN2_app by reflexivity.
  cbn [String.append String.eqb Ascii.eqb Bool.eqb index lookup list_lookup].
  rewrite !M_bind_lift_Ok. reflexivity.
Qed.

End FileSize.

(** C8. On a file the rule [size:<amount><unit>] takes the limit
    [amount * 1024], [amount * 1024^2] or [amount * 1024^3] bytes for the
    units kb, mb and gb, and reports a violation exactly when the file is
    strictly larger than it (for an amount from 1 on whose limit fits
    [int64]); whatever the parameter, a violation is reported only for a file
    strictly larger than the computed limit. [size:2mb] accepts a file of
    2 * 1024 * 1024 bytes and rejects one byte more. The unit tb passes the
    pattern but has no multiplier: [size:<amount>tb] never reports a
    violation. *)
Theorem file_size_limit_is_binary `{E : Env}
    (rec : validation -> value -> report) (v : validation) (ty : string) (k : RefKind)
    (fh : FileHeader) (a : Z) (u : size_unit) (upper : bool)
    (amount param customMsg jsonTag formattedField : string) :
  1 <= a -> a * unit_bytes u <= GoStrconv.maxInt64 ->
  let file size := VFile ty k {| Size := size; opens := opens fh; content := content fh |} in
  let set key values := setMessage v key (AStr customMsg) jsonTag formattedField values in
  validatePointer rec v (VFile ty k fh)
    ("size:" +:+ GoFmt.FormatInt a +:+ unit_text u upper) customMsg jsonTag formattedField
  = violation (a * unit_bytes u <? Size fh) (set (unit_key u) [GoFmt.FormatInt a])
  /\ (validatePointer rec v (VFile ty k fh) ("size:" +:+ param) customMsg jsonTag formattedField
      = M_ret false
      \/ exists size symbol,
           fileSize_submatch param = Some (size, symbol)
           /\ (size_limit size symbol).1 < Size fh
           /\ validatePointer rec v (VFile ty k fh) ("size:" +:+ param) customMsg jsonTag
                formattedField
              = violation true (set (size_limit size symbol).2 [size]))
  /\ validatePointer rec v (file (2 * 1024 * 1024)) "size:2mb" customMsg jsonTag formattedField
     = M_ret false
  /\ validatePointer rec v (file (2 * 1024 * 1024 + 1)) "size:2mb" customMsg jsonTag
       formattedField
     = violation true (set "size.file_mb" ["2"])
  /\ validatePointer rec v (VFile ty k fh) ("size:" +:+ amount +:+ tb_text upper)
       customMsg jsonTag formattedField
     = M_ret false.
Proof.
  intros Ha Hfit file set.
  assert (Hbytes : 1 <= unit_bytes u) by (destruct u; simpl; lia).
  split; [|split; [|split; [|split]]].
  - rewrite validatePointer_size, submatch_amount;
      [| exact Ha | now destruct u, upper | now destruct u, upper].
    assert (Hlimit : size_limit (GoFmt.FormatInt a) (unit_text u upper)
                     = (a * unit_bytes u, unit_key u)).
    { unfold size_limit. rewrite DecimalFacts.ParseInt_FormatInt
        by (unfold GoStrconv.minInt64, GoStrconv.maxInt64 in *; nia).
      assert (Hwrap : wrap64 (unit_bytes u * a) = a * unit_bytes u).
      { rewrite wrap64_small; [lia|].
        unfold GoStrconv.minInt64, GoStrconv.maxInt64 in *. nia. }
      destruct u, upper; exact (f_equal (fun z => (z, _)) Hwrap). }
    unfold size_violated. rewrite Hlimit. cbn [snd]. f_equal.
    rewrite !Z.gtb_ltb. destruct (Z.ltb_spec 0 (a * unit_bytes u)); [reflexivity | nia].
  - rewrite validatePointer_size. destruct (fileSize_submatch param) as [[size symbol]|];
      [|now left].
    destruct (size_violated fh size symbol) eqn:Hv; [right | now left].
    exists size, symbol. repeat split.
    unfold size_violated in Hv. destruct (size_limit size symbol) as [limit key].
    apply andb_true_iff in Hv as [_ Hv]. cbn [fst]. lia.
  - subst file. cbn beta. change "size:2mb" with ("size:" +:+ "2mb").
    rewrite validatePointer_size. reflexivity.
  - subst file. cbn beta. change "size:2mb" with ("size:" +:+ "2mb").
    rewrite validatePointer_size. reflexivity.
  - rewrite validatePointer_size.
    destruct (submatch_two amount (tb_text upper)) as [-> | ->];
      [now destruct upper | reflexivity |].
    unfold size_violated. now destruct upper.
Qed.

(** The limit of [size:2mb], against a file of one byte more. *)
Lemma two_megabytes_and_one_byte :
  validatePointer (fun _ _ => None) (New None)
    (VFile "*multipart.FileHeader" Pointer
       {| Size := 2 * 1024 * 1024 + 1; opens := true; content := "" |})
    ("size:" +:+ GoFmt.FormatInt 2 +:+ unit_text MB false) "" "avatar" "avatar"
  = violation (2 * unit_bytes MB <? 2 * 1024 * 1024 + 1)
      (setMessage (New None) (unit_key MB) (AStr "") "avatar" "avatar" [GoFmt.FormatInt 2]).
Proof.
  exact (proj1 (file_size_limit_is_binary (fun _ _ => None) (New None)
                  "*multipart.FileHeader" Pointer
                  {| Size := 2 * 1024 * 1024 + 1; opens := true; content := "" |}
                  2 MB false "" "" "" "avatar" "avatar"
                  ltac:(lia) ltac:(vm_compute; discriminate))).
Defined.

(** ** Sending and the flag of a dispatcher *)

Lemma setMessage_sends `{E : Env} (v : validation) (ruleKey : string) (customMsg : any)
    (msgKey field : string) (values : list string) :
  exists payload, setMessage v ruleKey customMsg msgKey field values = send (Msg msgKey payload).
Proof.
  unfold setMessage. destruct (String.eqb ruleKey "empty"); [eauto|].
  destruct (shown customMsg); eauto.
Qed.

(** [if dispatcher(..) { return true }] after a dispatcher that ends in
    [violation]. *)
Lemma bind_violation (b : bool) (set : M unit) (k : M bool) :
  (exists m, set = send m) ->
  M_bind (violation b set) (fun returned => if returned then M_ret true else k)
  = if b then violation true set else k.
Proof.
  intros [m ->]. destruct b; unfold violation.
  - reflexivity.
  - apply M_bind_ret_l.
Qed.

Lemma bind_violation_ret (b : bool) (set : M unit) :
  (exists m, set = send m) ->
  M_bind (violation b set) (fun returned => if returned then M_ret true else M_ret false)
  = violation b set.
Proof. intros H. rewrite bind_violation by exact H. now destruct b. Qed.

(** ** Comparisons of integers *)

Ltac zbool :=
  repeat match goal with
         | |- context [Z.leb ?a ?b] => destruct (Z.leb_spec a b)
         | |- context [Z.ltb ?a ?b] => destruct (Z.ltb_spec a b)
         | |- context [Z.geb ?a ?b] => destruct (Z.geb_spec a b)
         | |- context [Z.gtb ?a ?b] => destruct (Z.gtb_spec a b)
         end;
  simpl; try reflexivity; try lia.

(** ** The rules [same] and [match] *)

Section Same.

Context `{E : Env}.


Lemma sends_of_setMessage (v : validation) (key : string) (customMsg : any)
    (msgKey field : string) (values : list string) :
  exists m, setMessage v key customMsg msgKey field values = send m.
Proof.
  destruct (setMessage_sends v key customMsg msgKey field values) as [payload H]. eauto.
Qed.


End Same.



(** ** Chains *)

Lemma concat_length (rules : list string) :
  (length rules <= S (String.length (String.concat "|" rules)))%nat.
Proof.
  induction rules as [|a rest IH]; [simpl; lia|].
  destruct rest as [|b rest]; [simpl; lia|].
  change (String.concat "|" (a :: b :: rest))
    with (a +:+ String "|" (String.concat "|" (b :: rest))).
  rewrite StringFacts.app_length. cbn [String.length length] in *. lia.
Qed.

Lemma SplitN_step (s sep : string) (n : nat) :
  GoStrings.SplitN s sep (S (S n))
  = match GoStrings.Cut s sep with
    | Some (a, b) => a :: GoStrings.SplitN b sep (S n)
    | None => [s]
    end.
Proof. reflexivity. Qed.

Lemma SplitN_concat (rules : list string) (n : nat) :
  rules <> [] -> Forall no_bar rules -> (length rules <= n)%nat ->
  GoStrings.SplitN (String.concat "|" rules) "|" n = rules.
Proof.
  revert n. induction rules as [|a rest IH]; intros n Hne Hall Hlen; [congruence|].
  inversion Hall as [|? ? Ha Hrest]; subst.
  destruct rest as [|b rest].
  - simpl in *. destruct n as [|[|n]]; [lia | reflexivity |].
    rewrite SplitN_step. now rewrite StringFacts.Cut_none.
  - change (String.concat "|" (a :: b :: rest))
      with (a +:+ String "|" (String.concat "|" (b :: rest))).
    destruct n as [|[|n]]; [simpl in Hlen; lia | simpl in Hlen; lia |].
    rewrite SplitN_step, StringFacts.Cut_app by exact Ha.
    f_equal. apply IH; [discriminate | exact Hrest | simpl in *; lia].
Qed.

(** Splitting the chain written with "|" gives back its elements. *)
Lemma Split_concat (rules : list string) :
  rules <> [] -> Forall no_bar rules ->
  GoStrings.Split (String.concat "|" rules) "|" = rules.
Proof.
  intros Hne Hall. unfold GoStrings.Split.
  apply SplitN_concat; [exact Hne | exact Hall | apply concat_length].
Qed.

(** ** The rule [required] on an empty value *)

Section Required.

Context `{E : Env}.
Variable rec : validation -> value -> report.

Lemma required_key_spec (v : validation) (x : value) (c j f : string) :
  match Reflect.Kind_of x with
  | KBool => _ <- setMessage v "bool" (AStr c) j f [] ;; M_ret true
  | _ => _ <- setMessage v "required" (AStr c) j f [] ;; M_ret true
  end = violation true (setMessage v (required_key x) (AStr c) j f []).
Proof. unfold required_key. now destruct (Reflect.Kind_of x). Qed.

(** On an empty value the loop stops at the first [required], and no
    other rule is evaluated. *)
Lemma validateRules_empty (v : validation) (x : value) (j f : string) (rules : list string) :
  isEmpty x = true ->
  validateRules rec v x j f rules
  = match first_required rules with
    | Some c => violation true (setMessage v (required_key x) (AStr c) j f [])
    | None => M_ret false
    end.
Proof.
  intros Hx. induction rules as [|r rest IH]; [reflexivity|].
  cbn [validateRules first_required]. destruct (getRuleAndMsg r) as [rule c]. cbn [fst snd].
  rewrite Hx. destruct (String.eqb rule "required"); cbn [andb negb].
  - apply required_key_spec.
  - rewrite M_bind_ret_l. exact IH.
Qed.

Lemma first_required_In (rules : list string) (r : string) :
  In r rules -> (getRuleAndMsg r).1 = "required" ->
  exists c, first_required rules = Some c.
Proof.
  induction rules as [|a rest IH]; intros Hin Hr; [contradiction|].
  cbn [first_required]. destruct (String.eqb_spec (getRuleAndMsg a).1 "required") as [_|Hne].
  - eauto.
  - destruct Hin as [->|Hin]; [congruence | now apply IH].
Qed.

Lemma first_required_unique (rules : list string) (r : string) :
  In r rules -> (getRuleAndMsg r).1 = "required" ->
  (forall r', In r' rules -> (getRuleAndMsg r').1 = "required" -> r' = r) ->
  first_required rules = Some (getRuleAndMsg r).2.
Proof.
  induction rules as [|a rest IH]; intros Hin Hr Huniq; [contradiction|].
  cbn [first_required]. destruct (String.eqb_spec (getRuleAndMsg a).1 "required") as [Ha|Hne].
  - now rewrite (Huniq a (or_introl eq_refl) Ha).
  - destruct Hin as [->|Hin]; [congruence|].
    apply IH; [exact Hin | exact Hr |]. intros r' Hin'. apply Huniq. now right.
Qed.

(** The outcome of a field whose value is empty. *)
Lemma validateStruct_empty (v : validation) (j : string) (rules : list string) (x : value) :
  elemZero v = false -> isEmpty x = true -> rules <> [] -> Forall no_bar rules ->
  validateStruct rec v (field_of j rules x)
  = match first_required rules with
    | Some c => setMessage v (required_key x) (AStr c) j (formatFieldName j) []
    | None => setMessage v "empty" (AStr "") j (formatFieldName j) []
    end.
Proof.
  intros Hzero Hx Hne Hall. unfold validateStruct, field_of.
  cbn [validate_tag json_tag field_value Tag_Get default from_option id]. rewrite Hzero.
  rewrite Split_concat by assumption. rewrite validateRules_empty by exact Hx.
  destruct (first_required rules) as [c|].
  - destruct (sends_of_setMessage v (required_key x) (AStr c) j (formatFieldName j) [])
      as [m ->]. reflexivity.
  - now rewrite M_bind_ret_l.
Qed.

End Required.

(** C2. A field whose value is empty and whose chain has the rule
    [required] somewhere sends exactly one message, the required-violation
    (under the key "bool" for a boolean field), with the custom message of
    the first [required] of the chain; no other rule of the chain is
    evaluated. When the chain has one [required], reordering the chain
    leaves the outcome of the field unchanged. *)
Theorem required_wins_on_an_empty_value `{E : Env}
    (rec : validation -> value -> report) (v : validation) (j : string) (x : value)
    (rules : list string) (r : string) :
  elemZero v = false ->
  isEmpty x = true ->
  Forall no_bar rules ->
  In r rules ->
  (getRuleAndMsg r).1 = "required" ->
  let outcome c := setMessage v (required_key x) (AStr c) j (formatFieldName j) [] in
  (exists c,
     first_required rules = Some c
     /\ validateStruct rec v (field_of j rules x) = outcome c
     /\ (exists payload, outcome c = send (Msg j payload))
     /\ (exists payload, task rec v (field_of j rules x) = [Msg j payload]))
  /\ required_key x = match x with VBool _ _ => "bool" | _ => "required" end
  /\ ((forall r', In r' rules -> (getRuleAndMsg r').1 = "required" -> r' = r) ->
      forall rules', Permutation rules rules' ->
        validateStruct rec v (field_of j rules' x) = outcome (getRuleAndMsg r).2
        /\ task rec v (field_of j rules' x) = task rec v (field_of j rules x)).
Proof.
  intros Hzero Hx Hall Hin Hr outcome.
  assert (Hne : rules <> []) by (intros ->; contradiction).
  assert (Hfield : forall chain c, chain <> [] -> Forall no_bar chain ->
            first_required chain = Some c ->
            validateStruct rec v (field_of j chain x) = outcome c
            /\ exists payload, outcome c = send (Msg j payload)
                               /\ task rec v (field_of j chain x) = [Msg j payload]).
  { intros chain c Hne' Hall' Hc.
    pose proof (validateStruct_empty rec v j chain x Hzero Hx Hne' Hall') as Hv.
    rewrite Hc in Hv. split; [exact Hv|].
    destruct (setMessage_sends v (required_key x) (AStr c) j (formatFieldName j) [])
      as [payload Hsend].
    exists payload. split; [exact Hsend|].
    unfold task. rewrite Hv. fold (outcome c). unfold outcome. rewrite Hsend. reflexivity. }
  split; [|split].
  - destruct (first_required_In rules r Hin Hr) as [c Hc].
    destruct (Hfield rules c Hne Hall Hc) as (Hv & payload & Hsend & Htask).
    exists c. repeat split; eauto.
  - unfold required_key. destruct x; try reflexivity;
      match goal with
      | k : RefKind |- _ => now destruct k
      | to : pointee |- _ => now destruct to
      end.
  - intros Huniq rules' Hperm.
    pose proof (first_required_unique rules r Hin Hr Huniq) as Hc.
    assert (Hc' : first_required rules' = Some (getRuleAndMsg r).2).
    { apply first_required_unique.
      - eapply Permutation_in; eassumption.
      - exact Hr.
      - intros r' Hin'. apply Huniq. eapply Permutation_in; [symmetry|]; eassumption. }
    assert (Hne' : rules' <> []).
    { intros ->. symmetry in Hperm. apply Permutation_nil in Hperm. congruence. }
    assert (Hall' : Forall no_bar rules').
    { now rewrite <- Hperm. }
    destruct (Hfield rules' _ Hne' Hall' Hc') as (Hv' & p' & Hs' & Ht').
    destruct (Hfield rules _ Hne Hall Hc) as (_ & p & Hs & Ht).
    split; [exact Hv'|]. rewrite Ht, Ht'. rewrite Hs in Hs'.
    unfold send in Hs'. now injection Hs' as ->.
Qed.

(** The chain of the scenario of the specification with [required] moved to its
    end, on an empty name: the outcome is the custom message of [required]. *)
Lemma required_at_the_end_of_the_chain :
  validateStruct (fun _ _ => None) (New None)
    (field_of "name" ["string"; "from:1,5"; "required>Name is required"] (VString "string" ""))
  = send (Msg "name" (AStr "Name is required")).
Proof.
  exact (proj1
    (proj2 (proj2
       (required_wins_on_an_empty_value (fun _ _ => None) (New None) "name"
          (VString "string" "") ["required>Name is required"; "string"; "from:1,5"]
          "required>Name is required"
          eq_refl eq_refl
          ltac:(repeat constructor)
          ltac:(left; reflexivity)
          eq_refl))
       ltac:(intros r' [<-|[<-|[<-|[]]]] Hr'; first [reflexivity | discriminate Hr'])
       ["string"; "from:1,5"; "required>Name is required"]
       ltac:(eapply perm_trans; [apply perm_swap | apply perm_skip, perm_swap]))).
Defined.

(** ** The aggregator *)

Section Aggregator.

Lemma collect_foldl (msgs : list message) : collect msgs = foldl keep ∅ msgs.
Proof. reflexivity. Qed.

Lemma foldl_keep_lookup_other (msgs : list message) (m0 : gmap string any) (k : string) :
  k ∉ shown_keys msgs -> foldl keep m0 msgs !! k = m0 !! k.
Proof.
  revert m0. induction msgs as [|m msgs IH]; intros m0 Hk; [reflexivity|].
  cbn [foldl]. unfold shown_keys in *. rewrite filter_cons in Hk.
  unfold keep at 2. destruct (shown (V m)) eqn:Hm.
  - rewrite decide_True in Hk by reflexivity. cbn [map] in Hk.
    apply not_elem_of_cons in Hk as [Hne Hk].
    rewrite IH by exact Hk. now rewrite lookup_insert_ne.
  - rewrite decide_False in Hk by congruence. now apply IH.
Qed.

(** A shown message leaves an entry, unless a later one overwrites it. *)
Lemma foldl_keep_lookup (before after : list message) (m : message) (m0 : gmap string any) :
  shown (V m) = true -> K m ∉ shown_keys after ->
  foldl keep m0 (before ++ m :: after) !! K m = Some (V m).
Proof.
  intros Hm Hafter. rewrite foldl_app. cbn [foldl].
  rewrite foldl_keep_lookup_other by exact Hafter.
  unfold keep at 1. rewrite Hm. apply lookup_insert_eq.
Qed.

Lemma foldl_keep_empty (msgs : list message) (m0 : gmap string any) :
  foldl keep m0 msgs = ∅ -> m0 = ∅ /\ shown_keys msgs = [].
Proof.
  revert m0. induction msgs as [|m msgs IH]; intros m0 H; [auto|].
  cbn [foldl] in H. apply IH in H as [Hkeep Hrest].
  unfold keep in Hkeep. unfold shown_keys in *. rewrite filter_cons.
  destruct (shown (V m)) eqn:Hm.
  - exfalso. exact (insert_non_empty m0 (K m) (V m) Hkeep).
  - rewrite decide_False by congruence. auto.
Qed.

Lemma foldl_keep_silent (msgs : list message) (m0 : gmap string any) :
  shown_keys msgs = [] -> foldl keep m0 msgs = m0.
Proof.
  revert m0. induction msgs as [|m msgs IH]; intros m0 H; [reflexivity|].
  cbn [foldl]. unfold shown_keys in *. rewrite filter_cons in H. unfold keep at 2.
  destruct (shown (V m)) eqn:Hm.
  - rewrite decide_True in H by reflexivity. discriminate.
  - rewrite decide_False in H by congruence. now apply IH.
Qed.

(** The report is empty exactly when no message on the channel is shown. *)
Lemma collect_empty_iff (msgs : list message) :
  collect msgs = ∅ <-> shown_keys msgs = [].
Proof.
  rewrite collect_foldl. split.
  - intros H. now apply foldl_keep_empty in H.
  - apply foldl_keep_silent.
Qed.

(** Every entry of the report is a shown message of the channel. *)
Lemma foldl_keep_entry (msgs : list message) (m0 : gmap string any) (k : string) (x : any) :
  foldl keep m0 msgs !! k = Some x ->
  m0 !! k = Some x \/ exists m, m ∈ msgs /\ K m = k /\ V m = x /\ shown x = true.
Proof.
  revert m0. induction msgs as [|m msgs IH]; intros m0 H; [now left|].
  cbn [foldl] in H. apply IH in H as [H | (m' & Hin & Hk & Hv & Hs)].
  - unfold keep in H. destruct (shown (V m)) eqn:Hm; [|now left].
    destruct (decide (K m = k)) as [<-|Hne].
    + rewrite lookup_insert_eq in H. injection H as <-.
      right. exists m. repeat split; [left | exact Hm].
    + rewrite lookup_insert_ne in H by exact Hne. now left.
  - right. exists m'. repeat split; [right; exact Hin | exact Hk | exact Hv | exact Hs].
Qed.

Lemma shown_keys_Permutation (msgs msgs' : list message) :
  msgs ≡ₚ msgs' -> shown_keys msgs ≡ₚ shown_keys msgs'.
Proof. intros H. unfold shown_keys. now rewrite H. Qed.

Lemma keep_swap (m0 : gmap string any) (a b : message) :
  (shown (V a) = true -> shown (V b) = true -> K a <> K b) ->
  keep (keep m0 a) b = keep (keep m0 b) a.
Proof.
  intros Hne. unfold keep. destruct (shown (V a)) eqn:Ha, (shown (V b)) eqn:Hb;
    try reflexivity.
  apply insert_insert_ne. intros Heq. now apply Hne.
Qed.

(** When the shown messages have different keys, the report does not
    depend on the order in which the goroutines send. *)
Lemma foldl_keep_Permutation (msgs msgs' : list message) (m0 : gmap string any) :
  msgs ≡ₚ msgs' -> NoDup (shown_keys msgs) -> foldl keep m0 msgs = foldl keep m0 msgs'.
Proof.
  intros Hperm. revert m0.
  induction Hperm as [|a l l' Hperm IH|a b l|l l' l'' H1 IH1 H2 IH2]; intros m0 Hnd.
  - reflexivity.
  - cbn [foldl]. apply IH. unfold shown_keys in *. rewrite filter_cons in Hnd.
    destruct (decide (shown (V a) = true)); [|exact Hnd].
    cbn [map] in Hnd. now apply NoDup_cons in Hnd as [_ Hnd].
  - cbn [foldl]. f_equal. apply keep_swap. intros Ha Hb Heq.
    unfold shown_keys in Hnd. rewrite !filter_cons in Hnd.
    rewrite !decide_True in Hnd by assumption. cbn [map] in Hnd.
    apply NoDup_cons in Hnd as [Hnotin _]. apply Hnotin. rewrite Heq. left.
  - rewrite IH1 by exact Hnd. apply IH2.
    now rewrite <- (shown_keys_Permutation l l' H1).
Qed.

Theorem collect_Permutation (msgs msgs' : list message) :
  msgs ≡ₚ msgs' -> NoDup (shown_keys msgs) -> collect msgs = collect msgs'.
Proof. intros. rewrite !collect_foldl. now apply foldl_keep_Permutation. Qed.

End Aggregator.

(** ** What a goroutine reads of the record *)

Lemma M_bind_ext {A B : Type} (m m' : M A) (k k' : A -> M B) :
  m = m' -> (forall a, k a = k' a) -> M_bind m k = M_bind m' k'.
Proof. intros <- H. destruct m as [w [a|d]]; simpl; [now rewrite H | reflexivity]. Qed.

Section Views.

Context `{E : Env}.
Variable rec : validation -> value -> report.
Variables v v' : validation.

(** Two contexts that differ at most in the chains of the fields. *)
Hypothesis Hlocale : locale v = locale v'.
Hypothesis Hdb : dbConfig v = dbConfig v'.
Hypothesis Hzero : elemZero v = elemZero v'.
Hypothesis Hget : forall t, getTagAndValue v t = getTagAndValue v' t.

Lemma setMessage_view (key : string) (c : any) (msgKey field : string) (values : list string) :
  setMessage v key c msgKey field values = setMessage v' key c msgKey field values.
Proof. unfold setMessage, render, getMessage. now rewrite Hlocale. Qed.

Lemma generateMessage_view (key : string) (c : any) (field : string) (values : list string) :
  generateMessage v key c field values = generateMessage v' key c field values.
Proof. unfold generateMessage, render, getMessage. now rewrite Hlocale. Qed.

Lemma nested_view (x : value) : nested rec v x = nested rec v' x.
Proof. unfold nested. now rewrite Hlocale, Hdb. Qed.

Ltac view :=
  repeat first
    [ reflexivity
    | rewrite setMessage_view
    | rewrite generateMessage_view
    | rewrite nested_view
    | rewrite Hget
    | rewrite Hdb
    | apply M_bind_ext; [|intros]
    | match goal with
      | |- (if ?b then _ else _) = (if ?b then _ else _) => destruct b
      | |- match ?x with _ => _ end = match ?x with _ => _ end => destruct x
      end ].

Lemma validateStringParams_view (x : value) (rule c j f : string) :
  validateStringParams v x rule c j f = validateStringParams v' x rule c j f.
Proof. unfold validateStringParams. view. Qed.

Lemma validateString_view (x : value) (rule c j f : string) :
  validateString v x rule c j f = validateString v' x rule c j f.
Proof. unfold validateString. rewrite validateStringParams_view. view. Qed.

Lemma validateNumericParams_view (x : value) (rule c j f : string) :
  validateNumericParams v x rule c j f = validateNumericParams v' x rule c j f.
Proof. unfold validateNumericParams, numeric_case. view. Qed.

Lemma validateNumeric_view (x : value) (rule c j f : string) :
  validateNumeric v x rule c j f = validateNumeric v' x rule c j f.
Proof. unfold validateNumeric. rewrite validateNumericParams_view. view. Qed.

Lemma validateFloat_view (x : value) (rule c j f : string) :
  validateFloat v x rule c j f = validateFloat v' x rule c j f.
Proof. unfold validateFloat. rewrite validateNumericParams_view. view. Qed.

Lemma validateElem_view (ek : Kind) (x : value) (i : Z) (rule c f : string) :
  validateElem rec v ek x i rule c f = validateElem rec v' ek x i rule c f.
Proof. unfold validateElem. view. Qed.

Lemma validateElems_view (ek : Kind) (xs : list value) (i : Z) (rule c f : string) :
  validateElems rec v ek xs i rule c f = validateElems rec v' ek xs i rule c f.
Proof.
  revert i. induction xs as [|x xs IH]; intros i; [reflexivity|].
  cbn [validateElems]. apply M_bind_ext; [apply validateElem_view|]. intros here.
  apply M_bind_ext; [apply IH | reflexivity].
Qed.

Lemma validateSlice_view (x : value) (rule c j f : string) :
  validateSlice rec v x rule c j f = validateSlice rec v' x rule c j f.
Proof.
  unfold validateSlice. apply M_bind_ext; [view|]. intros bound.
  destruct bound; [reflexivity|]. destruct x; try reflexivity.
  apply M_bind_ext; [apply validateElems_view|]. intros errMsgs. view.
Qed.

Lemma validatePointer_view (x : value) (rule c j f : string) :
  validatePointer rec v x rule c j f = validatePointer rec v' x rule c j f.
Proof. unfold validatePointer. view. Qed.

Lemma dispatch_view (x : value) (rule c j f : string) :
  dispatch rec v x rule c j f = dispatch rec v' x rule c j f.
Proof.
  unfold dispatch.
  rewrite validateString_view, validateNumeric_view, validateFloat_view,
    validateSlice_view, validatePointer_view.
  reflexivity.
Qed.

Lemma validateRules_view (x : value) (j f : string) (rules : list string) :
  validateRules rec v x j f rules = validateRules rec v' x j f rules.
Proof.
  induction rules as [|r rest IH]; [reflexivity|].
  cbn [validateRules]. destruct (getRuleAndMsg r) as [rule c].
  rewrite dispatch_view, IH. view.
Qed.

Lemma validateStruct_view (g : StructField) :
  validateStruct rec v g = validateStruct rec v' g.
Proof. unfold validateStruct. rewrite Hzero, validateRules_view. view. Qed.

Lemma task_view (g : StructField) : task rec v g = task rec v' g.
Proof. unfold task. now rewrite validateStruct_view. Qed.

Lemma received_view (fields : list StructField) :
  received rec v fields = received rec v' fields.
Proof.
  induction fields as [|g fields IH]; [reflexivity|].
  cbn [received]. now rewrite task_view, IH.
Qed.

End Views.

(** ** The channel of [structValidator] *)

Section Channel.

Context `{E : Env}.
Variable rec : validation -> value -> report.

Lemma received_app (v : validation) (pre post : list StructField) :
  received rec v (pre ++ post) = received rec v pre ++ received rec v post.
Proof.
  induction pre as [|g pre IH]; [reflexivity|].
  cbn [app received]. destruct (eligible g); [|exact IH].
  now rewrite IH, app_assoc.
Qed.

Lemma received_In (v : validation) (fields : list StructField) (m : message) :
  m ∈ received rec v fields ->
  exists g, g ∈ fields /\ eligible g = true /\ m ∈ task rec v g.
Proof.
  induction fields as [|g fields IH]; cbn [received]; [intros H; inversion H|].
  destruct (eligible g) eqn:Hg.
  - rewrite elem_of_app. intros [H|H].
    + exists g. repeat split; [left | exact Hg | exact H].
    + destruct (IH H) as (g' & Hin & Hg' & Hm). exists g'. repeat split; [right| |]; assumption.
  - intros H. destruct (IH H) as (g' & Hin & Hg' & Hm).
    exists g'. repeat split; [right| |]; assumption.
Qed.

(** [getTagAndValue] reads the json tags and the values, not the chains. *)
Lemma getTagAndValue_in_chain (pre post : list StructField) (f : StructField)
    (validate' : option string) (t : string) :
  getTagAndValue_in (pre ++ Field (json_tag f) validate' (field_value f) :: post) t
  = getTagAndValue_in (pre ++ f :: post) t.
Proof.
  induction pre as [|g pre IH]; cbn [app getTagAndValue_in].
  - now destruct f.
  - now rewrite IH.
Qed.

Lemma shown_keys_app (a b : list message) :
  shown_keys (a ++ b) = shown_keys a ++ shown_keys b.
Proof. unfold shown_keys. now rewrite filter_app, map_app. Qed.

Lemma size_positive (m : gmap string any) : (0 <? Z.of_nat (size m)) = false -> m = ∅.
Proof.
  intros H. apply Z.ltb_ge in H. apply map_size_empty_iff. lia.
Qed.

(** [structValidator] returns nil exactly when no message is shown. *)
Lemma structValidator_nil (v : validation) :
  structValidator rec v = None <-> shown_keys (received rec v (elem v)) = [].
Proof.
  unfold structValidator. rewrite <- collect_empty_iff.
  destruct (0 <? Z.of_nat (size (collect (received rec v (elem v))))) eqn:Hs.
  - split; [discriminate|]. intros Hempty. rewrite Hempty, map_size_empty in Hs. discriminate.
  - split; [intros _; now apply size_positive | reflexivity].
Qed.

Lemma structValidator_some (v : validation) (r : gmap string any) :
  structValidator rec v = Some r -> r = collect (received rec v (elem v)).
Proof.
  unfold structValidator. destruct (0 <? _); [now intros [= <-] | discriminate].
Qed.

End Channel.

(** C4. When the evaluation of one field panics, the goroutine of that
    field recovers and sends the message of the field that carries the
    panic: "validation panic: " followed by the panic value. The messages of
    the other fields are what they are without the fault: the channel
    receives the messages of the fields before, those of the faulting field
    and those of the fields after, and with any other chain on the faulting
    field every other field sends the same messages. The call returns a
    report, which is not nil; it holds the fault under the json tag of the
    field, in whatever order the goroutines send, unless another shown
    message carries the same key. *)
Theorem fault_is_isolated `{E : Env}
    (rec : validation -> value -> report) (v : validation)
    (pre post : list StructField) (f : StructField) (sent : list message) (d : string)
    (validate' : option string) :
  elem v = pre ++ f :: post ->
  eligible f = true ->
  validateStruct rec v f = (sent, Panic d) ->
  let key := Tag_Get (json_tag f) in
  let fault := Msg key (AStr ("validation panic: " +:+ d)) in
  let others := received rec v pre ++ sent ++ received rec v post in
  let v' := {| elem := pre ++ Field (json_tag f) validate' (field_value f) :: post;
               elemZero := elemZero v; locale := locale v; dbConfig := dbConfig v |} in
  task rec v f = sent ++ [fault]
  /\ received rec v (elem v) = received rec v pre ++ (sent ++ [fault]) ++ received rec v post
  /\ (forall g, task rec v' g = task rec v g)
  /\ (received rec v' pre = received rec v pre /\ received rec v' post = received rec v post)
  /\ (exists r, structValidator rec v = Some r)
  /\ (forall arrival, received rec v (elem v) ≡ₚ arrival -> key ∉ shown_keys others ->
      collect arrival !! key = Some (V fault))
  /\ (key ∉ shown_keys (received rec v post) ->
      exists r, structValidator rec v = Some r /\ r !! key = Some (V fault)).
Proof.
  intros Helem Hf Hpanic key fault others v'.
  assert (Htask : task rec v f = sent ++ [fault]) by (unfold task; now rewrite Hpanic).
  assert (Hrecv : received rec v (elem v)
                  = received rec v pre ++ (sent ++ [fault]) ++ received rec v post).
  { rewrite Helem, received_app. cbn [received]. now rewrite Hf, Htask. }
  assert (Hview : forall g, task rec v' g = task rec v g).
  { intros g. apply task_view; try reflexivity.
    intros t. unfold getTagAndValue. subst v'. cbn [elem]. rewrite Helem.
    apply getTagAndValue_in_chain. }
  assert (Hviews : forall fields, received rec v' fields = received rec v fields).
  { induction fields as [|g fields IH]; [reflexivity|].
    cbn [received]. now rewrite Hview, IH. }
  assert (Hshown : shown (V fault) = true) by reflexivity.
  assert (Hsome : exists r, structValidator rec v = Some r).
  { destruct (structValidator rec v) as [r|] eqn:Hr; [eauto|].
    apply structValidator_nil in Hr. rewrite Hrecv in Hr.
    rewrite !shown_keys_app in Hr. cbn in Hr.
    apply app_eq_nil in Hr as [_ Hr]. apply app_eq_nil in Hr as [Hr _].
    apply app_eq_nil in Hr as [_ Hr]. discriminate. }
  repeat match goal with |- _ /\ _ => split end; try assumption; try apply Hviews.
  - intros arrival Hperm Hkey. rewrite Hrecv in Hperm.
    assert (Hin : fault ∈ arrival).
    { rewrite <- Hperm. rewrite !elem_of_app. right. left. right. left. }
    apply list_elem_of_split in Hin as (l1 & l2 & ->).
    replace (received rec v pre ++ (sent ++ [fault]) ++ received rec v post)
      with ((received rec v pre ++ sent) ++ fault :: received rec v post) in Hperm
      by (now rewrite <- !app_assoc).
    apply Permutation_app_inv in Hperm.
    rewrite collect_foldl. apply (foldl_keep_lookup l1 l2 fault ∅ Hshown).
    intros Hl2. apply Hkey. subst others. rewrite app_assoc.
    rewrite (shown_keys_Permutation _ _ Hperm), shown_keys_app, elem_of_app. now right.
  - intros Hkey. destruct Hsome as [r Hr]. exists r. split; [exact Hr|].
    apply structValidator_some in Hr. subst r. rewrite Hrecv, collect_foldl.
    replace (received rec v pre ++ (sent ++ [fault]) ++ received rec v post)
      with ((received rec v pre ++ sent) ++ fault :: received rec v post)
      by (now rewrite <- !app_assoc).
    exact (foldl_keep_lookup (received rec v pre ++ sent) (received rec v post) fault ∅
             Hshown Hkey).
Qed.

(** The report of [faulty_request] holds the fault of the field "level". *)
Lemma faulty_request_reports_the_fault :
  exists r, structValidator ValidateStruct faulty_context = Some r
            /\ r !! "level"
               = Some (AStr "validation panic: interface conversion: interface {} is int, not string").
Proof.
  exact (proj2 (proj2 (proj2 (proj2 (proj2 (proj2
    (fault_is_isolated ValidateStruct faulty_context
       [Field (Some "name") (Some "required") (VString "string" "")] []
       (Field (Some "level") (Some "enum:1,2,3") (VInt "int" 2)) []
       "interface conversion: interface {} is int, not string" (Some "int")
       eq_refl eq_refl eq_refl))))))
    ltac:(apply not_elem_of_nil)).
Defined.

(** ** Records that pass *)

Section Clean.

Context `{E : Env}.
Variable rec : validation -> value -> report.

Lemma validateRules_clean (v : validation) (x : value) (j : string) (rules : list string) :
  Forall (rule_clean rec v x j) rules ->
  validateRules rec v x j (formatFieldName j) rules = M_ret false.
Proof.
  induction 1 as [|r rest [Hreq Hdisp] _ IH]; [reflexivity|].
  cbn [validateRules]. destruct (getRuleAndMsg r) as [rule c]. cbn [fst snd] in *.
  destruct (isEmpty x) eqn:Hx.
  - destruct (String.eqb_spec rule "required") as [Hr|_]; [now apply Hreq in Hr|].
    cbn [andb negb]. rewrite M_bind_ret_l. exact IH.
  - rewrite andb_false_r. cbn [negb]. rewrite Hdisp by reflexivity.
    rewrite M_bind_ret_l. exact IH.
Qed.

(** A field that passes sends the empty message, which is not shown. *)
Lemma task_clean (v : validation) (f : StructField) :
  elemZero v = false -> field_clean rec v f ->
  task rec v f = [Msg (Tag_Get (json_tag f)) (AStr "")].
Proof.
  intros Hzero Hclean. unfold task, validateStruct. rewrite Hzero.
  rewrite validateRules_clean by exact Hclean. now rewrite M_bind_ret_l.
Qed.

Lemma received_clean (v : validation) (fields : list StructField) :
  elemZero v = false ->
  (forall f, f ∈ fields -> eligible f = true -> field_clean rec v f) ->
  shown_keys (received rec v fields) = [].
Proof.
  intros Hzero. induction fields as [|f fields IH]; intros Hclean; [reflexivity|].
  cbn [received]. destruct (eligible f) eqn:Hf.
  - rewrite shown_keys_app, task_clean; [|exact Hzero | apply Hclean; [left | exact Hf]].
    apply IH. intros g Hg. apply Hclean. now right.
  - apply IH. intros g Hg. apply Hclean. now right.
Qed.

Lemma shown_keys_In (msgs : list message) (k : string) :
  k ∈ shown_keys msgs -> exists m, m ∈ msgs /\ K m = k /\ shown (V m) = true.
Proof.
  unfold shown_keys. rewrite list_elem_of_fmap. intros (m & -> & Hm).
  apply list_elem_of_filter in Hm as [Hs Hin]. eauto.
Qed.

End Clean.

(** C1, as amended. [ValidateStruct] returns nil for a struct each of whose
    eligible fields passes: the value is not empty where the chain has
    [required], and no rule of the chain finds anything to report on a value
    that is not empty. Conversely a report that is not nil comes from an
    eligible field that does not pass, and each of its entries is a shown
    message sent by the goroutine of an eligible field, under the json tag
    of the message. *)
Theorem clean_record_has_nil_report `{E : Env}
    (v : validation) (ty : string) (k : RefKind) (fields : list StructField) :
  let ctx := context_of v fields in
  ((forall f, f ∈ fields -> eligible f = true -> field_clean ValidateStruct ctx f) ->
   ValidateStruct v (VStructRef ty k fields) = None)
  /\ (forall r, ValidateStruct v (VStructRef ty k fields) = Some r ->
      exists f, f ∈ fields /\ eligible f = true /\ ~ field_clean ValidateStruct ctx f)
  /\ (forall r key x, ValidateStruct v (VStructRef ty k fields) = Some r ->
      r !! key = Some x ->
      exists f m, f ∈ fields /\ eligible f = true /\ m ∈ task ValidateStruct ctx f
                  /\ K m = key /\ V m = x /\ shown x = true).
Proof.
  intros ctx.
  change (ValidateStruct v (VStructRef ty k fields)) with (structValidator ValidateStruct ctx).
  assert (Hentry : forall r key x, structValidator ValidateStruct ctx = Some r ->
            r !! key = Some x ->
            exists f m, f ∈ fields /\ eligible f = true /\ m ∈ task ValidateStruct ctx f
                        /\ K m = key /\ V m = x /\ shown x = true).
  { intros r key x Hr Hx. apply structValidator_some in Hr. subst r.
    rewrite collect_foldl in Hx.
    apply foldl_keep_entry in Hx as [Hx | (m & Hin & Hk & Hv & Hs)];
      [rewrite lookup_empty in Hx; discriminate|].
    apply received_In in Hin as (f & Hf & Hel & Hm). exists f, m.
    repeat split; assumption. }
  split; [|split].
  - intros Hclean. apply structValidator_nil. now apply received_clean.
  - intros r Hr.
    assert (Hne : r <> ∅).
    { intros ->. pose proof (structValidator_some _ _ _ Hr) as Hc. symmetry in Hc.
      apply collect_empty_iff in Hc. apply structValidator_nil in Hc. congruence. }
    apply map_choose in Hne as (key & x & Hx).
    destruct (Hentry r key x Hr Hx) as (f & m & Hf & Hel & Hm & _ & Hv & Hs).
    exists f. repeat split; [exact Hf | exact Hel |]. intros Hclean.
    rewrite (task_clean ValidateStruct ctx f eq_refl Hclean) in Hm.
    apply list_elem_of_singleton in Hm. subst m. cbn in Hv. subst x. discriminate.
  - exact Hentry.
Qed.

(** C1 as stated fails: in [optional_age] the value is not empty and the
    chain is the single rule [required], which the value satisfies; yet the
    report is not nil. A pointer to an integer is validated as a nested
    record, and the nested call answers with the error of an argument that
    is not a struct pointer. *)
Lemma optional_integer_is_reported :
  eligible optional_age = true
  /\ isEmpty (field_value optional_age) = false
  /\ GoStrings.Split (Tag_Get (validate_tag optional_age)) "|" = ["required"]
  /\ ValidateStruct (E := demo_env) (New None) (VStructRef "*Request" Pointer [optional_age])
     = Some {[ "age" :=
               AMap {[ "error" :=
                       AStr "validate: a struct pointer is expected as an argument" ]} ]}.
Proof. repeat split; vm_compute; reflexivity. Qed.

(** [clean_request] passes: each of its tagged fields is clean, the field
    without a json tag is skipped, and the nested contact validates to nil. *)
Lemma clean_request_passes :
  ValidateStruct (E := demo_env) (New None) (VStructRef "*Request" Pointer clean_request) = None.
Proof.
  refine (proj1 (clean_record_has_nil_report (New None) "*Request" Pointer clean_request) _).
  intros f Hf Hel.
  repeat (apply elem_of_cons in Hf as [->|Hf]);
    [ | | discriminate Hel | | apply elem_of_nil in Hf; contradiction ];
    repeat constructor; try discriminate; intros _; vm_compute; reflexivity.
Defined.

(** ** A chain of one rule without a custom message *)

Section Plain.

Import StringFacts.

Lemma Contains_none (c : ascii) (s : string) :
  has_byte (byte_eqb c) s = false -> GoStrings.Contains s (String c "") = false.
Proof.
  induction s as [|x s IH]; intros Hs; [reflexivity|].
  cbn [has_byte] in Hs. apply orb_false_iff in Hs as [Hx Hs].
  cbn [GoStrings.Contains]. now rewrite prefix_one, Hx, (IH Hs).
Qed.

Lemma Split_single (c : ascii) (s : string) :
  has_byte (byte_eqb c) s = false -> GoStrings.Split s (String c "") = [s].
Proof.
  intros Hs. unfold GoStrings.Split. destruct (String.length s) as [|n]; [reflexivity|].
  now rewrite SplitN_step, Cut_none.
Qed.

Lemma getRuleAndMsg_plain (r : string) :
  has_byte (byte_eqb ">") r = false -> getRuleAndMsg r = (r, "").
Proof. intros Hr. unfold getRuleAndMsg. now rewrite Contains_none. Qed.

End Plain.

(** ** The rules [between] and [from] as rules of a field *)

Section RangeField.

Context `{E : Env}.
Variable rec : validation -> value -> report.

(** The two dispatchers on a range rule whose first bound has no comma. *)
Lemma validateNumericParams_bounds (v : validation) (x : value) (between : bool)
    (min max c j f : string) :
  has_byte (byte_eqb ",") min = false ->
  let name := if between then "between" else "from" in
  let test := if between then isNotBetween else isNotFrom in
  validateNumericParams v x (name +:+ ":" +:+ min +:+ "," +:+ max) c j f
  = violation (test x min max) (setMessage v (name +:+ ".numeric") (AStr c) j f [min; max]).
Proof.
  intros Hmin name test. unfold validateNumericParams.
  change (name +:+ ":" +:+ min +:+ "," +:+ max)
    with (name +:+ String ":" (min +:+ String "," max)).
  rewrite SplitN2_app by (subst name; now destruct between).
  cbn [index lookup list_lookup]. rewrite !M_bind_lift_Ok.
  destruct between; subst name test; cbn [String.eqb Ascii.eqb Bool.eqb orb];
    rewrite SplitN2_app by exact Hmin; cbn [index lookup list_lookup];
    rewrite ?M_bind_lift_Ok, ?M_bind_ret_l.
  - reflexivity.
  - apply bind_violation_ret.
    destruct (setMessage_sends v "from.numeric" (AStr c) j f [min; max]) as [payload Hsend].
    eexists. exact Hsend.
Qed.

Lemma validateStringParams_bounds (v : validation) (x : value) (between : bool)
    (min max c j f : string) :
  has_byte (byte_eqb ",") min = false ->
  let name := if between then "between" else "from" in
  let test := if between then isNotBetween else isNotFrom in
  validateStringParams v x (name +:+ ":" +:+ min +:+ "," +:+ max) c j f
  = violation (test x min max) (setMessage v (name +:+ ".string") (AStr c) j f [min; max]).
Proof.
  intros Hmin name test. unfold validateStringParams.
  change (name +:+ ":" +:+ min +:+ "," +:+ max)
    with (name +:+ String ":" (min +:+ String "," max)).
  rewrite SplitN2_app by (subst name; now destruct between).
  cbn [index lookup list_lookup]. rewrite !M_bind_lift_Ok.
  destruct between; subst name test; cbn [String.eqb Ascii.eqb Bool.eqb];
    rewrite SplitN2_app by exact Hmin; cbn [index lookup list_lookup];
    rewrite !M_bind_lift_Ok; reflexivity.
Qed.

Lemma dispatch_bounds (v : validation) (x : value) (between : bool) (min max c j f : string) :
  ranged x = true ->
  has_byte (byte_eqb ",") min = false ->
  let name := if between then "between" else "from" in
  let test := if between then isNotBetween else isNotFrom in
  let kind := match x with VString _ _ => ".string" | _ => ".numeric" end in
  dispatch rec v x (name +:+ ":" +:+ min +:+ "," +:+ max) c j f
  = violation (test x min max) (setMessage v (name +:+ kind) (AStr c) j f [min; max]).
Proof.
  intros Hx Hmin name test kind.
  pose proof (validateNumericParams_bounds v x between min max c j f Hmin) as Hn.
  pose proof (validateStringParams_bounds v x between min max c j f Hmin) as Hs.
  cbv zeta in Hn, Hs. fold name test in Hn, Hs.
  assert (Hcolon : GoStrings.Contains (name +:+ ":" +:+ min +:+ "," +:+ max) ":" = true).
  { change (name +:+ ":" +:+ min +:+ "," +:+ max)
      with (name +:+ String ":" (min +:+ "," +:+ max)). apply Contains_app. }
  destruct x; try discriminate Hx; cbn [dispatch Reflect.Kind_of];
    unfold validateNumeric, validateFloat, validateString;
    rewrite Hcolon, ?Hn, ?Hs; subst name kind;
    destruct between; reflexivity.
Qed.

(** The goroutine of a field whose chain is one range rule. *)
Lemma task_bounds (v : validation) (x : value) (between : bool) (min max j : string) :
  elemZero v = false ->
  ranged x = true ->
  has_byte (byte_eqb ",") min = false ->
  plain_bound min = true -> plain_bound max = true ->
  let name := if between then "between" else "from" in
  let test := if between then isNotBetween else isNotFrom in
  let kind := match x with VString _ _ => ".string" | _ => ".numeric" end in
  task rec v (range_field j name min max x)
  = range_message v (name +:+ kind) j [min; max] (negb (isEmpty x) && test x min max).
Proof.
  intros Hzero Hx Hcomma Hmin Hmax name test kind.
  apply andb_true_iff in Hmin as [Hmin1 Hmin2]. apply andb_true_iff in Hmax as [Hmax1 Hmax2].
  apply negb_true_iff in Hmin1, Hmin2, Hmax1, Hmax2.
  set (rule := name +:+ ":" +:+ min +:+ "," +:+ max).
  assert (Hbar : has_byte (byte_eqb "|") rule = false).
  { subst rule. rewrite !StringFacts.has_byte_app, Hmin1, Hmax1.
    subst name. now destruct between. }
  assert (Hgt : has_byte (byte_eqb ">") rule = false).
  { subst rule. rewrite !StringFacts.has_byte_app, Hmin2, Hmax2.
    subst name. now destruct between. }
  assert (Hreq : String.eqb rule "required" = false)
    by (subst rule name; now destruct between).
  pose proof (dispatch_bounds v x between min max "" j (formatFieldName j) Hx Hcomma) as Hd.
  cbv zeta in Hd. fold name test kind rule in Hd.
  unfold task, validateStruct, range_field, range_message.
  cbn [json_tag validate_tag field_value Tag_Get default from_option id]. fold rule.
  rewrite Hzero, Split_single by exact Hbar. cbn [validateRules].
  rewrite getRuleAndMsg_plain by exact Hgt. rewrite Hreq. cbn [andb].
  destruct (isEmpty x); cbn [negb andb].
  - rewrite !M_bind_ret_l. reflexivity.
  - rewrite Hd. clear Hd. subst name kind.
    destruct (test x min max); destruct between; destruct x; try discriminate Hx;
      reflexivity.
Qed.

End RangeField.

(** C3, as amended. On a value that is not empty, a field whose chain is
    the rule [between:min,max] is reported unless the value is strictly
    greater than [min] and strictly less than [max], and one whose chain is
    [from:min,max] unless the value lies in the closed interval: for a
    signed integer, for an unsigned one, for a string by its length (the
    bounds written in decimal) and for a float (the bounds as
    [strconv.ParseFloat] reads them). An empty value, that is 0, the empty
    string or the float 0, is never reported by either rule, whatever the
    bounds: [validateStruct] evaluates no rule but [required] on it. The
    predicates [isNotBetween] and [isNotFrom] themselves follow the two
    intervals on every value, 0 included. So as the rule of a field
    [between:1,5] rejects 1 and 5 and accepts 2, 3 and 4, and [from:1,5]
    accepts 1 and 5 and rejects 6, but does not reject 0. *)
Theorem between_excludes_from_includes `{E : Env}
    (rec : validation -> value -> report) (v : validation) (ty : string)
    (x lo hi : Z) (s : string) (f : float) (min max j : string) :
  GoStrconv.minInt64 <= lo <= GoStrconv.maxInt64 ->
  GoStrconv.minInt64 <= hi <= GoStrconv.maxInt64 ->
  elemZero v = false ->
  let dlo := GoFmt.FormatInt lo in
  let dhi := GoFmt.FormatInt hi in
  let len := Z.of_nat (String.length s) in
  let inside n := (lo <? n) && (n <? hi) in
  let within n := (lo <=? n) && (n <=? hi) in
  let sent name x' rejected :=
    task rec v (range_field j name dlo dhi x')
    = range_message v (name +:+ match x' with VString _ _ => ".string" | _ => ".numeric" end)
        j [dlo; dhi] rejected in
  (isNotBetween (VInt ty x) dlo dhi = negb (inside x)
   /\ isNotFrom (VInt ty x) dlo dhi = negb (within x)
   /\ isNotBetween (VString ty s) dlo dhi = negb (inside len)
   /\ isNotFrom (VString ty s) dlo dhi = negb (within len))
  /\ (sent "between" (VInt ty x) (negb (x =? 0) && negb (inside x))
      /\ sent "from" (VInt ty x) (negb (x =? 0) && negb (within x)))
  /\ (0 <= lo -> 0 <= hi ->
      isNotBetween (VUint ty x) dlo dhi = negb (inside x)
      /\ isNotFrom (VUint ty x) dlo dhi = negb (within x)
      /\ sent "between" (VUint ty x) (negb (x =? 0) && negb (inside x))
      /\ sent "from" (VUint ty x) (negb (x =? 0) && negb (within x)))
  /\ (sent "between" (VString ty s) (negb (len =? 0) && negb (inside len))
      /\ sent "from" (VString ty s) (negb (len =? 0) && negb (within len)))
  /\ (has_byte (byte_eqb ",") min = false ->
      plain_bound min = true -> plain_bound max = true ->
      task rec v (range_field j "between" min max (VFloat ty f))
      = range_message v "between.numeric" j [min; max]
          (negb (PrimFloat.eqb f 0)
           && negb (PrimFloat.ltb (ParseFloat min) f && PrimFloat.ltb f (ParseFloat max)))
      /\ task rec v (range_field j "from" min max (VFloat ty f))
         = range_message v "from.numeric" j [min; max]
             (negb (PrimFloat.eqb f 0)
              && negb (PrimFloat.leb (ParseFloat min) f && PrimFloat.leb f (ParseFloat max))))
  /\ (Forall (fun n => task rec v (range_field j "between" "1" "5" (VInt ty n))
                       = range_message v "between.numeric" j ["1"; "5"] true) [1; 5]
      /\ Forall (fun n => task rec v (range_field j "between" "1" "5" (VInt ty n))
                          = range_message v "between.numeric" j ["1"; "5"] false) [2; 3; 4]
      /\ Forall (fun n => task rec v (range_field j "from" "1" "5" (VInt ty n))
                          = range_message v "from.numeric" j ["1"; "5"] false) [1; 5; 0]
      /\ task rec v (range_field j "from" "1" "5" (VInt ty 6))
         = range_message v "from.numeric" j ["1"; "5"] true).
Proof.
  intros Hlo Hhi Hzero dlo dhi len inside within sent.
  assert (Hbound : forall z, has_byte (byte_eqb ",") (GoFmt.FormatInt z) = false
                             /\ plain_bound (GoFmt.FormatInt z) = true).
  { intros z. unfold plain_bound.
    now rewrite !DecimalFacts.FormatInt_no by reflexivity. }
  assert (Hint : forall a c n,
    GoStrconv.minInt64 <= a <= GoStrconv.maxInt64 ->
    GoStrconv.minInt64 <= c <= GoStrconv.maxInt64 ->
    isNotBetween (VInt ty n) (GoFmt.FormatInt a) (GoFmt.FormatInt c)
    = negb ((a <? n) && (n <? c))
    /\ isNotFrom (VInt ty n) (GoFmt.FormatInt a) (GoFmt.FormatInt c)
       = negb ((a <=? n) && (n <=? c))).
  { intros a c n Ha Hc. unfold isNotBetween, isNotFrom.
    rewrite !DecimalFacts.ParseInt_FormatInt by assumption. split; zbool. }
  assert (Hstr :
    isNotBetween (VString ty s) dlo dhi = negb (inside len)
    /\ isNotFrom (VString ty s) dlo dhi = negb (within len)).
  { unfold isNotBetween, isNotFrom, GoStrconv.Atoi. cbn [Reflect.Len]. subst dlo dhi.
    rewrite !DecimalFacts.ParseInt_FormatInt by assumption. fold len.
    subst inside within. split; zbool. }
  assert (Hfield : forall (b : bool) a c n,
    GoStrconv.minInt64 <= a <= GoStrconv.maxInt64 ->
    GoStrconv.minInt64 <= c <= GoStrconv.maxInt64 ->
    task rec v (range_field j (if b then "between" else "from")
                  (GoFmt.FormatInt a) (GoFmt.FormatInt c) (VInt ty n))
    = range_message v ((if b then "between" else "from") +:+ ".numeric") j
        [GoFmt.FormatInt a; GoFmt.FormatInt c]
        (negb (n =? 0) && if b then negb ((a <? n) && (n <? c))
                          else negb ((a <=? n) && (n <=? c)))).
  { intros b a c n Ha Hc. destruct (Hint a c n Ha Hc) as [Hb Hf].
    destruct (Hbound a) as [Hcomma Hpa]. destruct (Hbound c) as [_ Hpc].
    rewrite (task_bounds rec v (VInt ty n) b _ _ j Hzero eq_refl Hcomma Hpa Hpc).
    cbn [isEmpty]. destruct b; now rewrite ?Hb, ?Hf. }
  destruct (Hbound lo) as [Hcomma Hplo]. destruct (Hbound hi) as [_ Hphi].
  split; [|split; [|split; [|split; [|split]]]].
  - destruct (Hint lo hi x Hlo Hhi) as [Hb Hf]. destruct Hstr as [Hsb Hsf].
    repeat split; assumption.
  - subst sent. cbn beta. split.
    + apply (Hfield true lo hi x Hlo Hhi).
    + apply (Hfield false lo hi x Hlo Hhi).
  - intros Hlo0 Hhi0.
    assert (Hu : isNotBetween (VUint ty x) dlo dhi = negb (inside x)
                 /\ isNotFrom (VUint ty x) dlo dhi = negb (within x)).
    { unfold isNotBetween, isNotFrom. subst dlo dhi inside within.
      unfold GoStrconv.minInt64, GoStrconv.maxInt64 in *.
      rewrite !DecimalFacts.ParseUint_FormatInt by (unfold GoStrconv.maxUint64; lia).
      split; zbool. }
    destruct Hu as [Hb Hf]. split; [exact Hb | split; [exact Hf |]].
    subst sent. cbn beta. split.
    + rewrite (task_bounds rec v (VUint ty x) true _ _ j Hzero eq_refl Hcomma Hplo Hphi).
      cbn [isEmpty]. fold dlo dhi. now rewrite Hb.
    + rewrite (task_bounds rec v (VUint ty x) false _ _ j Hzero eq_refl Hcomma Hplo Hphi).
      cbn [isEmpty]. fold dlo dhi. now rewrite Hf.
  - assert (Hempty : isEmpty (VString ty s) = (len =? 0)) by (subst len; now destruct s).
    destruct Hstr as [Hb Hf]. subst sent. cbn beta. split.
    + rewrite (task_bounds rec v (VString ty s) true _ _ j Hzero eq_refl Hcomma Hplo Hphi).
      fold dlo dhi. now rewrite Hempty, Hb.
    + rewrite (task_bounds rec v (VString ty s) false _ _ j Hzero eq_refl Hcomma Hplo Hphi).
      fold dlo dhi. now rewrite Hempty, Hf.
  - intros Hc Hpmin Hpmax. split.
    + now rewrite (task_bounds rec v (VFloat ty f) true _ _ j Hzero eq_refl Hc Hpmin Hpmax).
    + now rewrite (task_bounds rec v (VFloat ty f) false _ _ j Hzero eq_refl Hc Hpmin Hpmax).
  - assert (H15 : GoStrconv.minInt64 <= 1 <= GoStrconv.maxInt64
                  /\ GoStrconv.minInt64 <= 5 <= GoStrconv.maxInt64)
      by (vm_compute; repeat split; discriminate).
    destruct H15 as [H1 H5].
    pose proof (fun n => Hfield true 1 5 n H1 H5) as Hb.
    pose proof (fun n => Hfield false 1 5 n H1 H5) as Hf.
    change (GoFmt.FormatInt 1) with "1" in Hb, Hf.
    change (GoFmt.FormatInt 5) with "5" in Hb, Hf.
    repeat split; repeat constructor; first [apply Hb | apply Hf].
Qed.

(** The value 5 as a field under the bounds 1 and 5: rejected by
    [between], accepted by [from]. *)
Lemma five_against_one_and_five :
  task (E := demo_env) (fun _ _ => None) (New None)
    (range_field "age" "between" (GoFmt.FormatInt 1) (GoFmt.FormatInt 5) (VInt "int" 5))
  = range_message (New None) "between.numeric" "age" [GoFmt.FormatInt 1; GoFmt.FormatInt 5]
      (negb (5 =? 0) && negb ((1 <? 5) && (5 <? 5)))
  /\ task (E := demo_env) (fun _ _ => None) (New None)
       (range_field "age" "from" (GoFmt.FormatInt 1) (GoFmt.FormatInt 5) (VInt "int" 5))
     = range_message (New None) "from.numeric" "age" [GoFmt.FormatInt 1; GoFmt.FormatInt 5]
         (negb (5 =? 0) && negb ((1 <=? 5) && (5 <=? 5))).
Proof.
  refine (proj1 (proj2 (between_excludes_from_includes (E := demo_env) (fun _ _ => None)
                          (New None) "int" 5 1 5 "" 0%float "" "" "age" _ _ _))).
  - vm_compute. split; discriminate.
  - vm_compute. split; discriminate.
  - reflexivity.
Defined.

(** C3 as stated fails on an empty value: 0 lies outside the closed
    interval from 1 to 5, and so does the length of the empty string, and
    [isNotFrom] says so; yet a struct whose field holds 0, or the empty
    string, under the rule [from:1,5] has a nil report, while 6 under the
    same rule is reported. *)
Lemma zero_is_not_rejected_by_from :
  isNotFrom (E := demo_env) (VInt "int" 0) "1" "5" = true
  /\ ValidateStruct (E := demo_env) (New None)
       (VStructRef "*Request" Pointer [Field (Some "low") (Some "from:1,5") (VInt "int" 0)])
     = None
  /\ isNotFrom (E := demo_env) (VString "string" "") "1" "5" = true
  /\ ValidateStruct (E := demo_env) (New None)
       (VStructRef "*Request" Pointer [Field (Some "code") (Some "from:1,5") (VString "string" "")])
     = None
  /\ ValidateStruct (E := demo_env) (New None)
       (VStructRef "*Request" Pointer [Field (Some "high") (Some "from:1,5") (VInt "int" 6)])
     = Some {[ "high" := AStr (demo_Sprintf "from.numeric" ["high"; "1"; "5"]) ]}.
Proof. repeat split; vm_compute; reflexivity. Qed.

(** * Further properties of the package *)

(** ** How a rule ends *)

Section Outcomes.

Context `{E : Env}.
Variable rec : validation -> value -> report.

Lemma outcome_weaken (P Q : any -> Prop) (key : string) (m : M bool) :
  (forall p, P p -> Q p) -> outcome P key m -> outcome Q key m.
Proof. intros H [|p Hp|d]; constructor. now apply H. Qed.

Lemma setMessage_payload (v : validation) (key c j f : string) (values : list string) :
  String.eqb key "empty" = false ->
  exists p, setMessage v key (AStr c) j f values = send (Msg j p) /\ payload_of c p.
Proof.
  intros Hkey. unfold setMessage. rewrite Hkey. destruct c as [|x c].
  - eexists. split; [reflexivity|]. now left.
  - eexists. split; [reflexivity|]. now right.
Qed.

Lemma outcome_set (v : validation) (key c j f : string) (values : list string) :
  String.eqb key "empty" = false ->
  outcome (payload_of c) j (_ <- setMessage v key (AStr c) j f values ;; M_ret true).
Proof.
  intros Hkey. destruct (setMessage_payload v key c j f values Hkey) as (p & -> & Hp).
  now apply reports.
Qed.

Lemma outcome_violation (v : validation) (b : bool) (key c j f : string)
    (values : list string) :
  String.eqb key "empty" = false ->
  outcome (payload_of c) j (violation b (setMessage v key (AStr c) j f values)).
Proof.
  intros Hkey. destruct b; [now apply outcome_set | apply passes].
Qed.

Lemma outcome_lift {A : Type} (P : any -> Prop) (j : string) (r : res A) (k : A -> M bool) :
  (forall a, outcome P j (k a)) -> outcome P j (M_bind (lift r) k).
Proof.
  intros H. destruct r as [a|d]; [rewrite M_bind_lift_Ok; apply H | apply panics].
Qed.

Lemma outcome_seq (P : any -> Prop) (j : string) (m k : M bool) :
  outcome P j m -> outcome P j k ->
  outcome P j (M_bind m (fun returned => if returned then M_ret true else k)).
Proof.
  intros [|p Hp|d] Hk.
  - now rewrite M_bind_ret_l.
  - now apply reports.
  - apply panics.
Qed.

(** The message of a nested validation: the report, or the list of the
    outcomes of the elements, is sent as it is. *)
Lemma outcome_nested (c j : string) (v : validation) (x : any) (f : string) :
  shown x = true -> payload_of c x ->
  outcome (payload_of c) j (_ <- setMessage v "" x j f [] ;; M_ret true).
Proof.
  intros Hx Hp. unfold setMessage. cbn [String.eqb]. rewrite Hx. now apply reports.
Qed.

Lemma size_limit_key (size symbol : string) :
  String.eqb (snd (size_limit size symbol)) "empty" = false.
Proof.
  unfold size_limit. repeat match goal with |- context [if ?b then _ else _] => destruct b end;
    reflexivity.
Qed.

Ltac outcome_step :=
  match goal with
  | |- outcome _ _ (M_ret false) => apply passes
  | |- outcome _ _ (violation _ (setMessage _ _ _ _ _ _)) =>
      apply outcome_violation; first [reflexivity | apply size_limit_key]
  | |- outcome _ _ (M_bind (setMessage _ _ (AStr _) _ _ _) _) =>
      apply outcome_set; reflexivity
  | |- outcome _ _ (M_bind (lift _) _) => apply outcome_lift; intros
  | |- outcome _ _ (M_bind _ (fun returned => if returned then M_ret true else _)) =>
      apply outcome_seq
  | |- outcome _ _ (if ?b then _ else _) => destruct b
  | |- outcome _ _ (match ?x with _ => _ end) => destruct x
  end.

Lemma validateStringParams_outcome (v : validation) (x : value) (rule c j f : string) :
  outcome (payload_of c) j (validateStringParams v x rule c j f).
Proof. unfold validateStringParams. repeat outcome_step. Qed.

Lemma validateString_outcome (v : validation) (x : value) (rule c j f : string) :
  outcome (payload_of c) j (validateString v x rule c j f).
Proof.
  unfold validateString.
  repeat first [apply validateStringParams_outcome | outcome_step].
Qed.

Lemma validateNumericParams_outcome (v : validation) (x : value) (rule c j f : string) :
  outcome (payload_of c) j (validateNumericParams v x rule c j f).
Proof. unfold validateNumericParams, numeric_case. repeat outcome_step. Qed.

Lemma validateNumeric_outcome (v : validation) (x : value) (rule c j f : string) :
  outcome (payload_of c) j (validateNumeric v x rule c j f).
Proof.
  unfold validateNumeric.
  repeat first [apply validateNumericParams_outcome | outcome_step].
Qed.

Lemma validateFloat_outcome (v : validation) (x : value) (rule c j f : string) :
  outcome (payload_of c) j (validateFloat v x rule c j f).
Proof.
  unfold validateFloat.
  repeat first [apply validateNumericParams_outcome | outcome_step].
Qed.

Lemma quiet_ret {A : Type} (a : A) : quiet (M_ret a).
Proof. now exists (Ok a). Qed.

Lemma quiet_lift {A : Type} (r : res A) : quiet (lift r).
Proof. now exists r. Qed.

Lemma quiet_bind {A B : Type} (m : M A) (k : A -> M B) :
  quiet m -> (forall a, quiet (k a)) -> quiet (M_bind m k).
Proof.
  intros [[a|d] ->] Hk.
  - rewrite M_bind_lift_Ok. apply Hk.
  - now exists (Panic d).
Qed.

Ltac quiet_step :=
  match goal with
  | |- quiet (M_ret _) => apply quiet_ret
  | |- quiet (lift _) => apply quiet_lift
  | |- quiet (M_bind _ _) => apply quiet_bind; [|intros]
  | |- quiet (if ?b then _ else _) => destruct b
  | |- quiet (match ?x with _ => _ end) => destruct x
  end.

(** The loop over the elements of a slice appends to [errMsgs] and sends
    nothing. *)
Lemma validateElem_quiet (v : validation) (ek : Kind) (x : value) (i : Z) (rule c f : string) :
  quiet (validateElem rec v ek x i rule c f).
Proof. unfold validateElem. repeat quiet_step. Qed.

Lemma validateElems_quiet (v : validation) (ek : Kind) (xs : list value) (i : Z)
    (rule c f : string) :
  quiet (validateElems rec v ek xs i rule c f).
Proof.
  revert i. induction xs as [|x xs IH]; intros i; cbn [validateElems]; [apply quiet_ret|].
  apply quiet_bind; [apply validateElem_quiet|]. intros here.
  apply quiet_bind; [apply IH|]. intros later. apply quiet_ret.
Qed.

Lemma validateSlice_outcome (v : validation) (x : value) (rule c j f : string) :
  outcome (payload_of c) j (validateSlice rec v x rule c j f).
Proof.
  unfold validateSlice. apply outcome_seq.
  - repeat outcome_step.
  - destruct x; try apply passes.
    destruct (validateElems_quiet v elemKind elems 0 rule c f) as [r ->].
    apply outcome_lift. intros [|e errMsgs]; [apply passes|].
    now apply outcome_nested.
Qed.

Lemma validatePointer_outcome (v : validation) (x : value) (rule c j f : string) :
  outcome (payload_of c) j (validatePointer rec v x rule c j f).
Proof.
  unfold validatePointer. destruct (as_FileHeader x) as [fh|].
  - repeat outcome_step.
  - destruct (nested rec v x) as [msg|]; [now apply outcome_nested | apply passes].
Qed.

Lemma dispatch_outcome (v : validation) (x : value) (rule c j f : string) :
  outcome (payload_of c) j (dispatch rec v x rule c j f).
Proof.
  unfold dispatch. destruct (Reflect.Kind_of x); try apply passes;
    auto using validateString_outcome, validateNumeric_outcome, validateFloat_outcome,
      validateSlice_outcome, validatePointer_outcome.
Qed.

Lemma validateRules_outcome (v : validation) (x : value) (j f : string) (rules : list string) :
  outcome any_payload j (validateRules rec v x j f rules).
Proof.
  induction rules as [|r rest IH]; cbn [validateRules]; [apply passes|].
  destruct (getRuleAndMsg r) as [rule c].
  destruct (String.eqb rule "required" && isEmpty x).
  - apply (outcome_weaken (payload_of c)); [now intros|].
    destruct (Reflect.Kind_of x); now apply outcome_set.
  - apply outcome_seq; [|exact IH].
    destruct (negb (isEmpty x)); [|apply passes].
    apply (outcome_weaken (payload_of c)); [now intros | apply dispatch_outcome].
Qed.

(** The goroutine of a field sends one message, under the json tag of the
    field: a violation, the empty message or the recovered panic. *)
Lemma task_single (v : validation) (g : StructField) :
  exists payload, task rec v g = [Msg (tag_of g) payload].
Proof.
  unfold task, validateStruct, tag_of. destruct (elemZero v); [cbn; eauto|].
  destruct (validateRules_outcome v (field_value g) (Tag_Get (json_tag g))
              (formatFieldName (Tag_Get (json_tag g)))
              (GoStrings.Split (Tag_Get (validate_tag g)) "|")) as [|p _|d].
  - rewrite M_bind_ret_l. unfold setMessage. cbn. eauto.
  - cbn. eauto.
  - cbn. eauto.
Qed.

Lemma received_keys (v : validation) (fields : list StructField) :
  map K (received rec v fields) = map tag_of (validated fields).
Proof.
  unfold validated. induction fields as [|g fields IH]; [reflexivity|].
  cbn [received]. rewrite filter_cons. destruct (eligible g) eqn:Hg.
  - rewrite decide_True by reflexivity. destruct (task_single v g) as [p ->].
    cbn. now rewrite IH.
  - rewrite decide_False by congruence. exact IH.
Qed.

Lemma received_length (v : validation) (fields : list StructField) :
  length (received rec v fields) = length (validated fields).
Proof. rewrite <- (length_map K), received_keys. apply length_map. Qed.

Lemma shown_keys_sublist (msgs : list message) : shown_keys msgs `sublist_of` map K msgs.
Proof. unfold shown_keys. apply (fmap_sublist K), sublist_filter. Qed.

Lemma collect_size (msgs : list message) (m0 : gmap string any) :
  (size (foldl keep m0 msgs) <= size m0 + length msgs)%nat.
Proof.
  revert m0. induction msgs as [|m msgs IH]; intros m0; cbn [foldl length]; [lia|].
  etransitivity; [apply IH|]. unfold keep. destruct (shown (V m)); [|lia].
  rewrite map_size_insert. destruct (m0 !! K m); unfold id; lia.
Qed.

(** When every message carries the same shown payload, every key sent is
    in the report, with that payload. *)
Lemma collect_constant (msgs : list message) (x : any) (j : string) :
  shown x = true -> Forall (fun m => V m = x) msgs -> j ∈ map K msgs ->
  collect msgs !! j = Some x.
Proof.
  intros Hx. rewrite collect_foldl.
  induction msgs as [|m msgs IH] using rev_ind; intros Hall Hj.
  - inversion Hj.
  - apply Forall_app in Hall as [Hall Hm]. apply Forall_inv in Hm. cbn beta in Hm.
    rewrite foldl_app. cbn [foldl]. unfold keep at 1. rewrite Hm, Hx.
    destruct (decide (K m = j)) as [<-|Hne]; [apply lookup_insert_eq|].
    rewrite lookup_insert_ne by exact Hne. apply IH; [exact Hall|].
    rewrite map_app in Hj. apply elem_of_app in Hj as [Hj|Hj]; [exact Hj|].
    cbn in Hj. apply list_elem_of_singleton in Hj. congruence.
Qed.

(** The loop over a chain, chain after chain. *)
Lemma validateRules_app (v : validation) (x : value) (j f : string) (a b : list string) :
  validateRules rec v x j f (a ++ b)
  = (returned <- validateRules rec v x j f a ;;
     if returned then M_ret true else validateRules rec v x j f b).
Proof.
  induction a as [|r a IH]; cbn [app validateRules].
  - now rewrite M_bind_ret_l.
  - destruct (getRuleAndMsg r) as [rule c].
    destruct (String.eqb rule "required" && isEmpty x).
    + destruct (Reflect.Kind_of x);
        (rewrite M_bind_assoc; apply M_bind_ext; [reflexivity|];
         intros []; now rewrite M_bind_ret_l).
    + rewrite M_bind_assoc. apply M_bind_ext; [reflexivity|].
      intros [|]; [now rewrite M_bind_ret_l | exact IH].
Qed.

Lemma getTagAndValue_in_untagged (pre post : list StructField) (chain : option string)
    (x : value) (t : string) :
  getTagAndValue_in (pre ++ Field None chain x :: post) t = getTagAndValue_in (pre ++ post) t.
Proof.
  induction pre as [|g pre IH]; cbn [app getTagAndValue_in json_tag]; [reflexivity|].
  now rewrite IH.
Qed.

Lemma Split_nonempty (s sep : string) : GoStrings.Split s sep <> [].
Proof.
  unfold GoStrings.Split. destruct (String.length s) as [|n]; [discriminate|].
  rewrite SplitN_step. destruct (GoStrings.Cut s sep) as [[a b]|]; discriminate.
Qed.

(** A reference that is not a file is validated as a record, whatever the
    rule. *)
Lemma dispatch_reference (v : validation) (x : value) (rule c j f : string) :
  plain_reference x = true ->
  dispatch rec v x rule c j f
  = match nested rec v x with
    | Some r => ([Msg j (AMap r)], Ok true)
    | None => M_ret false
    end.
Proof.
  intros Hx.
  assert (Hp : dispatch rec v x rule c j f = validatePointer rec v x rule c j f).
  { destruct x; try discriminate; try reflexivity;
      match goal with k : RefKind |- _ => now destruct k end. }
  rewrite Hp. unfold validatePointer.
  assert (Hf : as_FileHeader x = None) by (destruct x; try discriminate; reflexivity).
  rewrite Hf. now destruct (nested rec v x).
Qed.

Lemma validateRules_reference (v : validation) (x : value) (j f : string)
    (rules : list string) :
  plain_reference x = true ->
  validateRules rec v x j f rules
  = match rules, nested rec v x with
    | _ :: _, Some r => ([Msg j (AMap r)], Ok true)
    | _, _ => M_ret false
    end.
Proof.
  intros Hx.
  assert (Hne : isEmpty x = false) by (destruct x; try discriminate; reflexivity).
  induction rules as [|r rest IH]; [reflexivity|].
  cbn [validateRules]. destruct (getRuleAndMsg r) as [rule c].
  rewrite Hne, andb_false_r. cbn [negb]. rewrite dispatch_reference by exact Hx.
  destruct (nested rec v x) as [msg|]; [reflexivity|].
  rewrite M_bind_ret_l, IH. now destruct rest.
Qed.

(** Under the zero Value every goroutine panics on reading its field. *)
Lemma task_zero (v : validation) (g : StructField) :
  elemZero v = true -> task rec v g = [Msg (tag_of g) (AStr zero_Value_fault)].
Proof. intros Hz. unfold task, validateStruct. now rewrite Hz. Qed.

Lemma received_zero (v : validation) (fields : list StructField) :
  elemZero v = true ->
  received rec v fields = map (fun g => Msg (tag_of g) (AStr zero_Value_fault)) (validated fields).
Proof.
  intros Hz. unfold validated. induction fields as [|g fields IH]; [reflexivity|].
  cbn [received]. rewrite filter_cons. destruct (eligible g) eqn:Hg.
  - rewrite decide_True by reflexivity. now rewrite task_zero, IH.
  - rewrite decide_False by congruence. exact IH.
Qed.

(** The elements of a slice of strings under a rule other than [email],
    and under [email]. *)
Lemma validateElems_strings (v : validation) (elems : list value) (i : Z) (rule c f : string) :
  String.eqb rule "email" = false ->
  validateElems rec v KString elems i rule c f = M_ret [].
Proof.
  intros Hr. revert i. induction elems as [|e elems IH]; intros i; [reflexivity|].
  cbn [validateElems validateElem]. rewrite Hr. cbn [andb]. now rewrite M_bind_ret_l, IH.
Qed.

Lemma validateElems_emails (v : validation) (elems : list value) (i : Z) (c f : string) :
  validateElems rec v KString elems i "email" c f
  = M_ret (map (fun k => generateMessage v "email" (AStr c) (element_label f k) [])
             (email_faults elems i)).
Proof.
  revert i. induction elems as [|e elems IH]; intros i; [reflexivity|].
  cbn [validateElems validateElem email_faults String.eqb Ascii.eqb Bool.eqb andb].
  rewrite IH. now destruct (isNotEmail e).
Qed.

Lemma slice_bound (name d : string) :
  has_byte (byte_eqb ":") name = false ->
  tail (GoStrings.SplitN ("slice" +:+ String ":" (name +:+ String ":" d)) ":" 3) = [name; d].
Proof.
  intros Hn. rewrite SplitN_step, StringFacts.Cut_app by reflexivity. now rewrite SplitN2_app.
Qed.

End Outcomes.

(** [restore s] writes the text [s] of a rule as it is stated again, after
    an unfolding has spelled it byte by byte; [read_rule name r1] then reads
    the rule [name:r1] as the dispatchers do. *)
Ltac restore s :=
  let t := eval cbn [String.append] in s in
  (cbn [String.append]; change t with s).

Ltac read_rule name r1 :=
  restore (name +:+ String ":" r1);
  rewrite ?Contains_app, ?SplitN2_app by reflexivity;
  repeat (progress (cbn [index lookup list_lookup String.append String.eqb Ascii.eqb Bool.eqb
                         orb andb];
                    rewrite ?M_bind_lift_Ok, ?M_bind_ret_l)).

(** ** The channel and the report *)


(** X2. Every entry of a report of [structValidator] is a shown message
    under the json tag of a field of the struct that has both tags, and a
    report that is not nil has at least one entry and at most one for each
    such field. *)
Theorem report_keys_are_json_tags `{E : Env}
    (rec : validation -> value -> report) (v : validation) (r : gmap string any) :
  structValidator rec v = Some r ->
  (forall key x, r !! key = Some x ->
     shown x = true /\ exists g, g ∈ elem v /\ eligible g = true /\ json_tag g = Some key)
  /\ (1 <= size r <= length (validated (elem v)))%nat.
Proof.
  intros Hr. pose proof (structValidator_some rec v r Hr) as ->. split.
  - intros key x Hx. rewrite collect_foldl in Hx.
    apply foldl_keep_entry in Hx as [Hx | (m & Hin & Hk & Hv & Hs)];
      [rewrite lookup_empty in Hx; discriminate|].
    split; [exact Hs|].
    apply received_In in Hin as (g & Hg & Hel & Hm). exists g.
    repeat split; [exact Hg | exact Hel |].
    destruct (task_single rec v g) as [p Hp]. rewrite Hp in Hm.
    apply list_elem_of_singleton in Hm. subst m. cbn in Hk.
    unfold tag_of in Hk. unfold eligible in Hel.
    destruct (json_tag g) as [t|]; [cbn in Hk; now subst | discriminate].
  - split.
    + unfold structValidator in Hr.
      destruct (0 <? Z.of_nat (size (collect (received rec v (elem v))))) eqn:Hs;
        [|discriminate]. apply Z.ltb_lt in Hs. lia.
    + rewrite collect_foldl.
      pose proof (collect_size (received rec v (elem v)) ∅) as Hsize.
      rewrite map_size_empty in Hsize.
      pose proof (received_length rec v (elem v)) as Hlen. lia.
Qed.

(** The report of [faulty_request] has an entry, and no more entries than
    the request has fields with both tags. *)
Lemma faulty_report_is_within_its_fields :
  (1 <= size (collect (received ValidateStruct faulty_context faulty_request))
   <= length (validated faulty_request))%nat.
Proof.
  refine (proj2 (report_keys_are_json_tags (E := demo_env) ValidateStruct faulty_context _ _)).
  vm_compute. reflexivity.
Defined.

(** X3. When the fields that are validated carry different json tags, the
    report does not depend on the order in which the goroutines send: the
    loop over the channel builds the report of [structValidator] from any
    permutation of the messages. *)
Theorem report_does_not_depend_on_the_schedule `{E : Env}
    (rec : validation -> value -> report) (v : validation) (arrival : list message) :
  NoDup (map tag_of (validated (elem v))) ->
  received rec v (elem v) ≡ₚ arrival ->
  report_from arrival = structValidator rec v.
Proof.
  intros Hnd Hperm. unfold report_from, structValidator.
  rewrite (collect_Permutation (received rec v (elem v)) arrival Hperm); [reflexivity|].
  eapply sublist_NoDup; [|apply shown_keys_sublist].
  now rewrite received_keys.
Qed.

(** The two messages of [faulty_request], in the other order. *)
Lemma faulty_report_in_the_other_order :
  report_from (reverse (received ValidateStruct faulty_context faulty_request))
  = structValidator ValidateStruct faulty_context.
Proof.
  refine (report_does_not_depend_on_the_schedule (E := demo_env) ValidateStruct
            faulty_context _ _ _).
  - vm_compute. apply NoDup_cons. split; [|apply NoDup_singleton].
    intros H. apply list_elem_of_singleton in H. discriminate H.
  - symmetry. apply reverse_Permutation.
Defined.

(** X4. [ValidateStruct] never returns an empty map: its report is nil or
    has an entry. *)
Theorem report_is_never_an_empty_map `{E : Env}
    (v : validation) (x : value) (r : gmap string any) :
  ValidateStruct v x = Some r -> r <> ∅.
Proof.
  assert (Hsv : forall rec ctx, structValidator rec ctx = Some r -> r <> ∅).
  { intros rec ctx Hr ->. unfold structValidator in Hr.
    destruct (0 <? Z.of_nat (size (collect (received rec ctx (elem ctx))))) eqn:Hs;
      [|discriminate]. injection Hr as Hr. rewrite Hr, map_size_empty in Hs. discriminate. }
  assert (Herr : forall text, error_report text = Some r -> r <> ∅).
  { intros text [= <-]. apply insert_non_empty. }
  destruct x; cbn [ValidateStruct]; eauto.
  destruct to; eauto.
Qed.

(** The report of an argument that is no pointer. *)
Lemma report_of_an_integer_is_not_empty :
  ({[ "error" := AStr "validate: a pointer is expected as an argument" ]} : gmap string any)
  <> ∅.
Proof.
  exact (report_is_never_an_empty_map (E := demo_env) (New None) (VInt "int" 5) _ eq_refl).
Defined.

(** X5. The rules of a chain are evaluated from left to right and the
    first one that reports, or panics, ends the evaluation: the rules after
    it are not evaluated; a chain that passes hands over to what follows. *)
Theorem first_violation_ends_the_chain `{E : Env}
    (rec : validation -> value -> report) (v : validation) (x : value) (j f : string)
    (a b : list string) :
  validateRules rec v x j f (a ++ b)
  = (returned <- validateRules rec v x j f a ;;
     if returned then M_ret true else validateRules rec v x j f b)
  /\ (forall sent, validateRules rec v x j f a = (sent, Ok true) ->
      validateRules rec v x j f (a ++ b) = (sent, Ok true))
  /\ (forall sent d, validateRules rec v x j f a = (sent, Panic d) ->
      validateRules rec v x j f (a ++ b) = (sent, Panic d))
  /\ (validateRules rec v x j f a = M_ret false ->
      validateRules rec v x j f (a ++ b) = validateRules rec v x j f b).
Proof.
  split; [|split; [|split]].
  - apply validateRules_app.
  - intros sent Ha. rewrite validateRules_app, Ha. cbn. now rewrite app_nil_r.
  - intros sent d Ha. now rewrite validateRules_app, Ha.
  - intros Ha. rewrite validateRules_app, Ha. now rewrite M_bind_ret_l.
Qed.

(** X6. A field whose value is empty and whose chain has no rule
    [required] sends the empty message only, whatever its other rules: the
    report is the one the struct has without that message. *)
Theorem empty_optional_field_is_silent `{E : Env}
    (rec : validation -> value -> report) (v : validation)
    (pre post : list StructField) (g : StructField) :
  elemZero v = false ->
  isEmpty (field_value g) = true ->
  first_required (GoStrings.Split (Tag_Get (validate_tag g)) "|") = None ->
  task rec v g = [Msg (tag_of g) (AStr "")]
  /\ collect (received rec v (pre ++ g :: post)) = collect (received rec v (pre ++ post)).
Proof.
  intros Hzero Hx Hreq.
  assert (Htask : task rec v g = [Msg (tag_of g) (AStr "")]).
  { unfold task, validateStruct. rewrite Hzero, (validateRules_empty rec) by exact Hx.
    rewrite Hreq. now rewrite M_bind_ret_l. }
  split; [exact Htask|].
  rewrite !received_app. cbn [received]. destruct (eligible g); [|reflexivity].
  rewrite Htask. unfold collect. rewrite !foldl_app. reflexivity.
Qed.

(** A nickname left empty, under two rules it would not satisfy. *)
Lemma empty_nickname_is_silent :
  task (fun _ _ => None) (New None)
    (Field (Some "nick") (Some "alpha|min:3") (VString "string" ""))
  = [Msg "nick" (AStr "")].
Proof.
  refine (proj1 (empty_optional_field_is_silent (E := demo_env) (fun _ _ => None) (New None)
                   [] [] (Field (Some "nick") (Some "alpha|min:3") (VString "string" ""))
                   eq_refl eq_refl _)).
  vm_compute. reflexivity.
Defined.

(** X7. When a rule carries a custom message, the message it sends for a
    violation is that custom message and not the text of the locale; a
    nested report and the list of the outcomes of a slice are sent as they
    are. A rule passes, panics before it sends, or sends one such message
    under the json tag and ends the chain. *)
Theorem custom_message_replaces_the_template `{E : Env}
    (rec : validation -> value -> report) (v : validation) (x : value)
    (rule c j f : string) :
  c <> "" ->
  dispatch rec v x rule c j f = M_ret false
  \/ (exists d, dispatch rec v x rule c j f = lift (Panic d))
  \/ (exists p, dispatch rec v x rule c j f = ([Msg j p], Ok true)
                /\ (p = AStr c \/ (exists r, p = AMap r) \/ (exists l, p = AList l))).
Proof.
  intros Hc. destruct (dispatch_outcome rec v x rule c j f) as [|p Hp|d].
  - now left.
  - right. right. exists p. split; [reflexivity|].
    destruct p as [|s|r|l]; cbn in Hp.
    + contradiction.
    + left. destruct Hp as [->| ->]; [contradiction | reflexivity].
    + right. left. eauto.
    + right. right. eauto.
  - right. left. now exists d.
Qed.

(** The rule [alpha] with a message of its own, on a name with a digit. *)
Lemma letters_only_is_what_is_sent :
  let sent := dispatch (fun _ _ => None) (New None) (VString "string" "abc1") "alpha"
                "letters only" "name" "name" in
  sent = M_ret false
  \/ (exists d, sent = lift (Panic d))
  \/ (exists p, sent = ([Msg "name" p], Ok true)
                /\ (p = AStr "letters only" \/ (exists r, p = AMap r)
                    \/ (exists l, p = AList l))).
Proof.
  exact (custom_message_replaces_the_template (E := demo_env) (fun _ _ => None) (New None)
           (VString "string" "abc1") "alpha" "letters only" "name" "name"
           ltac:(discriminate)).
Defined.

(** X8. A field without a json tag is invisible to the validation: it is
    not validated and no rule [same] or [match] finds it, so the report of
    a struct is the report of the struct without that field. *)
Theorem field_without_json_tag_is_invisible `{E : Env}
    (v : validation) (ty : string) (k : RefKind) (pre post : list StructField)
    (chain : option string) (x : value) :
  ValidateStruct v (VStructRef ty k (pre ++ Field None chain x :: post))
  = ValidateStruct v (VStructRef ty k (pre ++ post)).
Proof.
  cbn [ValidateStruct]. unfold structValidator. cbn [elem].
  assert (Hrecv :
    received ValidateStruct
      {| elem := pre ++ Field None chain x :: post; elemZero := false;
         locale := locale v; dbConfig := dbConfig v |} (pre ++ Field None chain x :: post)
    = received ValidateStruct
        {| elem := pre ++ post; elemZero := false;
           locale := locale v; dbConfig := dbConfig v |} (pre ++ post)).
  { rewrite received_app. cbn [received eligible json_tag]. rewrite <- received_app.
    apply received_view; try reflexivity.
    intros t. apply getTagAndValue_in_untagged. }
  now rewrite Hrecv.
Qed.

(** X9. Under a nil pointer to a struct every field that has both tags is
    reported with the panic of reading a field of the zero Value, and the
    report has no other payload. *)
Theorem nil_record_faults_in_every_field `{E : Env}
    (v : validation) (ty : string) (tags : list (option string * option string))
    (j chain : string) :
  (Some j, Some chain) ∈ tags ->
  exists r, ValidateStruct v (VNilRef ty (PStruct tags)) = Some r
            /\ r !! j = Some (AStr zero_Value_fault)
            /\ (forall key x, r !! key = Some x -> x = AStr zero_Value_fault).
Proof.
  intros Hin. cbn [ValidateStruct].
  set (ctx := {| elem := map (fun t => Field t.1 t.2 VInvalid) tags; elemZero := true;
                 locale := locale v; dbConfig := dbConfig v |}).
  pose proof (received_zero unreached ctx (elem ctx) eq_refl) as Hrecv.
  assert (Hall : Forall (fun m => V m = AStr zero_Value_fault)
                   (received unreached ctx (elem ctx))).
  { rewrite Hrecv. apply Forall_forall. intros m Hm.
    apply list_elem_of_fmap in Hm as (g & -> & _). reflexivity. }
  assert (Hj : collect (received unreached ctx (elem ctx)) !! j = Some (AStr zero_Value_fault)).
  { apply collect_constant; [reflexivity | exact Hall |].
    rewrite received_keys. apply list_elem_of_fmap.
    exists (Field (Some j) (Some chain) VInvalid). split; [reflexivity|].
    unfold validated. apply list_elem_of_filter. split; [reflexivity|].
    cbn [elem ctx]. apply list_elem_of_fmap. now exists (Some j, Some chain). }
  destruct (structValidator unreached ctx) as [r|] eqn:Hr.
  - pose proof (structValidator_some unreached ctx r Hr) as ->.
    exists (collect (received unreached ctx (elem ctx))). repeat split; [exact Hj|].
    intros key x Hx. rewrite collect_foldl in Hx.
    apply foldl_keep_entry in Hx as [Hx | (m & Hm & _ & Hv & _)];
      [rewrite lookup_empty in Hx; discriminate|].
    rewrite Forall_forall in Hall. now rewrite <- Hv, (Hall m Hm).
  - exfalso. apply structValidator_nil in Hr. apply collect_empty_iff in Hr.
    rewrite Hr, lookup_empty in Hj. discriminate.
Qed.

(** A nil request with one required name. *)
Lemma nil_request_faults_in_its_name :
  exists r, ValidateStruct (New None)
              (VNilRef "*Request" (PStruct [(Some "name", Some "required")])) = Some r
            /\ r !! "name" = Some (AStr zero_Value_fault)
            /\ (forall key x, r !! key = Some x -> x = AStr zero_Value_fault).
Proof.
  exact (nil_record_faults_in_every_field (E := demo_env) (New None) "*Request"
           [(Some "name", Some "required")] "name" "required"
           ltac:(apply list_elem_of_here)).
Defined.

(** X10. A field that holds a reference which is neither nil nor a file
    is validated as a record, whatever its chain says: the goroutine sends
    the report of the nested call under the json tag of the field, or the
    empty message when that report is nil. *)
Theorem reference_field_is_validated_as_a_record `{E : Env}
    (v : validation) (fields : list StructField) (j chain : string) (x : value) :
  plain_reference x = true ->
  let ctx := context_of v fields in
  task ValidateStruct ctx (Field (Some j) (Some chain) x)
  = [Msg j match ValidateStruct (New (Some {| Locale := locale v; DB := dbConfig v |})) x with
           | Some r => AMap r
           | None => AStr ""
           end].
Proof.
  intros Hx ctx. unfold task, validateStruct.
  cbn [elemZero ctx context_of json_tag validate_tag field_value Tag_Get default from_option id].
  rewrite validateRules_reference by exact Hx.
  pose proof (Split_nonempty chain "|") as Hne.
  destruct (GoStrings.Split chain "|") as [|r rest]; [congruence|].
  unfold nested. cbn [locale dbConfig ctx context_of].
  destruct (ValidateStruct _ x) as [msg|]; [reflexivity|].
  now rewrite M_bind_ret_l.
Qed.

(** A contact under the rule [min:3], which no reference reads. *)
Lemma contact_is_validated_under_any_rule :
  let contact := VStructRef "*Contact" Pointer
                   [Field (Some "phone") (Some "required|phone") (VString "string" "12345")] in
  task ValidateStruct (context_of (New None) []) (Field (Some "contact") (Some "min:3") contact)
  = [Msg "contact"
       match ValidateStruct (New (Some {| Locale := "en"; DB := None |})) contact with
       | Some r => AMap r
       | None => AStr ""
       end].
Proof.
  exact (reference_field_is_validated_as_a_record (E := demo_env) (New None) [] "contact" "min:3"
           (VStructRef "*Contact" Pointer
              [Field (Some "phone") (Some "required|phone") (VString "string" "12345")])
           eq_refl).
Defined.

(** X11. The files of a field of type [[]*multipart.FileHeader] are never
    checked: an element is a pointer to a file and not a list of files, so
    the loop validates it as a record, whose fields have no tags, and
    collects nothing, whatever the rule; the rules [image] and [size] in
    particular report nothing. *)
Theorem files_of_a_slice_are_not_checked `{E : Env}
    (v : validation) (ty tyf : string) (files : list FileHeader) (i : Z)
    (rule c j f : string) :
  validateElems ValidateStruct v KPointer (file_values tyf files) i rule c f = M_ret []
  /\ (GoStrings.HasPrefix rule "slice" = false ->
      validateSlice ValidateStruct v (VSlice ty KPointer (file_values tyf files)) rule c j f
      = M_ret false).
Proof.
  assert (Helems : forall k,
    validateElems ValidateStruct v KPointer (file_values tyf files) k rule c f = M_ret []).
  { induction files as [|fh files IH]; intros k; [reflexivity|].
    cbn [file_values map validateElems]. fold (file_values tyf files).
    rewrite IH. reflexivity. }
  split; [apply Helems|].
  intros Hrule. unfold validateSlice. rewrite Hrule. cbn [andb].
  rewrite M_bind_ret_l, Helems. reflexivity.
Qed.

(** X12. On a slice of strings [slice:min:n] reports exactly when the
    slice has fewer than [n] elements and [slice:max:n] exactly when it has
    more; the rule [email] collects one text for each element that is no
    email address, labelled with the position of the element counted from
    1, and reports their list when there is one. *)
Theorem slice_rules_count_and_label_the_elements `{E : Env}
    (rec : validation -> value -> report) (v : validation) (ty : string)
    (elems : list value) (n : Z) (c j f : string) :
  GoStrconv.minInt64 <= n <= GoStrconv.maxInt64 ->
  let x := VSlice ty KString elems in
  let d := GoFmt.FormatInt n in
  let len := Z.of_nat (length elems) in
  let texts := map (fun k => generateMessage v "email" (AStr c) (element_label f k) [])
                   (email_faults elems 0) in
  validateSlice rec v x ("slice:min:" +:+ d) c j f
  = violation (len <? n) (setMessage v "min.slice" (AStr c) j f [d])
  /\ validateSlice rec v x ("slice:max:" +:+ d) c j f
     = violation (n <? len) (setMessage v "max.slice" (AStr c) j f [d])
  /\ validateElems rec v KString elems 0 "email" c f = M_ret texts
  /\ validateSlice rec v x "email" c j f
     = match texts with
       | [] => M_ret false
       | _ => ([Msg j (AList texts)], Ok true)
       end.
Proof.
  intros Hn x d len texts.
  assert (Hatoi : GoStrconv.Atoi d = n) by now apply DecimalFacts.ParseInt_FormatInt.
  assert (Hmin : isNotMin x d = (len <? n))
    by (subst x; cbn [isNotMin Reflect.Len]; now rewrite Hatoi).
  assert (Hmax : isNotMax x d = (n <? len))
    by (subst x; cbn [isNotMax Reflect.Len]; now rewrite Hatoi, Z.gtb_ltb).
  split; [|split; [|split]].
  - unfold validateSlice. restore ("slice" +:+ String ":" ("min" +:+ String ":" d)).
    rewrite slice_bound, Contains_app by reflexivity.
    assert (Hpre : GoStrings.HasPrefix ("slice" +:+ String ":" ("min" +:+ String ":" d)) "slice"
                   = true) by reflexivity.
    rewrite Hpre, Hmin. cbn [andb String.eqb Ascii.eqb Bool.eqb].
    subst x. destruct (len <? n).
    + destruct (sends_of_setMessage v "min.slice" (AStr c) j f [d]) as [msg Hs].
      unfold violation. now rewrite Hs.
    + rewrite M_bind_ret_l. cbn iota beta.
      rewrite validateElems_strings by reflexivity. now rewrite M_bind_ret_l.
  - unfold validateSlice. restore ("slice" +:+ String ":" ("max" +:+ String ":" d)).
    rewrite slice_bound, Contains_app by reflexivity.
    assert (Hpre : GoStrings.HasPrefix ("slice" +:+ String ":" ("max" +:+ String ":" d)) "slice"
                   = true) by reflexivity.
    rewrite Hpre, Hmax. cbn [andb String.eqb Ascii.eqb Bool.eqb].
    subst x. destruct (n <? len).
    + destruct (sends_of_setMessage v "max.slice" (AStr c) j f [d]) as [msg Hs].
      unfold violation. now rewrite Hs.
    + rewrite M_bind_ret_l. cbn iota beta.
      rewrite validateElems_strings by reflexivity. now rewrite M_bind_ret_l.
  - apply validateElems_emails.
  - unfold validateSlice.
    assert (Hpre : GoStrings.HasPrefix "email" "slice" = false) by reflexivity.
    rewrite Hpre. cbn [andb].
    rewrite M_bind_ret_l. subst x. cbn iota beta.
    rewrite validateElems_emails, M_bind_ret_l.
    fold texts. now destruct texts.
Qed.

(** Two tags under [slice:min:3]. *)
Lemma two_tags_are_fewer_than_three :
  validateSlice (fun _ _ => None) (New None)
    (VSlice "[]string" KString [VString "string" "go"; VString "string" "rocq"])
    ("slice:min:" +:+ GoFmt.FormatInt 3) "" "tags" "tags"
  = violation (2 <? 3) (setMessage (New None) "min.slice" (AStr "") "tags" "tags"
                          [GoFmt.FormatInt 3]).
Proof.
  refine (proj1 (slice_rules_count_and_label_the_elements (E := demo_env) (fun _ _ => None)
                   (New None) "[]string" [VString "string" "go"; VString "string" "rocq"] 3
                   "" "tags" "tags" _)).
  vm_compute. split; discriminate.
Defined.

(** ** The shapes the patterns accept *)

Section Shapes.

Context `{E : Env}.

Import GoRegexp StringFacts RegexpFacts DecimalFacts.

Lemma nonempty_spec (s : string) : nonempty s = true <-> s <> "".
Proof. unfold nonempty. destruct s; simpl; split; congruence. Qed.

Lemma negb_false_true (b : bool) : negb b = false <-> b = true.
Proof. destruct b; simpl; split; congruence. Qed.

Lemma all_bytes_ext (p q : ascii -> bool) (s : string) :
  (forall c, p c = q c) -> all_bytes p s = all_bytes q s.
Proof. intros H. induction s as [|c s IH]; simpl; [reflexivity | now rewrite H, IH]. Qed.

(** A pattern "^[class]+$" accepts the non-empty runs of its class. *)
Lemma MatchString_run (p : ascii -> bool) (s : string) :
  MatchString (Compile true (Plus (Cls p)) true) s = run_of p s.
Proof.
  apply bool_eq_iff. rewrite MatchString_anchored, lang_plus_cls.
  unfold run_of. rewrite andb_true_iff, nonempty_spec. reflexivity.
Qed.

Lemma lang_cat (r1 r2 : re) (s : string) :
  lang (Cat r1 r2) s <-> exists s1 s2, s = s1 +:+ s2 /\ lang r1 s1 /\ lang r2 s2.
Proof. reflexivity. Qed.

Lemma lang_opt (r : re) (s : string) : lang (Opt r) s <-> s = "" \/ lang r s.
Proof. reflexivity. Qed.

Lemma lang_byte (c : ascii) (s : string) : lang (Byte c) s <-> s = String c "".
Proof.
  unfold Byte, byte_eqb. simpl. split.
  - intros (x & -> & Hx). apply Ascii.eqb_eq in Hx. now subst.
  - intros ->. exists c. split; [reflexivity | apply Ascii.eqb_refl].
Qed.

Lemma lang_lit (w s : string) : lang (Lit w) s <-> s = w.
Proof.
  revert s. induction w as [|c w IH]; intros s; cbn [Lit].
  - reflexivity.
  - rewrite lang_cat. split.
    + intros (s1 & s2 & -> & H1 & H2). apply lang_byte in H1. apply IH in H2. now subst.
    + intros ->. exists (String c ""), w. repeat split; [now apply lang_byte | now apply IH].
Qed.

Lemma lang_rep_cls (n : nat) (p : ascii -> bool) (s : string) :
  lang (Rep n (Cls p)) s <-> String.length s = n /\ all_bytes p s = true.
Proof.
  revert s. induction n as [|n IH]; intros s; cbn [Rep].
  - simpl. split; [now intros -> | intros [H _]; now destruct s].
  - rewrite lang_cat. split.
    + intros (s1 & s2 & -> & (c & -> & Hc) & H2). apply IH in H2 as [Hlen Hall].
      simpl. now rewrite Hlen, Hc, Hall.
    + intros [Hlen Hall]. destruct s as [|c s]; [discriminate|].
      simpl in Hlen, Hall. apply andb_true_iff in Hall as [Hc Hall].
      exists (String c ""), s. repeat split; [now exists c|].
      apply IH. split; [lia | exact Hall].
Qed.

Lemma lang_upto_cls (n : nat) (p : ascii -> bool) (s : string) :
  lang (UpTo n (Cls p)) s <-> (String.length s <= n)%nat /\ all_bytes p s = true.
Proof.
  revert s. induction n as [|n IH]; intros s; cbn [UpTo].
  - simpl. split; [now intros -> | intros [H _]; destruct s; [reflexivity | simpl in H; lia]].
  - rewrite lang_opt, lang_cat. split.
    + intros [->|(s1 & s2 & -> & (c & -> & Hc) & H2)]; [simpl; split; [lia | reflexivity]|].
      apply IH in H2 as [Hlen Hall]. simpl. rewrite Hc, Hall. split; [lia | reflexivity].
    + intros [Hlen Hall]. destruct s as [|c s]; [now left | right].
      simpl in Hlen, Hall. apply andb_true_iff in Hall as [Hc Hall].
      exists (String c ""), s. repeat split; [now exists c|].
      apply IH. split; [lia | exact Hall].
Qed.

Lemma take_drop (n : nat) (s : string) : GoStrings.take n s +:+ GoStrings.drop n s = s.
Proof.
  revert s. induction n as [|n IH]; intros [|c s]; simpl; try reflexivity. now rewrite IH.
Qed.

Lemma take_length (n : nat) (s : string) :
  (n <= String.length s)%nat -> String.length (GoStrings.take n s) = n.
Proof.
  revert s. induction n as [|n IH]; intros [|c s] Hn; simpl in *; try reflexivity; try lia.
  rewrite IH; [reflexivity | lia].
Qed.

Lemma lang_range_cls (lo extra : nat) (p : ascii -> bool) (s : string) :
  lang (RepRange lo extra (Cls p)) s
  <-> (lo <= String.length s <= lo + extra)%nat /\ all_bytes p s = true.
Proof.
  unfold RepRange. rewrite lang_cat. split.
  - intros (s1 & s2 & -> & H1 & H2). apply lang_rep_cls in H1 as [L1 A1].
    apply lang_upto_cls in H2 as [L2 A2].
    rewrite app_length, all_bytes_app, A1, A2. split; [lia | reflexivity].
  - intros [Hlen Hall].
    exists (GoStrings.take lo s), (GoStrings.drop lo s).
    pose proof (take_drop lo s) as Hs. pose proof (take_length lo s ltac:(lia)) as Ht.
    rewrite <- Hs in Hall, Hlen. rewrite all_bytes_app in Hall.
    apply andb_true_iff in Hall as [A1 A2]. rewrite app_length, Ht in Hlen.
    repeat split; [now rewrite Hs | apply lang_rep_cls; split; assumption |].
    apply lang_upto_cls. split; [lia | exact A2].
Qed.

Lemma lang_altof_lit (ws : list string) (s : string) :
  lang (AltOf (map Lit ws)) s <-> In s ws.
Proof.
  induction ws as [|w ws IH]; [reflexivity|].
  destruct ws as [|w' ws].
  - cbn [map AltOf]. rewrite lang_lit. simpl. intuition congruence.
  - change (lang (AltOf (map Lit (w :: w' :: ws))) s)
      with (lang (Lit w) s \/ lang (AltOf (map Lit (w' :: ws))) s).
    rewrite lang_lit, IH. simpl. intuition congruence.
Qed.

(** A pattern anchored at the end only matches a suffix of the text. *)
Lemma MatchString_end_anchored (r : re) (s : string) :
  MatchString (Compile false r true) s = true <-> exists a m, s = a +:+ m /\ lang r m.
Proof.
  unfold MatchString, search_re. rewrite accepts_spec. cbn [bol eol body].
  rewrite lang_cat. split.
  - intros (s1 & s2 & -> & _ & (s3 & s4 & -> & H & ->)). exists s1, s3.
    now rewrite app_empty_r.
  - intros (a & m & -> & H). exists a, m. repeat split; [apply lang_any_star|].
    exists m, "". now rewrite app_empty_r.
Qed.

Lemma digits_of_length_spec (n : nat) (s : string) :
  digits_of_length n s = true <-> String.length s = n /\ all_bytes is_digit s = true.
Proof. unfold digits_of_length. now rewrite andb_true_iff, Nat.eqb_eq. Qed.

Lemma digits_up_to_spec (lo hi : nat) (s : string) :
  digits_up_to lo hi s = true
  <-> (lo <= String.length s <= hi)%nat /\ all_bytes is_digit s = true.
Proof.
  unfold digits_up_to. rewrite !andb_true_iff, !Nat.leb_le. tauto.
Qed.

(** The decimal rendering of an integer is a word of the pattern of
    [isNotInt]. *)
Lemma lang_magnitude (u : Z) :
  0 <= u ->
  lang (Alt (Byte "0") (Cat (Cls is_digit19) (Star digit))) (GoFmt.FormatUint u).
Proof.
  intros Hu. destruct (Z.eq_dec u 0) as [->|Hne]; [left; now apply lang_byte|].
  right. destruct (Z.le_gt_cases 10 u) as [Hbig|Hsmall].
  - destruct (FormatUint_large u Hbig) as (c & rest & -> & Hc & _ & Hall).
    exists (String c ""), rest. repeat split; [now exists c | now apply lang_star_cls].
  - rewrite FormatUint_small by lia. exists (String (GoFmt.digit_char u) ""), "".
    repeat split; [|now apply lang_star_cls].
    eexists. split; [reflexivity|]. apply digit_char_is_digit19. lia.
Qed.

Lemma MatchString_rgx_int (z : Z) : MatchString rgx_int (GoFmt.FormatInt z) = true.
Proof.
  unfold rgx_int. apply MatchString_anchored. rewrite lang_cat.
  unfold GoFmt.FormatInt. destruct (Z.ltb_spec z 0).
  - exists "-", (GoFmt.FormatUint (- z)). repeat split.
    + right. now apply lang_byte.
    + apply lang_magnitude. lia.
  - exists "", (GoFmt.FormatUint z). repeat split; [now left | now apply lang_magnitude].
Qed.

Lemma plain_byte_class (c : ascii) :
  (is_alnum c || byte_eqb c "-" || byte_eqb c "+" || byte_eqb c " " || byte_eqb c ".")
  = plain_byte c.
Proof.
  unfold plain_byte. cbn [has_byte].
  destruct (is_alnum c), (byte_eqb c "-"), (byte_eqb c "+"), (byte_eqb c " "),
    (byte_eqb c "."); reflexivity.
Qed.

Lemma MatchString_rgx_string (s : string) : MatchString rgx_string s = run_of plain_byte s.
Proof.
  unfold rgx_string. rewrite MatchString_run. unfold run_of. f_equal.
  apply all_bytes_ext, plain_byte_class.
Qed.

Lemma MatchString_rgx_phone (s : string) : MatchString rgx_phone s = local_phone s.
Proof.
  apply bool_eq_iff. unfold rgx_phone. rewrite MatchString_anchored, lang_cat. split.
  - intros (s1 & s2 & -> & H1 & H2). apply lang_byte in H1 as ->.
    apply lang_rep_cls in H2. apply digits_of_length_spec in H2.
    cbn [String.append local_phone]. now rewrite H2.
  - destruct s as [|c rest]; [discriminate|]. cbn [local_phone].
    rewrite andb_true_iff. intros [Hc Hrest]. apply Ascii.eqb_eq in Hc as <-.
    exists "0", rest. repeat split; [now apply lang_byte|].
    apply lang_rep_cls. now apply digits_of_length_spec.
Qed.

Lemma isNotGHGPS_suffix (ty t : string) :
  isNotGHGPS (VString ty t) = false
  <-> exists before m, t = before +:+ m /\ lang (body rgx_gh_gps) m.
Proof.
  unfold isNotGHGPS, rgx_gh_gps. cbn [Reflect.String_ body].
  now rewrite negb_false_true, MatchString_end_anchored.
Qed.

Lemma lang_gh_gps (m : string) :
  lang (body rgx_gh_gps) m
  <-> exists a b c, m = a +:+ "-" +:+ b +:+ "-" +:+ c
                    /\ String.length a = 2%nat /\ all_bytes is_upper a = true
                    /\ digits_up_to 1 4 b = true /\ digits_of_length 4 c = true.
Proof.
  cbn [body rgx_gh_gps]. split.
  - intros Hm. apply lang_cat in Hm as (a & s1 & -> & Ha & H1).
    apply lang_cat in H1 as (d1 & s2 & -> & Hd1 & H2). apply lang_byte in Hd1 as ->.
    apply lang_cat in H2 as (b & s3 & -> & Hb & H3).
    apply lang_cat in H3 as (d2 & c & -> & Hd2 & Hc). apply lang_byte in Hd2 as ->.
    apply lang_rep_cls in Ha as [La Aa].
    exists a, b, c. repeat split; try assumption.
    + apply digits_up_to_spec. apply lang_range_cls in Hb. exact Hb.
    + now apply digits_of_length_spec, lang_rep_cls.
  - intros (a & b & c & -> & La & Aa & Hb & Hc).
    apply lang_cat. exists a, ("-" +:+ b +:+ "-" +:+ c). repeat split.
    + now apply lang_rep_cls.
    + apply lang_cat. exists "-", (b +:+ "-" +:+ c). repeat split; [now apply lang_byte|].
      apply lang_cat. exists b, ("-" +:+ c). repeat split.
      * apply (lang_range_cls 1 3). now apply digits_up_to_spec in Hb.
      * apply lang_cat. exists "-", c. repeat split; [now apply lang_byte|].
        now apply lang_rep_cls, digits_of_length_spec.
Qed.

(** [strings.LastIndex] of a one-byte separator. *)
Lemma LastIndex_from_none (c : ascii) (s : string) (i last : Z) :
  has_byte (byte_eqb c) s = false ->
  GoStrings.LastIndex_from s (String c "") i last = last.
Proof.
  revert i last. induction s as [|x s IH]; intros i last Hs.
  - reflexivity.
  - cbn [has_byte] in Hs. apply orb_false_iff in Hs as [Hx Hs].
    cbn [GoStrings.LastIndex_from]. rewrite prefix_one, Hx. now apply IH.
Qed.

Lemma LastIndex_from_app (c : ascii) (a d : string) (i last : Z) :
  has_byte (byte_eqb c) d = false ->
  GoStrings.LastIndex_from (a +:+ String c d) (String c "") i last
  = i + Z.of_nat (String.length a).
Proof.
  intros Hd. revert i last. induction a as [|x a IH]; intros i last.
  - cbn [String.append GoStrings.LastIndex_from String.length]. rewrite prefix_one.
    unfold byte_eqb at 1. rewrite Ascii.eqb_refl, LastIndex_from_none by exact Hd. lia.
  - cbn [String.append GoStrings.LastIndex_from String.length]. rewrite IH. lia.
Qed.

Lemma isNotEmail_shape (ty local domain : string) :
  has_byte (byte_eqb "@") domain = false ->
  isNotEmail (VString ty (local +:+ "@" +:+ domain))
  = negb (email_shape local domain && mail_ParseAddress (local +:+ "@" +:+ domain)).
Proof.
  intros Hd. unfold isNotEmail, email_shape, GoStrings.LastIndex. cbn [Reflect.String_].
  change (local +:+ "@" +:+ domain) with (local +:+ String "@" domain).
  rewrite LastIndex_from_app by exact Hd.
  rewrite app_length. cbn [String.length].
  replace (Z.to_nat (0 + Z.of_nat (String.length local) + 1))
    with (String.length (local +:+ "@")) by (rewrite app_length; simpl; lia).
  replace (Z.to_nat (0 + Z.of_nat (String.length local))) with (String.length local) by lia.
  assert (Hdrop : GoStrings.drop (String.length (local +:+ "@")) (local +:+ String "@" domain)
                  = domain).
  { change (local +:+ String "@" domain) with (local +:+ "@" +:+ domain).
    rewrite <- (app_assoc local "@" domain). apply drop_app. }
  rewrite !Hdrop, take_app. fold (reserved_domain domain).
  destruct (reserved_domain domain), (mail_ParseAddress (local +:+ String "@" domain));
    zbool.
Qed.

Lemma isNotEmail_no_at (ty s : string) :
  has_byte (byte_eqb "@") s = false -> isNotEmail (VString ty s) = true.
Proof.
  intros Hs. unfold isNotEmail, GoStrings.LastIndex. cbn [Reflect.String_].
  rewrite LastIndex_from_none by exact Hs.
  now destruct ((Z.of_nat (String.length s) <? 6) || (Z.of_nat (String.length s) >? 254)).
Qed.

(** Reading a bound that is no number. *)
Lemma is_digit_val (c : ascii) :
  is_digit c = true -> exists d, GoStrconv.digit_val c = Some d /\ 0 <= d <= 9.
Proof.
  intros Hc. unfold GoStrconv.digit_val. rewrite Hc. eexists. split; [reflexivity|].
  unfold is_digit, in_range in Hc. apply andb_true_iff in Hc as [H1 H2].
  apply Z.leb_le in H1, H2. change (byte_code "0") with 48 in H1.
  change (byte_code "9") with 57 in H2. lia.
Qed.

(** Nineteen bytes do not reach the range of [uint64]: the loop of
    [ParseUint] meets the byte that is no digit and returns 0. *)
Lemma ParseUint_loop_bad (s : string) (n : Z) :
  all_bytes is_digit s = false -> (String.length s <= 19)%nat ->
  0 <= n < 10 ^ (19 - Z.of_nat (String.length s)) ->
  GoStrconv.ParseUint_loop s n = 0.
Proof.
  revert n. induction s as [|c s IH]; intros n Hs Hlen Hn; [discriminate|].
  cbn [all_bytes] in Hs. cbn [GoStrconv.ParseUint_loop].
  destruct (is_digit c) eqn:Hc.
  - destruct (is_digit_val c Hc) as (d & -> & Hd). cbn [andb] in Hs.
    assert (Hne : (1 <= String.length s)%nat) by (destruct s; [discriminate | simpl; lia]).
    cbn [String.length] in Hlen, Hn.
    assert (Hpow : 10 ^ (19 - Z.of_nat (S (String.length s))) <= 10 ^ 17)
      by (apply Z.pow_le_mono_r; lia).
    assert (Hstep : 10 ^ (19 - Z.of_nat (String.length s))
                    = 10 * 10 ^ (19 - Z.of_nat (S (String.length s)))).
    { rewrite <- Z.pow_succ_r by lia. f_equal. lia. }
    unfold GoStrconv.maxUint64.
    change ((2 ^ 64 - 1) / 10 + 1) with 1844674407370955162.
    change (2 ^ 64 - 1) with 18446744073709551615.
    change (10 ^ 17) with 100000000000000000 in Hpow.
    destruct (Z.geb_spec n 1844674407370955162); [lia|].
    destruct (Z.gtb_spec (n * 10 + d) 18446744073709551615); [lia|].
    apply IH; [exact Hs | lia | lia].
  - unfold GoStrconv.digit_val. now rewrite Hc.
Qed.

Lemma ParseUint_loop_bad0 (s : string) :
  all_bytes is_digit s = false -> (String.length s <= 19)%nat ->
  GoStrconv.ParseUint_loop s 0 = 0.
Proof.
  intros Hs Hlen. apply ParseUint_loop_bad; [exact Hs | exact Hlen|].
  split; [lia|]. apply Z.pow_pos_nonneg; lia.
Qed.

Lemma ParseInt_bad (s : string) :
  is_decimal s = false -> (String.length s <= 19)%nat -> GoStrconv.ParseInt s = 0.
Proof.
  intros Hs Hlen. destruct s as [|c rest]; [reflexivity|].
  cbn [is_decimal] in Hs. unfold GoStrconv.ParseInt.
  destruct (byte_eqb c "+" || byte_eqb c "-") eqn:Hsign.
  - destruct rest as [|x rest]; [reflexivity|]. cbn [nonempty String.eqb negb andb] in Hs.
    rewrite ParseUint_loop_bad0; [|exact Hs | simpl in *; lia].
    now destruct (byte_eqb c "-").
  - apply orb_false_iff in Hsign as [_ Hminus]. rewrite Hminus.
    rewrite ParseUint_loop_bad0 by assumption. reflexivity.
Qed.

End Shapes.

(** ** The predicates of rule.go *)

(** X13. The rule [int] never reports: the decimal rendering of an integer
    always has the shape the pattern of [isNotInt] asks for, and the
    dispatchers of strings and of floats have no case for that rule. *)
Theorem int_rule_accepts_every_integer `{E : Env}
    (rec : validation -> value -> report) (v : validation) (unsigned : bool)
    (ty : string) (z : Z) (c j f : string) :
  let x := integer unsigned ty z in
  isNotInt x = false
  /\ validateNumeric v x "int" c j f = M_ret false
  /\ dispatch rec v x "int" c j f = M_ret false
  /\ (forall s, dispatch rec v (VString ty s) "int" c j f = M_ret false)
  /\ (forall fl, dispatch rec v (VFloat ty fl) "int" c j f = M_ret false).
Proof.
  intros x.
  assert (Hint : isNotInt x = false).
  { unfold isNotInt. replace (Sprintf_d x) with (GoFmt.FormatInt z)
      by (subst x; now destruct unsigned).
    now rewrite MatchString_rgx_int. }
  assert (Hnum : validateNumeric v x "int" c j f = M_ret false).
  { unfold validateNumeric. cbn [String.eqb Ascii.eqb Bool.eqb]. now rewrite Hint. }
  repeat split; try assumption.
  subst x. destruct unsigned; exact Hnum.
Qed.

(** X14. The rules [alpha], [alpha_numeric], [numeric] and [string] accept
    exactly the texts that are not empty and whose every byte is of the
    class of the rule: ASCII letters; ASCII letters and digits; digits;
    and letters, digits, "-", "+", " " and ".". *)
Theorem class_rules_accept_runs_of_their_class `{E : Env}
    (v : validation) (ty s c j f : string) :
  let x := VString ty s in
  let set key := setMessage v key (AStr c) j f [] in
  (isNotAlpha x = negb (run_of is_alpha s)
   /\ isNotAlphanumeric x = negb (run_of is_alnum s)
   /\ isNotNumeric x = negb (run_of is_digit s)
   /\ isNotString x = negb (run_of plain_byte s))
  /\ validateString v x "alpha" c j f = violation (negb (run_of is_alpha s)) (set "alpha")
  /\ validateString v x "alpha_numeric" c j f
     = violation (negb (run_of is_alnum s)) (set "alpha_numeric")
  /\ validateString v x "numeric" c j f = violation (negb (run_of is_digit s)) (set "numeric")
  /\ validateString v x "string" c j f = violation (negb (run_of plain_byte s)) (set "string").
Proof.
  intros x set.
  assert (Ha : isNotAlpha x = negb (run_of is_alpha s))
    by (unfold isNotAlpha, rgx_alpha; now rewrite MatchString_run).
  assert (Han : isNotAlphanumeric x = negb (run_of is_alnum s))
    by (unfold isNotAlphanumeric, rgx_alphanumeric; now rewrite MatchString_run).
  assert (Hn : isNotNumeric x = negb (run_of is_digit s))
    by (unfold isNotNumeric, rgx_numeric, digit; now rewrite MatchString_run).
  assert (Hs : isNotString x = negb (run_of plain_byte s))
    by (unfold isNotString; now rewrite MatchString_rgx_string).
  repeat split; try assumption; unfold validateString;
    cbn [String.eqb Ascii.eqb Bool.eqb]; now rewrite ?Ha, ?Han, ?Hn, ?Hs.
Qed.

(** X15. The rule [phone] accepts exactly "0" followed by nine digits, and
    so does the rule [username] for a text that has no "@" and does not
    start with "+". *)
Theorem phone_is_a_zero_and_nine_digits `{E : Env}
    (v : validation) (ty s c j f : string) :
  isNotPhone (VString ty s) = negb (local_phone s)
  /\ validateString v (VString ty s) "phone" c j f
     = violation (negb (local_phone s)) (setMessage v "phone" (AStr c) j f [])
  /\ (GoStrings.Contains s "@" = false -> GoStrings.HasPrefix s "+" = false ->
      isNotUsername (VString ty s) = negb (local_phone s)).
Proof.
  assert (Hp : isNotPhone (VString ty s) = negb (local_phone s))
    by (unfold isNotPhone; now rewrite MatchString_rgx_phone).
  split; [|split].
  - exact Hp.
  - unfold validateString. cbn [String.eqb Ascii.eqb Bool.eqb]. now rewrite Hp.
  - intros Hat Hplus. unfold isNotUsername. cbn [Reflect.String_].
    now rewrite Hat, Hplus.
Qed.

(** X16. The rule [phone_with_code] accepts exactly "+", one of the calling
    codes of the pattern, and from one to fourteen digits. *)
Theorem phone_with_code_is_plus_code_and_digits `{E : Env} (ty s : string) :
  isNotPhoneWithCode (VString ty s) = false
  <-> exists code d, s = "+" +:+ code +:+ d
                     /\ In code calling_codes /\ digits_up_to 1 14 d = true.
Proof.
  unfold isNotPhoneWithCode, rgx_phone_with_code. cbn [Reflect.String_].
  rewrite negb_false_true, RegexpFacts.MatchString_anchored, lang_cat. split.
  - intros (s1 & s2 & -> & H1 & H2). apply lang_byte in H1 as ->.
    apply lang_cat in H2 as (code & d & -> & Hcode & Hd).
    exists code, d. repeat split.
    + now apply lang_altof_lit.
    + apply digits_up_to_spec. apply lang_range_cls in Hd. exact Hd.
  - intros (code & d & -> & Hcode & Hd). exists "+", (code +:+ d).
    repeat split; [now apply lang_byte|].
    apply lang_cat. exists code, d. repeat split; [now apply lang_altof_lit|].
    apply (lang_range_cls 1 13). now apply digits_up_to_spec in Hd.
Qed.

(** X17. The rule [gh_card] accepts exactly "GHA-", nine digits, "-" and
    one digit. *)
Theorem gh_card_is_GHA_nine_digits_and_one `{E : Env} (ty s : string) :
  isNotGHCard (VString ty s) = false
  <-> exists a b, s = "GHA-" +:+ a +:+ "-" +:+ b
                  /\ digits_of_length 9 a = true /\ digits_of_length 1 b = true.
Proof.
  unfold isNotGHCard, rgx_gh_card. cbn [Reflect.String_].
  rewrite negb_false_true, RegexpFacts.MatchString_anchored, lang_cat. split.
  - intros (s1 & s2 & -> & H1 & H2). apply lang_lit in H1 as ->.
    apply lang_cat in H2 as (a & s3 & -> & Ha & H3).
    apply lang_cat in H3 as (s4 & b & -> & H4 & Hb). apply lang_byte in H4 as ->.
    exists a, b. repeat split.
    + now apply digits_of_length_spec, lang_rep_cls.
    + now apply digits_of_length_spec, lang_rep_cls.
  - intros (a & b & -> & Ha & Hb). exists "GHA-", (a +:+ "-" +:+ b).
    repeat split; [now apply lang_lit|].
    apply lang_cat. exists a, ("-" +:+ b). repeat split.
    + now apply lang_rep_cls, digits_of_length_spec.
    + apply lang_cat. exists "-", b. repeat split; [now apply lang_byte|].
      now apply lang_rep_cls, digits_of_length_spec.
Qed.

(** X18. The pattern of [gh_gps] is anchored at the end only: the rule
    accepts exactly the texts that end with two upper-case letters, "-",
    from one to four digits, "-" and four digits, whatever stands before;
    what it accepts it accepts after any prefix. *)
Theorem gh_gps_checks_the_end_of_the_text `{E : Env} (ty s : string) :
  (isNotGHGPS (VString ty s) = false
   <-> exists before a b c,
         s = before +:+ a +:+ "-" +:+ b +:+ "-" +:+ c
         /\ String.length a = 2%nat /\ all_bytes is_upper a = true
         /\ digits_up_to 1 4 b = true /\ digits_of_length 4 c = true)
  /\ (isNotGHGPS (VString ty s) = false ->
      forall before, isNotGHGPS (VString ty (before +:+ s)) = false).
Proof.
  split.
  - rewrite isNotGHGPS_suffix. split.
    + intros (before & m & -> & Hm). apply lang_gh_gps in Hm as (a & b & c & -> & H).
      now exists before, a, b, c.
    + intros (before & a & b & c & -> & H). exists before, (a +:+ "-" +:+ b +:+ "-" +:+ c).
      split; [reflexivity|]. apply lang_gh_gps. now exists a, b, c.
  - intros Hs before. apply isNotGHGPS_suffix in Hs as (b0 & m & -> & Hm).
    apply isNotGHGPS_suffix. exists (before +:+ b0), m.
    split; [now rewrite StringFacts.app_assoc | exact Hm].
Qed.

(** X19. For a text [local@domain] whose domain has no "@", [isNotEmail]
    accepts exactly when the text has from 6 to 254 bytes, the local part
    from 1 to 64, the domain at least 2, the domain is none of "localhost",
    "localhost.com" and "example.com", and [mail.ParseAddress] accepts the
    text. A text without "@" is no email address. *)
Theorem email_is_local_at_domain `{E : Env}
    (v : validation) (ty local domain other c j f : string) :
  has_byte (byte_eqb "@") domain = false ->
  let s := local +:+ "@" +:+ domain in
  let ok := email_shape local domain && mail_ParseAddress s in
  isNotEmail (VString ty s) = negb ok
  /\ validateString v (VString ty s) "email" c j f
     = violation (negb ok) (setMessage v "email" (AStr c) j f [])
  /\ (reserved_domain domain = true -> isNotEmail (VString ty s) = true)
  /\ (has_byte (byte_eqb "@") other = false -> isNotEmail (VString ty other) = true).
Proof.
  intros Hd s ok.
  pose proof (isNotEmail_shape ty local domain Hd) as Hs. fold s in Hs. fold ok in Hs.
  split; [|split; [|split]].
  - exact Hs.
  - unfold validateString. cbn [String.eqb Ascii.eqb Bool.eqb]. now rewrite Hs.
  - intros Hr. rewrite Hs. subst ok. unfold email_shape. rewrite Hr.
    cbn [negb]. now rewrite andb_false_r.
  - apply isNotEmail_no_at.
Qed.

(** An address at a domain of its own. *)
Lemma ada_at_lovelace_org :
  isNotEmail (E := demo_env) (VString "string" ("ada" +:+ "@" +:+ "lovelace.org"))
  = negb (email_shape "ada" "lovelace.org"
          && mail_ParseAddress (Env := demo_env) ("ada" +:+ "@" +:+ "lovelace.org")).
Proof.
  exact (proj1 (email_is_local_at_domain (E := demo_env) (New None) "string" "ada"
                  "lovelace.org" "" "" "email" "email" eq_refl)).
Defined.

(** X20. The rules [same] and [match] compare the renderings of
    [Value.String], which for a value that is not a string is the name of
    its type: two such values of one type are the same whatever they hold,
    and on a number the two rules never report against a field of the type
    of the number. *)
Theorem same_ignores_values_that_are_not_strings `{E : Env}
    (v : validation) (x y : value) (t tag c j f : string) :
  Reflect.Kind_of x <> KString ->
  Reflect.Kind_of y <> KString ->
  Reflect.type_name x = Reflect.type_name y ->
  isNotSame x y = false
  /\ (getTagAndValue v t = (tag, y) ->
      validateNumericParams v x ("same:" +:+ t) c j f = M_ret false
      /\ validateNumericParams v x ("match:" +:+ t) c j f = M_ret false).
Proof.
  intros Hx Hy Hty.
  assert (Hstr : forall z, Reflect.Kind_of z <> KString ->
            Reflect.String_ z = "<" +:+ Reflect.type_name z +:+ " Value>").
  { intros z Hz. destruct z; try reflexivity. now contradiction Hz. }
  assert (Hsame : isNotSame x y = false).
  { unfold isNotSame. rewrite (Hstr x Hx), (Hstr y Hy), Hty, String.eqb_refl. reflexivity. }
  split; [exact Hsame|]. intros Hget. split.
  - unfold validateNumericParams. read_rule "same" t. now rewrite Hget, Hsame.
  - unfold validateNumericParams. read_rule "match" t. now rewrite Hget, Hsame.
Qed.

(** The integers 1 and 2 are the same. *)
Lemma one_is_the_same_as_two :
  isNotSame (VInt "int" 1) (VInt "int" 2) = false.
Proof.
  exact (proj1 (same_ignores_values_that_are_not_strings (E := demo_env) (New None)
                  (VInt "int" 1) (VInt "int" 2) "" "" "" "" ""
                  ltac:(discriminate) ltac:(discriminate) eq_refl)).
Defined.

(** X21. With the bound written in decimal, [min:m] reports exactly for a
    value below [m], [max:m] exactly for a value above [m], and [equal:m]
    and [size:m] exactly for a value other than [m]: for a signed integer,
    for an unsigned one and for a string by its length, in the predicates
    and in the two dispatchers that read the rule. *)
Theorem bounds_are_read_in_decimal `{E : Env}
    (v : validation) (ty : string) (x m : Z) (s c j f : string) :
  GoStrconv.minInt64 <= m <= GoStrconv.maxInt64 ->
  let d := GoFmt.FormatInt m in
  let len := Z.of_nat (String.length s) in
  let set key := setMessage v key (AStr c) j f [d] in
  (isNotMin (VInt ty x) d = (x <? m) /\ isNotMax (VInt ty x) d = (m <? x)
   /\ isNotEqual (VInt ty x) d = negb (x =? m) /\ isNotSize (VInt ty x) d = negb (x =? m))
  /\ (0 <= m ->
      isNotMin (VUint ty x) d = (x <? m) /\ isNotMax (VUint ty x) d = (m <? x)
      /\ isNotEqual (VUint ty x) d = negb (x =? m) /\ isNotSize (VUint ty x) d = negb (x =? m))
  /\ (isNotMin (VString ty s) d = (len <? m) /\ isNotMax (VString ty s) d = (m <? len)
      /\ isNotEqual (VString ty s) d = negb (len =? m)
      /\ isNotSize (VString ty s) d = negb (len =? m))
  /\ (validateNumericParams v (VInt ty x) ("min:" +:+ d) c j f
      = violation (x <? m) (set "min.numeric")
      /\ validateNumericParams v (VInt ty x) ("max:" +:+ d) c j f
         = violation (m <? x) (set "max.numeric")
      /\ validateNumericParams v (VInt ty x) ("equal:" +:+ d) c j f
         = violation (negb (x =? m)) (set "equal.numeric")
      /\ validateNumericParams v (VInt ty x) ("size:" +:+ d) c j f
         = violation (negb (x =? m)) (set "size.numeric"))
  /\ (validateStringParams v (VString ty s) ("min:" +:+ d) c j f
      = violation (len <? m) (set "min.string")
      /\ validateStringParams v (VString ty s) ("max:" +:+ d) c j f
         = violation (m <? len) (set "max.string")
      /\ validateStringParams v (VString ty s) ("equal:" +:+ d) c j f
         = violation (negb (len =? m)) (set "equal.string")
      /\ validateStringParams v (VString ty s) ("size:" +:+ d) c j f
         = violation (negb (len =? m)) (set "size.string")).
Proof.
  intros Hm d len set.
  assert (Hint : GoStrconv.ParseInt d = m) by now apply DecimalFacts.ParseInt_FormatInt.
  assert (Hatoi : GoStrconv.Atoi d = m) by exact Hint.
  assert (Hsends : forall key, exists msg, set key = send msg)
    by (intros key; apply sends_of_setMessage).
  assert (Hi : isNotMin (VInt ty x) d = (x <? m) /\ isNotMax (VInt ty x) d = (m <? x)
   /\ isNotEqual (VInt ty x) d = negb (x =? m) /\ isNotSize (VInt ty x) d = negb (x =? m)).
  { cbn [isNotMin isNotMax isNotEqual isNotSize]. rewrite Hint, Z.gtb_ltb. auto. }
  assert (Hs : isNotMin (VString ty s) d = (len <? m) /\ isNotMax (VString ty s) d = (m <? len)
      /\ isNotEqual (VString ty s) d = negb (len =? m)
      /\ isNotSize (VString ty s) d = negb (len =? m)).
  { cbn [isNotMin isNotMax isNotEqual isNotSize Reflect.Len]. rewrite Hatoi, Z.gtb_ltb. auto. }
  destruct Hi as (Hi1 & Hi2 & Hi3 & Hi4). destruct Hs as (Hs1 & Hs2 & Hs3 & Hs4).
  split; [auto|]. split.
  { intros Hpos.
    assert (Hu : GoStrconv.ParseUint d = m).
    { apply DecimalFacts.ParseUint_FormatInt.
      unfold GoStrconv.maxInt64, GoStrconv.maxUint64 in *. lia. }
    cbn [isNotMin isNotMax isNotEqual isNotSize]. rewrite Hu, Z.gtb_ltb. auto. }
  split; [auto|]. split.
  - repeat split.
    + unfold validateNumericParams, numeric_case. read_rule "min" d.
      rewrite Hi1, bind_violation by apply Hsends.
      repeat (progress (cbn [String.eqb Ascii.eqb Bool.eqb]; rewrite ?M_bind_ret_l)).
      now destruct (x <? m).
    + unfold validateNumericParams, numeric_case. read_rule "max" d.
      rewrite Hi2, bind_violation by apply Hsends.
      repeat (progress (cbn [String.eqb Ascii.eqb Bool.eqb]; rewrite ?M_bind_ret_l)).
      now destruct (m <? x).
    + unfold validateNumericParams, numeric_case. read_rule "equal" d.
      rewrite Hi3, bind_violation by apply Hsends.
      repeat (progress (cbn [String.eqb Ascii.eqb Bool.eqb]; rewrite ?M_bind_ret_l)).
      now destruct (x =? m).
    + unfold validateNumericParams, numeric_case. read_rule "size" d.
      now rewrite Hi4.
  - repeat split.
    + unfold validateStringParams. read_rule "min" d. now rewrite Hs1.
    + unfold validateStringParams. read_rule "max" d. now rewrite Hs2.
    + unfold validateStringParams. read_rule "equal" d. now rewrite Hs3.
    + unfold validateStringParams. read_rule "size" d. now rewrite Hs4.
Qed.

(** The age 17 against [min:18]. *)
Lemma seventeen_is_below_eighteen :
  isNotMin (E := demo_env) (VInt "int" 17) (GoFmt.FormatInt 18) = (17 <? 18).
Proof.
  refine (proj1 (proj1 (bounds_are_read_in_decimal (E := demo_env) (New None) "int" 17 18
                          "" "" "age" "age" _))).
  vm_compute. split; discriminate.
Defined.

(** X22. A bound of at most 19 bytes that is no integer in decimal is read
    as 0: with such a bound [min] reports exactly a negative number and no
    string, and [max] reports every positive number and every string that
    is not empty. *)
Theorem bound_that_is_no_number_reads_as_zero `{E : Env}
    (ty : string) (x : Z) (s bound : string) :
  is_decimal bound = false ->
  (String.length bound <= 19)%nat ->
  GoStrconv.ParseInt bound = 0
  /\ isNotMin (VInt ty x) bound = (x <? 0)
  /\ isNotMax (VInt ty x) bound = (0 <? x)
  /\ isNotMin (VString ty s) bound = false
  /\ isNotMax (VString ty s) bound = nonempty s.
Proof.
  intros Hb Hlen. pose proof (ParseInt_bad bound Hb Hlen) as Hp.
  assert (Ha : GoStrconv.Atoi bound = 0) by exact Hp.
  repeat split; cbn [isNotMin isNotMax Reflect.Len]; rewrite ?Hp, ?Ha, ?Z.gtb_ltb;
    try reflexivity.
  - destruct (Z.ltb_spec (Z.of_nat (String.length s)) 0); [lia | reflexivity].
  - destruct s; reflexivity.
Qed.

(** The bound "1.5" of a rule [max:1.5]. *)
Lemma one_and_a_half_reads_as_zero : GoStrconv.ParseInt "1.5" = 0.
Proof.
  refine (proj1 (bound_that_is_no_number_reads_as_zero (E := demo_env) "int" 1 "" "1.5"
                   eq_refl _)).
  cbn [String.length]. lia.
Defined.

(** X23. A rule [from:p] or [between:p] whose parameter has no comma
    panics on the second bound, an index past the end of the one-element
    list of bounds, in both dispatchers and whatever the value; the
    goroutine of an integer field with such a rule reports the panic. *)
Theorem range_without_a_comma_panics `{E : Env}
    (rec : validation -> value -> report) (v : validation) (x : value)
    (ty : string) (z : Z) (p c j f : string) :
  has_byte (byte_eqb ",") p = false ->
  (validateStringParams v x ("from:" +:+ p) c j f = lift (Panic index_fault)
   /\ validateStringParams v x ("between:" +:+ p) c j f = lift (Panic index_fault)
   /\ validateNumericParams v x ("from:" +:+ p) c j f = lift (Panic index_fault)
   /\ validateNumericParams v x ("between:" +:+ p) c j f = lift (Panic index_fault))
  /\ (z <> 0 -> elemZero v = false ->
      has_byte (byte_eqb "|") p = false -> has_byte (byte_eqb ">") p = false ->
      task rec v (Field (Some j) (Some ("from:" +:+ p)) (VInt ty z))
      = [Msg j (AStr ("validation panic: " +:+ index_fault))]).
Proof.
  intros Hp.
  assert (Hsplit : GoStrings.SplitN p "," 2 = [p]) by now apply SplitN2_none.
  assert (Hnum : forall y c' f', validateNumericParams v y ("from:" +:+ p) c' j f'
                                 = lift (Panic index_fault)).
  { intros y c' f'. unfold validateNumericParams. read_rule "from" p. now rewrite Hsplit. }
  split.
  - repeat split.
    + unfold validateStringParams. read_rule "from" p. now rewrite Hsplit.
    + unfold validateStringParams. read_rule "between" p. now rewrite Hsplit.
    + apply Hnum.
    + unfold validateNumericParams. read_rule "between" p. now rewrite Hsplit.
  - intros Hz Hzero Hbar Hgt. unfold task, validateStruct.
    cbn [json_tag validate_tag field_value Tag_Get default from_option id].
    rewrite Hzero, Split_single by exact Hbar. cbn [validateRules].
    rewrite getRuleAndMsg_plain by exact Hgt.
    cbn [String.append String.eqb Ascii.eqb Bool.eqb andb isEmpty].
    destruct (Z.eqb_spec z 0) as [|_]; [contradiction|]. cbn [negb].
    cbn [dispatch Reflect.Kind_of]. unfold validateNumeric.
    cbn [String.append String.eqb Ascii.eqb Bool.eqb].
    restore ("from" +:+ String ":" p).
    rewrite Contains_app. change ("from" +:+ String ":" p) with ("from:" +:+ p).
    rewrite Hnum. reflexivity.
Qed.

(** The rule [from:5], which names one bound. *)
Lemma from_five_has_no_second_bound :
  validateNumericParams (E := demo_env) (New None) (VInt "int" 3) ("from:" +:+ "5") "" "age" "age"
  = lift (Panic index_fault).
Proof.
  exact (proj1 (proj2 (proj2 (proj1
    (range_without_a_comma_panics (E := demo_env) (fun _ _ => None) (New None) (VInt "int" 3)
       "int" 3 "5" "" "age" "age" eq_refl))))).
Defined.

(** X24. On a file the rule [file] reports exactly when the file does not
    open, and the rules [image], [image:m], [file:m] and [mimes:m] report
    exactly when it does not open or the extension detected from its bytes
    is not among the listed ones: the four extensions of [image], or the
    names of [m], each with a dot before it. *)
Theorem file_rules_read_the_file `{E : Env}
    (rec : validation -> value -> report) (v : validation) (ty : string) (k : RefKind)
    (fh : FileHeader) (mimes c j f : string) :
  let x := VFile ty k fh in
  let listed names := opens fh && mimetype_EqualsAny (mimetype_Extension (content fh)) names in
  let set key values := setMessage v key (AStr c) j f values in
  validatePointer rec v x "file" c j f = violation (negb (opens fh)) (set "file" [])
  /\ validatePointer rec v x "image" c j f
     = violation (negb (listed image_extensions)) (set "image" [])
  /\ validatePointer rec v x ("image:" +:+ mimes) c j f
     = violation (negb (listed (prepareMimes mimes))) (set "image_type" [mimes])
  /\ validatePointer rec v x ("file:" +:+ mimes) c j f
     = violation (negb (listed (prepareMimes mimes))) (set "file_type" [mimes])
  /\ validatePointer rec v x ("mimes:" +:+ mimes) c j f
     = violation (negb (listed (prepareMimes mimes))) (set "mimes" [mimes]).
Proof.
  intros x listed set.
  assert (Hm : forall names, isNotMimes x names
                             = Ok (negb (listed (prepareMimes names)))).
  { intros names. subst x listed. cbn [isNotMimes]. unfold wrong_mime, readFile.
    now destruct (opens fh). }
  assert (Hf : isNotFile x = Ok (negb (opens fh))).
  { subst x. cbn [isNotFile]. unfold unreadable, readFile. now destruct (opens fh). }
  split; [|split; [|split; [|split]]].
  - unfold validatePointer. cbn [as_FileHeader x String.eqb Ascii.eqb Bool.eqb].
    now rewrite Hf, M_bind_lift_Ok.
  - unfold validatePointer. cbn [as_FileHeader x String.eqb Ascii.eqb Bool.eqb].
    rewrite Hm, M_bind_lift_Ok.
    assert (Himage : prepareMimes "jpg,jpeg,png,webp" = image_extensions)
      by (vm_compute; reflexivity).
    now rewrite Himage.
  - unfold validatePointer. cbn [as_FileHeader x]. read_rule "image" mimes.
    now rewrite Hm, M_bind_lift_Ok.
  - unfold validatePointer. cbn [as_FileHeader x]. read_rule "file" mimes.
    now rewrite Hm, M_bind_lift_Ok.
  - unfold validatePointer. cbn [as_FileHeader x]. read_rule "mimes" mimes.
    now rewrite Hm, M_bind_lift_Ok.
Qed.

(** X25. The rule [unique:table.column] on a string asks the database for
    a row of the table whose column, named in snake case, holds the text:
    under the postgres driver it reports when there is one, passes when
    there is none, and panics with the error of any other outcome. Without
    a database configuration, or with a driver that is neither postgres nor
    mysql, it panics. A parameter without a dot names no column, and the
    rule is not read; the dispatcher of numbers never reads it. *)
Theorem unique_asks_the_database `{E : Env}
    (v : validation) (x : value) (table column p c j f : string) :
  has_byte (byte_eqb ".") table = false ->
  let rule := "unique:" +:+ table +:+ "." +:+ column in
  (dbConfig v = None -> validateStringParams v x rule c j f = lift (Panic nil_config_fault))
  /\ (forall db, dbConfig v = Some db ->
      Driver db <> DriverPostgres -> Driver db <> DriverMysql ->
      validateStringParams v x rule c j f = lift (Panic driver_fault))
  /\ (forall db, dbConfig v = Some db -> Driver db = DriverPostgres ->
      (forall dsn, sql_Open DriverPostgres dsn = None) ->
      validateStringParams v x rule c j f
      = match sql_QueryRow db ("SELECT 1 FROM " +:+ table +:+ " WHERE " +:+ snakeCase column
                               +:+ "=$1") (Reflect.String_ x) with
        | Row => violation true (setMessage v "unique" (AStr c) j f [])
        | ErrNoRows => M_ret false
        | QueryError d => lift (Panic d)
        end)
  /\ (has_byte (byte_eqb ".") p = false ->
      validateStringParams v x ("unique:" +:+ p) c j f = M_ret false)
  /\ validateNumericParams v x ("unique:" +:+ p) c j f = M_ret false.
Proof.
  intros Ht rule.
  assert (Hread : validateStringParams v x rule c j f
                  = (b <- lift (isNotUnique (dbConfig v) (Reflect.String_ x) column table) ;;
                     violation b (setMessage v "unique" (AStr c) j f []))).
  { subst rule. unfold validateStringParams. read_rule "unique" (table +:+ "." +:+ column).
    change (table +:+ "." +:+ column) with (table +:+ String "." column).
    now rewrite SplitN2_app by exact Ht. }
  split; [|split; [|split; [|split]]].
  - intros Hdb. rewrite Hread, Hdb. reflexivity.
  - intros db Hdb Hp Hm. rewrite Hread, Hdb. unfold isNotUnique, connectDB.
    destruct (String.eqb_spec (Driver db) DriverPostgres); [contradiction|].
    destruct (String.eqb_spec (Driver db) DriverMysql); [contradiction|]. reflexivity.
  - intros db Hdb Hp Hopen. rewrite Hread, Hdb. unfold isNotUnique, connectDB.
    rewrite Hp. cbn [String.eqb Ascii.eqb Bool.eqb DriverPostgres]. rewrite Hopen.
    rewrite Hp. cbn [String.eqb Ascii.eqb Bool.eqb DriverPostgres].
    destruct (sql_QueryRow db _ _); now rewrite ?M_bind_lift_Ok.
  - intros Hp. unfold validateStringParams. read_rule "unique" p.
    now rewrite SplitN2_none.
  - unfold validateNumericParams. read_rule "unique" p. reflexivity.
Qed.

(** The rule [unique:users.email] of a validator made without a database. *)
Lemma unique_without_a_database :
  validateStringParams (E := demo_env) (New None) (VString "string" "ada@lovelace.org")
    ("unique:" +:+ "users" +:+ "." +:+ "email") "" "email" "email"
  = lift (Panic nil_config_fault).
Proof.
  exact (proj1 (unique_asks_the_database (E := demo_env) (New None)
                  (VString "string" "ada@lovelace.org") "users" "email" "" "" "email" "email"
                  eq_refl) eq_refl).
Defined.

(** ** The helpers of validation.go *)

Section Helpers.

Import StringFacts.

Ltac bytes b := destruct b as [[|] [|] [|] [|] [|] [|] [|] [|]].

Lemma upper_test (b : ascii) :
  String.eqb (String b "") (GoStrings.ToUpper1 b) = word_break b.
Proof. bytes b; reflexivity. Qed.

Lemma ToLower1_nonempty (b : ascii) : GoStrings.ToLower1 b <> "".
Proof. unfold GoStrings.ToLower1, GoStrings.rune_error. destruct (is_ascii_byte b); discriminate. Qed.

Lemma lower_is_kept (b : ascii) :
  is_lower b = true -> GoStrings.ToLower1 b = String b "" /\ word_break b = false.
Proof. bytes b; try discriminate; intros _; split; reflexivity. Qed.

Lemma length_zero (s : string) : (String.length s =? 0)%nat = false <-> s <> "".
Proof. destruct s; simpl; split; congruence. Qed.

Lemma formatFieldName_from_spec (text s : string) :
  text <> "" -> formatFieldName_from text s = text +:+ label_tail s.
Proof.
  revert text. induction s as [|b s IH]; intros text Ht; cbn [formatFieldName_from label_tail].
  - now rewrite app_empty_r.
  - rewrite upper_test. apply length_zero in Ht as Hlen. rewrite Hlen.
    assert (Hnext : (if word_break b then (text +:+ " ") +:+ GoStrings.ToLower1 b
                     else text +:+ GoStrings.ToLower1 b)
                    = text +:+ ((if word_break b then " " else "") +:+ GoStrings.ToLower1 b)).
    { destruct (word_break b); [now rewrite app_assoc | reflexivity]. }
    rewrite Hnext, IH.
    + now rewrite !app_assoc.
    + intros Heq. apply app_eq_empty in Heq as [Heq _]. contradiction.
Qed.

Lemma formatFieldName_cons (b : ascii) (s : string) :
  formatFieldName (String b s) = GoStrings.ToLower1 b +:+ label_tail s.
Proof.
  unfold formatFieldName. cbn [formatFieldName_from]. rewrite upper_test.
  cbn [String.length Nat.eqb String.append].
  assert (Hb : (if word_break b then GoStrings.ToLower1 b else GoStrings.ToLower1 b)
               = GoStrings.ToLower1 b) by now destruct (word_break b).
  rewrite Hb. apply formatFieldName_from_spec, ToLower1_nonempty.
Qed.

Lemma label_tail_app (x y : string) : label_tail (x +:+ y) = label_tail x +:+ label_tail y.
Proof.
  induction x as [|b x IH]; [reflexivity|].
  cbn [String.append label_tail]. now rewrite IH, !app_assoc.
Qed.

Lemma label_tail_lower (x : string) : all_bytes is_lower x = true -> label_tail x = x.
Proof.
  induction x as [|b x IH]; [reflexivity|]. cbn [all_bytes label_tail].
  intros H. apply andb_true_iff in H as [Hb Hx].
  destruct (lower_is_kept b Hb) as [-> ->]. now rewrite (IH Hx).
Qed.

Lemma lower_code (c : ascii) : is_lower c = true -> (97 <=? byte_code c) = true.
Proof. bytes c; try discriminate; reflexivity. Qed.

Lemma upper_code (c : ascii) :
  is_upper c = true ->
  (97 <=? byte_code c) = false /\ (byte_code c + 32 <? 128) = true
  /\ shift_up c = GoStrings.lower_byte c /\ byte_eqb "_" (shift_up c) = false.
Proof. bytes c; try discriminate; intros _; repeat split; reflexivity. Qed.

Lemma digit_code (c : ascii) :
  is_digit c = true ->
  (97 <=? byte_code c) = false /\ (byte_code c + 32 <? 128) = true
  /\ is_upper (shift_up c) = true.
Proof. bytes c; try discriminate; intros _; repeat split; reflexivity. Qed.

Lemma lower_not_bar (c : ascii) :
  is_lower c = true -> byte_eqb "_" c = false /\ GoStrings.lower_byte c = c.
Proof. bytes c; try discriminate; intros _; split; reflexivity. Qed.

Lemma snakeCase_from_lower (prev : option ascii) (first : bool) (c : ascii) (rest : string) :
  is_lower c = true ->
  snakeCase_from prev first (String c rest) = String c (snakeCase_from (Some c) false rest).
Proof. intros Hc. cbn [snakeCase_from]. now rewrite (lower_code c Hc). Qed.

Lemma snakeCase_from_id (prev : option ascii) (first : bool) (s : string) :
  all_bytes is_lower s = true -> snakeCase_from prev first s = s.
Proof.
  revert prev first. induction s as [|c s IH]; intros prev first Hs; [reflexivity|].
  cbn [all_bytes] in Hs. apply andb_true_iff in Hs as [Hc Hs].
  rewrite snakeCase_from_lower by exact Hc. now rewrite IH.
Qed.

Lemma strip_snake (prev : option ascii) (first : bool) (s : string) :
  all_bytes is_alpha s = true ->
  strip "_" (snakeCase_from prev first s) = GoStrings.ToLower s.
Proof.
  revert prev first. induction s as [|c s IH]; intros prev first Hs; [reflexivity|].
  cbn [all_bytes] in Hs. apply andb_true_iff in Hs as [Hc Hs].
  unfold is_alpha in Hc. apply orb_true_iff in Hc as [Hc|Hc].
  - rewrite snakeCase_from_lower by exact Hc. destruct (lower_not_bar c Hc) as [Hb Hl].
    cbn [strip GoStrings.ToLower]. now rewrite Hb, Hl, IH.
  - destruct (upper_code c Hc) as (H97 & H128 & Hshift & Hbar).
    cbn [snakeCase_from GoStrings.ToLower]. rewrite H97, H128. fold (shift_up c).
    cbn [String.append].
    match goal with |- context [if ?u then _ else _] => destruct u end;
      cbn [strip]; rewrite ?Hbar; cbn [byte_eqb Ascii.eqb Bool.eqb];
      now rewrite IH, Hshift.
Qed.

Lemma snakeCase_after_lower (x : string) (l d : ascii) (prev : option ascii) (first : bool) :
  all_bytes is_lower x = true -> is_lower l = true -> is_digit d = true ->
  snakeCase_from prev first (x +:+ String l (String d ""))
  = x +:+ String l (String "_" (String (shift_up d) "")).
Proof.
  revert prev first. induction x as [|c x IH]; intros prev first Hx Hl Hd.
  - cbn [String.append]. rewrite snakeCase_from_lower by exact Hl.
    destruct (digit_code d Hd) as (H97 & H128 & _).
    cbn [snakeCase_from]. rewrite H97, H128, (lower_code l Hl). reflexivity.
  - cbn [all_bytes] in Hx. apply andb_true_iff in Hx as [Hc Hx].
    cbn [String.append]. rewrite snakeCase_from_lower by exact Hc. now rewrite IH.
Qed.

Lemma concat_cons2 (sep a b : string) (rest : list string) :
  String.concat sep (a :: b :: rest) = a +:+ sep +:+ String.concat sep (b :: rest).
Proof. reflexivity. Qed.

Lemma concat_comma_length (ms : list string) :
  (length ms <= S (String.length (String.concat "," ms)))%nat.
Proof.
  induction ms as [|a rest IH]; [simpl; lia|].
  destruct rest as [|b rest]; [simpl; lia|].
  rewrite concat_cons2, !app_length. cbn [String.length length] in *. lia.
Qed.

Lemma SplitN_concat_comma (ms : list string) (n : nat) :
  ms <> [] -> Forall no_comma ms -> (length ms <= n)%nat ->
  GoStrings.SplitN (String.concat "," ms) "," n = ms.
Proof.
  revert n. induction ms as [|a rest IH]; intros n Hne Hall Hlen; [congruence|].
  inversion Hall as [|? ? Ha Hrest]; subst.
  destruct rest as [|b rest].
  - simpl in *. destruct n as [|[|n]]; [lia | reflexivity |].
    rewrite SplitN_step. now rewrite Cut_none.
  - rewrite concat_cons2. change ("," +:+ String.concat "," (b :: rest))
      with (String "," (String.concat "," (b :: rest))).
    destruct n as [|[|n]]; [simpl in Hlen; lia | simpl in Hlen; lia |].
    rewrite SplitN_step, Cut_app by exact Ha.
    f_equal. apply IH; [discriminate | exact Hrest | simpl in *; lia].
Qed.

End Helpers.

(** X26. A rule written [rule>message], where the rule has no ">", is read
    back as the rule and its custom message, whatever the message holds; a
    rule without ">" is read as itself with no message. *)
Theorem getRuleAndMsg_reads_back (rule msg : string) :
  has_byte (byte_eqb ">") rule = false ->
  getRuleAndMsg (rule +:+ ">" +:+ msg) = (rule, msg)
  /\ getRuleAndMsg rule = (rule, "").
Proof.
  intros Hr. split; [|now apply getRuleAndMsg_plain].
  unfold getRuleAndMsg. change (rule +:+ ">" +:+ msg) with (rule +:+ String ">" msg).
  now rewrite Contains_app, SplitN2_app.
Qed.

(** The rule [required] with a message of its own. *)
Lemma required_with_its_message :
  getRuleAndMsg ("required" +:+ ">" +:+ "Name is required")
  = ("required", "Name is required").
Proof.
  exact (proj1 (getRuleAndMsg_reads_back "required" "Name is required" eq_refl)).
Defined.

(** X27. [formatFieldName] works byte by byte: the label of a name cut
    after a first part that is not empty is the label of that part, a blank
    when the next byte is an ASCII byte other than a lower-case letter, and
    the label of the rest. A name of lower-case letters is its own
    label. *)
Theorem formatFieldName_breaks_words (x y : string) (b : ascii) :
  x <> "" ->
  formatFieldName (x +:+ String b y)
  = formatFieldName x +:+ (if word_break b then " " else "") +:+ formatFieldName (String b y)
  /\ (all_bytes is_lower x = true -> formatFieldName x = x).
Proof.
  intros Hx. destruct x as [|b0 x]; [congruence|]. split.
  - cbn [String.append]. rewrite !formatFieldName_cons, label_tail_app.
    cbn [label_tail]. now rewrite !StringFacts.app_assoc.
  - cbn [all_bytes]. intros H. apply andb_true_iff in H as [Hb Hall].
    rewrite formatFieldName_cons, (label_tail_lower x Hall).
    now destruct (lower_is_kept b0 Hb) as [-> _].
Qed.

(** The name [firstName] is cut before its capital. *)
Lemma firstName_is_two_words :
  formatFieldName ("first" +:+ String "N" "ame")
  = formatFieldName "first" +:+ (if word_break "N" then " " else "")
    +:+ formatFieldName (String "N" "ame").
Proof.
  refine (proj1 (formatFieldName_breaks_words "first" "ame" "N" _)).
  discriminate.
Defined.

(** X28. [snakeCase] leaves a name of lower-case letters as it is; on a
    name of letters it only lowers the letters and adds underscores; and a
    digit is not kept: after a lower-case letter it becomes an underscore
    and the upper-case letter 32 places above it. *)
Theorem snakeCase_lowers_letters_and_shifts_digits (s x : string) (l d : ascii) :
  (all_bytes is_lower s = true -> snakeCase s = s)
  /\ (all_bytes is_alpha s = true -> strip "_" (snakeCase s) = GoStrings.ToLower s)
  /\ (all_bytes is_lower x = true -> is_lower l = true -> is_digit d = true ->
      snakeCase (x +:+ String l (String d ""))
      = x +:+ String l (String "_" (String (shift_up d) ""))
      /\ is_upper (shift_up d) = true).
Proof.
  split; [|split].
  - apply snakeCase_from_id.
  - apply strip_snake.
  - intros Hx Hl Hd. split.
    + now apply snakeCase_after_lower.
    + now apply digit_code.
Qed.

(** X29. [prepareMimes] of names joined by commas, none of which holds a
    comma, is the list of the names, each with a dot before it. *)
Theorem prepareMimes_prefixes_each_name_with_a_dot (ms : list string) :
  ms <> [] -> Forall no_comma ms ->
  prepareMimes (String.concat "," ms) = map (fun m => "." +:+ m) ms.
Proof.
  intros Hne Hall. unfold prepareMimes, GoStrings.Split. f_equal.
  apply SplitN_concat_comma; [exact Hne | exact Hall | apply concat_comma_length].
Qed.

(** The parameter of a rule [mimes:jpg,png]. *)
Lemma jpg_and_png_get_their_dots :
  prepareMimes (String.concat "," ["jpg"; "png"]) = [".jpg"; ".png"].
Proof.
  refine (prepareMimes_prefixes_each_name_with_a_dot ["jpg"; "png"] _ _).
  - discriminate.
  - repeat constructor.
Defined.

(** X30. Under any rule key but "empty", [setMessage] sends under the json
    key exactly what [generateMessage] returns; under "empty" the first
    sends the custom message and the second returns the empty text. When
    the rule has no message of its own and its key, which has no dot, is
    not in the table of the locale, the text is the key itself handed to
    [Sprintf] with the field label. *)
Theorem setMessage_sends_what_generateMessage_returns `{E : Env}
    (v : validation) (key : string) (c : any) (j f : string) (values : list string) :
  (String.eqb key "empty" = false ->
   setMessage v key c j f values = send (Msg j (generateMessage v key c f values)))
  /\ setMessage v "empty" c j f values = send (Msg j c)
  /\ generateMessage v "empty" c f values = AStr ""
  /\ (String.eqb key "empty" = false -> shown c = false ->
      has_byte (byte_eqb ".") key = false -> table_of v !! key = None ->
      generateMessage v key c f [] = AStr (Sprintf key [f])).
Proof.
  split; [|split; [|split]].
  - intros Hkey. unfold setMessage, generateMessage. rewrite Hkey.
    now destruct (shown c).
  - reflexivity.
  - reflexivity.
  - intros Hkey Hc Hdot Hnone. unfold generateMessage, render, getMessage.
    fold (table_of v). rewrite Hkey, Hc, Contains_none by exact Hdot.
    now rewrite Hnone.
Qed.

(** ** The engine on examples *)

Example FormatInt_examples :
  GoFmt.FormatInt 0 = "0" /\ GoFmt.FormatInt 9 = "9" /\ GoFmt.FormatInt 10 = "10"
  /\ GoFmt.FormatInt (-1234567890123) = "-1234567890123".
Proof. repeat split. Qed.

Example ParseInt_examples :
  GoStrconv.ParseInt "-123" = -123 /\ GoStrconv.ParseInt "+77" = 77
  /\ GoStrconv.ParseInt "12a" = 0 /\ GoStrconv.ParseInt "-" = 0
  /\ GoStrconv.ParseInt "9223372036854775808" = GoStrconv.maxInt64
  /\ GoStrconv.ParseInt "-9223372036854775809" = GoStrconv.minInt64
  /\ GoStrconv.ParseUint "-1" = 0
  /\ GoStrconv.ParseUint "18446744073709551616" = GoStrconv.maxUint64.
Proof. repeat split; vm_compute; reflexivity. Qed.

Example Split_examples :
  GoStrings.Split "required|string|from:1,5" "|" = ["required"; "string"; "from:1,5"]
  /\ GoStrings.Split "" "|" = [""]
  /\ GoStrings.SplitN "from:1,5" ":" 2 = ["from"; "1,5"]
  /\ GoStrings.SplitN "slice:min:3" ":" 3 = ["slice"; "min"; "3"]
  /\ getRuleAndMsg "required>Name is required" = ("required", "Name is required").
Proof. repeat split; vm_compute; reflexivity. Qed.

Example TrimSpace_examples :
  GoStrings.TrimSpace "  <invalid Value> " = "<invalid Value>"
  /\ GoStrings.TrimSpace (String "194" (String "160" "a b")) = "a b"
  /\ GoStrings.TrimSpace "   " = "".
Proof. repeat split; vm_compute; reflexivity. Qed.

Example formatFieldName_examples :
  formatFieldName "userType" = "user type" /\ formatFieldName "name" = "name".
Proof. repeat split; vm_compute; reflexivity. Qed.

(** The scenario of the specification: [required|email] on "a@example.com"
    reports the email violation, the domain being refused. *)
Example blacklisted_domain :
  ValidateStruct (E := demo_env) (New None)
    (VStructRef "*Request" Pointer
       [Field (Some "email") (Some "required|email") (VString "string" "a@example.com")])
  = Some {[ "email" := AStr (demo_Sprintf "email" ["email"]) ]}.
Proof. vm_compute. reflexivity. Qed.

(** A nested record with a violation of its own is reported as a nested
    report under the json tag of the field that points to it. *)
Example nested_report :
  ValidateStruct (E := demo_env) (New None)
    (VStructRef "*Request" Pointer
       [Field (Some "contact") (Some "required")
          (VStructRef "*Contact" Pointer
             [Field (Some "phone") (Some "required|phone") (VString "string" "12345")])])
  = Some {[ "contact" := AMap {[ "phone" := AStr (demo_Sprintf "phone" ["phone"]) ]} ]}.
Proof. vm_compute. reflexivity. Qed.

(** An empty value skips every rule but [required]: 0 is not rejected by
    [from:1,5] as the rule of a field, and 6 is. *)
Example empty_value_skips_the_rules :
  ValidateStruct (E := demo_env) (New None)
    (VStructRef "*Request" Pointer
       [Field (Some "low") (Some "from:1,5") (VInt "int" 0);
        Field (Some "high") (Some "from:1,5") (VInt "int" 6)])
  = Some {[ "high" := AStr (demo_Sprintf "from.numeric" ["high"; "1"; "5"]) ]}.
Proof. vm_compute. reflexivity. Qed.
